(** * basename_sorter: grouping the files of a directory by base name

    A shallow embedding of [src/inspiration/basename_sorter.py] and the
    properties of its single function [create_and_move_files].

    Layout:
    - [PyStr]     : the pure string functions the script calls
                    ([str.startswith], [os.path.join], [os.path.splitext]);
    - [Effects]   : the state-and-exception monad the script runs in;
    - [Organizer] : the script itself, written against an interface [OS]
                    of the library calls it makes;
    - [Posix]     : a model of that interface: a directory tree, a working
                    directory, the standard output and a log of the
                    mutating calls;
    - the properties. *)

From Stdlib Require Import String Ascii List ZArith Lia Bool Permutation.
Import ListNotations.
Local Open Scope string_scope.
Local Open Scope list_scope.

(* ===================================================================== *)
(** ** Python strings and [os.path] string functions *)
(* ===================================================================== *)

Module PyStr.

(** [s.startswith(prefix)] *)
Definition startswith (s prefix : string) : bool := String.prefix prefix s.

(** [s.endswith(c)] for a one-character [c]. *)
Fixpoint endswith (s : string) (c : ascii) : bool :=
  match s with
  | EmptyString => false
  | String a EmptyString => Ascii.eqb a c
  | String _ r => endswith r c
  end.

(** [c in s] for a one-character [c]. *)
Fixpoint contains (s : string) (c : ascii) : bool :=
  match s with
  | EmptyString => false
  | String a r => Ascii.eqb a c || contains r c
  end.

(** [s.rfind(c)]: the index of the last occurrence of [c], or [-1]. *)
Fixpoint rfind_from (s : string) (c : ascii) (i last : Z) : Z :=
  match s with
  | EmptyString => last
  | String a r => rfind_from r c (i + 1) (if Ascii.eqb a c then i else last)
  end.

Definition rfind (s : string) (c : ascii) : Z := rfind_from s c 0 (-1).

(** [s[i:j]] for [0 <= i], and [s[:i]], [s[i:]]. *)
Definition slice (s : string) (i j : Z) : string :=
  substring (Z.to_nat i) (Z.to_nat (j - i)) s.

Definition slice_to (s : string) (i : Z) : string := slice s 0 i.

Definition slice_from (s : string) (i : Z) : string :=
  slice s i (Z.of_nat (String.length s)).

Definition sep : ascii := "/"%char.
Definition extsep : ascii := "."%char.

(** [posixpath.join(a, b)]. *)
Definition os_path_join (a b : string) : string :=
  if startswith b "/" then b
  else if (a =? "") || endswith a sep then a ++ b
  else a ++ "/" ++ b.

(** The loop of [genericpath._splitext] that skips the leading dots of the
    last path component: [n] iterations remain, [filenameIndex] is the loop
    variable.  [Some r] is the [return] inside the loop, [None] is falling
    out of it. *)
Fixpoint skip_leading_dots (p : string) (dotIndex filenameIndex : Z) (n : nat)
  : option (string * string) :=
  match n with
  | O => None
  | S n' =>
      if negb (slice p filenameIndex (filenameIndex + 1) =? String extsep "")
      then Some (slice_to p dotIndex, slice_from p dotIndex)
      else skip_leading_dots p dotIndex (filenameIndex + 1) n'
  end.

(** [posixpath.splitext(p)], that is [genericpath._splitext(p, '/', None, '.')]. *)
Definition os_path_splitext (p : string) : string * string :=
  let sepIndex := rfind p sep in
  let dotIndex := rfind p extsep in
  let fallthrough := (p, slice_to p 0) in
  if (sepIndex <? dotIndex)%Z then
    let filenameIndex := (sepIndex + 1)%Z in
    match skip_leading_dots p dotIndex filenameIndex
            (Z.to_nat (dotIndex - filenameIndex)) with
    | Some r => r
    | None => fallthrough
    end
  else fallthrough.

(** The components of a path: the pieces between separators. *)
Fixpoint split_sep (s : string) : list string :=
  match s with
  | EmptyString => [""]
  | String a r =>
      if Ascii.eqb a sep then "" :: split_sep r
      else match split_sep r with
           | h :: t => String a h :: t
           | [] => [String a ""]
           end
  end.

End PyStr.

Import PyStr.

(* ===================================================================== *)
(** ** Effects: state and exceptions *)
(* ===================================================================== *)

(** The exceptions of the library calls.  All of them are [OSError]s in
    Python; [ShutilError] is [shutil.Error]. *)
Inductive exn : Type :=
| FileNotFoundError
| NotADirectoryError
| IsADirectoryError
| FileExistsError
| PermissionError
| OtherOSError
| SameFileError
| ShutilError.

Inductive result (A : Type) : Type :=
| Ok (a : A)
| Raise (e : exn).
Arguments Ok {A} a.
Arguments Raise {A} e.

(** A computation over a world [W]: it returns a value or raises, and in
    both cases leaves a world behind.  A raised exception does not restore
    the world the computation started from. *)
Definition M (W A : Type) : Type := W -> result A * W.

Definition ret {W A} (a : A) : M W A := fun w => (Ok a, w).

Definition raise {W A} (e : exn) : M W A := fun w => (Raise e, w).

Definition bind {W A B} (c : M W A) (k : A -> M W B) : M W B :=
  fun w =>
    match c w with
    | (Ok a, w') => k a w'
    | (Raise e, w') => (Raise e, w')
    end.

(** Reading the world. *)
Definition gets {W A} (f : W -> A) : M W A := fun w => (Ok (f w), w).

(** [try: c  except OSError: h] *)
Definition try_except {W A} (c : M W A) (h : exn -> M W A) : M W A :=
  fun w =>
    match c w with
    | (Ok a, w') => (Ok a, w')
    | (Raise e, w') => h e w'
    end.

Declare Scope monad_scope.
Delimit Scope monad_scope with monad.
Notation "x <- c ;; k" := (bind c (fun x => k))
  (at level 61, c at next level, right associativity) : monad_scope.
Notation "c ;; k" := (bind c (fun _ => k))
  (at level 61, right associativity) : monad_scope.
Local Open Scope monad_scope.

(** [for x in xs: body(x)] *)
Fixpoint for_each {W A} (body : A -> M W unit) (xs : list A) : M W unit :=
  match xs with
  | [] => ret tt
  | x :: xs' => body x ;; for_each body xs'
  end.

(** A loop that threads a local variable [acc] through its body. *)
Fixpoint for_fold {W A S} (body : S -> A -> M W S) (acc : S) (xs : list A)
  : M W S :=
  match xs with
  | [] => ret acc
  | x :: xs' => acc' <- body acc x ;; for_fold body acc' xs'
  end.

(* ===================================================================== *)
(** ** The script *)
(* ===================================================================== *)

(** The library calls of the script that touch the outside world.
    [os.path.isdir] and [os.path.exists] never raise and change nothing. *)
Class OS (W : Type) : Type := {
  os_listdir : string -> M W (list string);
  os_path_isdir : string -> W -> bool;
  os_path_exists : string -> W -> bool;
  (** [os.makedirs(name, exist_ok=True)] *)
  os_makedirs : string -> M W unit;
  (** [shutil.move(src, dst)]; the script ignores the returned path. *)
  shutil_move : string -> string -> M W unit;
  print : string -> M W unit
}.

Module Organizer.

(** [file_map = defaultdict(list)]: a dict keeps its keys in insertion
    order, which is the order the two later loops run in. *)
Definition file_map_t : Type := list (string * list string).

(** [file_map[base_name].append(item)] *)
Fixpoint file_map_append (base_name item : string) (file_map : file_map_t)
  : file_map_t :=
  match file_map with
  | [] => [(base_name, [item])]
  | (k, files) :: rest =>
      if k =? base_name then (k, files ++ [item]) :: rest
      else (k, files) :: file_map_append base_name item rest
  end.

(** [file_map.keys()] *)
Definition keys (file_map : file_map_t) : list string := map fst file_map.

(** [folders = set()] and [folders.add(item)]. *)
Definition folders_t : Type := list string.

Definition folders_add (item : string) (folders : folders_t) : folders_t :=
  if existsb (String.eqb item) folders then folders else folders ++ [item].

Section Script.

Context {W : Type} {os : OS W}.

(** The body of the loop of step 1. *)
Definition scan_item (directory : string) (st : file_map_t * folders_t)
  (item : string) : M W (file_map_t * folders_t) :=
  let '(file_map, folders) := st in
  let item_path := os_path_join directory item in
  if startswith item "." then ret (file_map, folders)
  else
    d <- gets (os_path_isdir item_path) ;;
    if d then ret (file_map, folders_add item folders)
    else
      let base_name := fst (os_path_splitext item) in
      ret (file_map_append base_name item file_map, folders).

(** Step 1: scan all file and folder names. *)
Definition scan (directory : string) (items : list string)
  : M W (file_map_t * folders_t) :=
  for_fold (scan_item directory) ([], []) items.

(** The body of the loop of step 2. *)
Definition create_folder (directory base_name : string) : M W unit :=
  let subdirectory := os_path_join directory base_name in
  e <- gets (os_path_exists subdirectory) ;;
  if negb e then
    os_makedirs subdirectory ;;
    print ("Created folder: " ++ subdirectory)
  else ret tt.

(** Step 2: create folders for each unique base name if not already
    present. *)
Definition create_folders (directory : string) (file_map : file_map_t)
  : M W unit :=
  for_each (create_folder directory) (keys file_map).

(** The body of the inner loop of step 3. *)
Definition move_file (directory target_folder file_name : string) : M W unit :=
  let source_path := os_path_join directory file_name in
  let destination_path := os_path_join target_folder file_name in
  shutil_move source_path destination_path ;;
  print ("Moved " ++ source_path ++ " to " ++ destination_path).

(** The body of the outer loop of step 3. *)
Definition move_group (directory : string) (group : string * list string)
  : M W unit :=
  let '(base_name, files) := group in
  let target_folder := os_path_join directory base_name in
  for_each (move_file directory target_folder) files.

(** Step 3: move files with base names into their corresponding folders. *)
Definition move_files (directory : string) (file_map : file_map_t)
  : M W unit :=
  for_each (move_group directory) file_map.

(** [def create_and_move_files(directory='.')] with the argument given. *)
Definition create_and_move_files (directory : string) : M W unit :=
  items <- os_listdir directory ;;
  st <- scan directory items ;;
  let '(file_map, folders) := st in
  create_folders directory file_map ;;
  move_files directory file_map.

(** The default value of the parameter. *)
Definition default_directory : string := ".".

(** [if __name__ == '__main__': create_and_move_files()].  The process
    arguments [argv] are [sys.argv[1:]]; the script does not read them. *)
Definition main (argv : list string) : M W unit :=
  create_and_move_files default_directory.

End Script.

End Organizer.

Import Organizer.

(* ===================================================================== *)
(** ** A model of the file system *)
(* ===================================================================== *)

Module Posix.

(** A directory tree of regular files and directories (no symbolic or
    hard links, no permissions).  A directory keeps its entries in the
    order [os.listdir] reports them, which is arbitrary. *)
#[warnings="-register-all"] Inductive node : Type :=
| File (data : string)
| Dir (entries : list (string * node)).

(** A resolved path: the names from the root down. *)
Definition path : Type := list string.

Fixpoint assoc {A} (k : string) (l : list (string * A)) : option A :=
  match l with
  | [] => None
  | (k', v) :: l' => if k' =? k then Some v else assoc k l'
  end.

(** Replace the binding of [k], or add one at the end. *)
Fixpoint assoc_set {A} (k : string) (v : A) (l : list (string * A))
  : list (string * A) :=
  match l with
  | [] => [(k, v)]
  | (k', v') :: l' =>
      if k' =? k then (k', v) :: l' else (k', v') :: assoc_set k v l'
  end.

Fixpoint assoc_del {A} (k : string) (l : list (string * A))
  : list (string * A) :=
  match l with
  | [] => []
  | (k', v') :: l' =>
      if k' =? k then assoc_del k l' else (k', v') :: assoc_del k l'
  end.

(** The node a resolved path leads to. *)
Fixpoint lookup (n : node) (p : path) : option node :=
  match p with
  | [] => Some n
  | c :: p' =>
      match n with
      | Dir es =>
          match assoc c es with
          | Some m => lookup m p'
          | None => None
          end
      | File _ => None
      end
  end.

(** Put [v] at path [p] ([None] removes the entry).  The parent of [p]
    has to be a directory; the root itself cannot be replaced. *)
Fixpoint alter (n : node) (p : path) (v : option node) : option node :=
  match n, p with
  | Dir es, [c] =>
      Some (Dir (match v with
                 | Some m => assoc_set c m es
                 | None => assoc_del c es
                 end))
  | Dir es, c :: p' =>
      match assoc c es with
      | Some m =>
          match alter m p' v with
          | Some m' => Some (Dir (assoc_set c m' es))
          | None => None
          end
      | None => None
      end
  | _, _ => None
  end.

Definition is_dir (o : option node) : bool :=
  match o with Some (Dir _) => true | _ => false end.

Definition is_some {A} (o : option A) : bool :=
  match o with Some _ => true | None => false end.

Fixpoint path_eqb (p q : path) : bool :=
  match p, q with
  | [], [] => true
  | a :: p', b :: q' => (a =? b) && path_eqb p' q'
  | _, _ => false
  end.

(** [p] is a prefix of [q]. *)
Fixpoint is_prefix (p q : path) : bool :=
  match p, q with
  | [], _ => true
  | a :: p', b :: q' => (a =? b) && is_prefix p' q'
  | _ :: _, [] => false
  end.

(** The mutating library calls of the script, as they were made. *)
Inductive call : Type :=
| Makedirs (name : string)
| Move (src dst : string).

Record world : Type := mkWorld {
  root : node;
  cwd : path;
  stdout : list string;
  calls : list call
}.

Definition set_root (r : node) (w : world) : world :=
  mkWorld r (cwd w) (stdout w) (calls w).

Definition log_call (c : call) : M world unit :=
  fun w => (Ok tt, mkWorld (root w) (cwd w) (stdout w) (calls w ++ [c])).

(** *** Path resolution *)

Definition is_dot (c : string) : bool := (c =? "") || (c =? ".").

(** Follow the components [comps] from the directory [acc].  An empty
    component, [.] and [..] need the path so far to be a directory; a
    name is appended, and whether it exists is for the caller. *)
Fixpoint walk (r : node) (acc : path) (comps : list string) : option path :=
  match comps with
  | [] => Some acc
  | c :: cs =>
      if is_dot c then
        if is_dir (lookup r acc) then walk r acc cs else None
      else if c =? ".." then
        if is_dir (lookup r acc) then walk r (removelast acc) cs else None
      else walk r (acc ++ [c]) cs
  end.

(** The resolved path of a path string: relative to the working
    directory unless it starts with a separator.  The empty string is not
    a path. *)
Definition resolve (w : world) (s : string) : option path :=
  if s =? "" then None
  else walk (root w) (if startswith s "/" then [] else cwd w) (split_sep s).

Definition node_at (w : world) (s : string) : option node :=
  match resolve w s with
  | Some p => lookup (root w) p
  | None => None
  end.

(** The error of a path whose parent is [parent]. *)
Definition parent_error (parent : option node) : exn :=
  match parent with
  | Some (File _) => NotADirectoryError
  | _ => FileNotFoundError
  end.

(** The error of a path that leads to no directory: the components are
    followed from [acc]; a regular file on the way, or at the end, is
    not a directory, whatever follows it, and a name that a directory
    does not have is not found. *)
Fixpoint walk_error (r : node) (acc : path) (comps : list string) : exn :=
  match comps with
  | [] => parent_error (lookup r acc)
  | c :: cs =>
      if is_dir (lookup r acc) then
        if is_dot c then walk_error r acc cs
        else if c =? ".." then walk_error r (removelast acc) cs
        else walk_error r (acc ++ [c]) cs
      else parent_error (lookup r acc)
  end.

Definition resolve_error (w : world) (s : string) : exn :=
  if s =? "" then FileNotFoundError
  else walk_error (root w) (if startswith s "/" then [] else cwd w) (split_sep s).

(** *** The library calls *)

(** [os.listdir(s)]: the names of a directory; a path that runs through
    a regular file, or ends in one, raises [NotADirectoryError], and a
    path with a missing component [FileNotFoundError]. *)
Definition listdir (s : string) : M world (list string) :=
  fun w =>
    match node_at w s with
    | Some (Dir es) => (Ok (map fst es), w)
    | _ => (Raise (resolve_error w s), w)
    end.

Definition isdir (s : string) (w : world) : bool := is_dir (node_at w s).

Definition exists_ (s : string) (w : world) : bool := is_some (node_at w s).

(** [os.makedirs(name, exist_ok=True)], on the components of [name]:
    every missing directory on the way is created, an existing directory
    is accepted, and a regular file in the way raises: [FileExistsError]
    when it is the end of the path, trailing separators apart, and
    [NotADirectoryError] when a component follows it, be it [.].  The
    directories created before an error stay. *)
Fixpoint mkdirs (r : node) (acc : path) (comps : list string)
  : result unit * node :=
  match comps with
  | [] => (Ok tt, r)
  | c :: cs =>
      if is_dot c then
        if is_dir (lookup r acc) then mkdirs r acc cs
        else (Raise (parent_error (lookup r acc)), r)
      else if c =? ".." then
        if is_dir (lookup r acc) then mkdirs r (removelast acc) cs
        else (Raise (parent_error (lookup r acc)), r)
      else
        match lookup r (acc ++ [c]) with
        | Some (Dir _) => mkdirs r (acc ++ [c]) cs
        | Some (File _) =>
            (Raise (if forallb (String.eqb "") cs then FileExistsError
                    else NotADirectoryError), r)
        | None =>
            match alter r (acc ++ [c]) (Some (Dir [])) with
            | Some r' => mkdirs r' (acc ++ [c]) cs
            | None => (Raise (parent_error (lookup r acc)), r)
            end
        end
  end.

Definition makedirs (name : string) : M world unit :=
  log_call (Makedirs name) ;;
  fun w =>
    if name =? "" then (Raise FileNotFoundError, w)
    else
      let '(res, r') :=
        mkdirs (root w) (if startswith name "/" then [] else cwd w)
          (split_sep name) in
      (res, set_root r' w).

Definition is_root (p : path) : bool :=
  match p with [] => true | _ :: _ => false end.

(** [os.rename(src, dst)]: a regular file replaces a regular file, a
    directory replaces an empty directory; renaming a path to itself does
    nothing. *)
Definition rename (src dst : string) : M world unit :=
  fun w =>
    match resolve w src, resolve w dst with
    | Some ps, Some pd =>
        match lookup (root w) ps with
        | None => (Raise FileNotFoundError, w)
        | Some n =>
            let parent := lookup (root w) (removelast pd) in
            if path_eqb ps pd then (Ok tt, w)
            else if is_root ps || is_root pd then (Raise OtherOSError, w)
            else if negb (is_dir parent) then (Raise (parent_error parent), w)
            else
              match n, lookup (root w) pd with
              | File _, Some (Dir _) => (Raise IsADirectoryError, w)
              | Dir _, Some (File _) => (Raise NotADirectoryError, w)
              | Dir _, Some (Dir (_ :: _)) => (Raise OtherOSError, w)
              | _, _ =>
                  if is_prefix ps pd then (Raise OtherOSError, w)
                  else
                    match alter (root w) ps None with
                    | Some r1 =>
                        match alter r1 pd (Some n) with
                        | Some r2 => (Ok tt, set_root r2 w)
                        | None => (Raise OtherOSError, w)
                        end
                    | None => (Raise OtherOSError, w)
                    end
              end
        end
    | _, _ => (Raise FileNotFoundError, w)
    end.

(** [os.path.samefile(src, dst)] inside [shutil._samefile], which turns
    an [OSError] into [False]. *)
Definition samefile (src dst : string) (w : world) : bool :=
  match resolve w src, resolve w dst with
  | Some ps, Some pd =>
      is_some (lookup (root w) ps) && is_some (lookup (root w) pd)
      && path_eqb ps pd
  | _, _ => false
  end.

(** [shutil._basename(path)]: the last component, trailing separators
    ignored. *)
Definition basename (s : string) : string :=
  last (filter (fun c => negb (c =? "")) (split_sep s)) "".

(** [os.path.basename(path)]: what follows the last separator. *)
Definition os_path_basename (s : string) : string := last (split_sep s) "".

(** [shutil.copyfile(src, dst)]: the content of the regular file [src]
    is written to [dst], which is made or overwritten. *)
Definition copyfile (src dst : string) : M world unit :=
  fun w =>
    if samefile src dst w then (Raise SameFileError, w)
    else
      match resolve w src, resolve w dst with
      | Some ps, Some pd =>
          match lookup (root w) ps with
          | None => (Raise FileNotFoundError, w)
          | Some (Dir _) => (Raise IsADirectoryError, w)
          | Some (File data) =>
              match lookup (root w) pd with
              | Some (Dir _) => (Raise IsADirectoryError, w)
              | _ =>
                  let parent := lookup (root w) (removelast pd) in
                  if negb (is_root pd) && is_dir parent then
                    match alter (root w) pd (Some (File data)) with
                    | Some r' => (Ok tt, set_root r' w)
                    | None => (Raise OtherOSError, w)
                    end
                  else (Raise (parent_error parent), w)
              end
          end
      | _, _ => (Raise FileNotFoundError, w)
      end.

(** [shutil.copy2(src, dst)] *)
Definition copy2 (src dst : string) : M world unit :=
  d <- gets (isdir dst) ;;
  if d then copyfile src (os_path_join dst (os_path_basename src))
  else copyfile src dst.

(** [os.unlink(src)] *)
Definition unlink (src : string) : M world unit :=
  fun w =>
    match resolve w src with
    | Some ps =>
        match lookup (root w) ps with
        | Some (File _) =>
            match alter (root w) ps None with
            | Some r' => (Ok tt, set_root r' w)
            | None => (Raise OtherOSError, w)
            end
        | Some (Dir _) => (Raise IsADirectoryError, w)
        | None => (Raise FileNotFoundError, w)
        end
    | None => (Raise FileNotFoundError, w)
    end.

(** [shutil.copytree(src, dst)] followed by [shutil.rmtree(src)], the
    way [shutil.move] moves a directory that [os.rename] refused:
    [copytree] makes [dst] and its missing parents with [os.makedirs]
    (without [exist_ok], so an existing [dst] raises) and fills it. *)
Definition copytree_rmtree (src dst : string) : M world unit :=
  fun w =>
    match resolve w src, resolve w dst with
    | Some ps, Some pd =>
        match lookup (root w) ps, lookup (root w) pd with
        | Some (Dir es), None =>
            if dst =? "" then (Raise FileNotFoundError, w)
            else
              match mkdirs (root w) (if startswith dst "/" then [] else cwd w)
                      (split_sep dst) with
              | (Ok _, r1) =>
                  match alter r1 pd (Some (Dir es)) with
                  | Some r2 =>
                      match alter r2 ps None with
                      | Some r3 => (Ok tt, set_root r3 w)
                      | None => (Raise OtherOSError, set_root r2 w)
                      end
                  | None => (Raise OtherOSError, set_root r1 w)
                  end
              | (Raise e, r1) => (Raise e, set_root r1 w)
              end
        | Some (Dir _), Some _ => (Raise FileExistsError, w)
        | Some (File _), _ => (Raise NotADirectoryError, w)
        | None, _ => (Raise FileNotFoundError, w)
        end
    | _, _ => (Raise FileNotFoundError, w)
    end.

(** [shutil._destinsrc(src, dst)] *)
Definition destinsrc (src dst : string) (w : world) : bool :=
  match resolve w src, resolve w dst with
  | Some ps, Some pd => is_prefix ps pd
  | _, _ => false
  end.

(** The second half of [shutil.move]: [os.rename], and when it raises an
    [OSError], copying and deleting. *)
Definition rename_or_copy (src dst real_dst : string) : M world unit :=
  try_except (rename src real_dst)
    (fun _ =>
       sd <- gets (isdir src) ;;
       if sd then
         ins <- gets (destinsrc src dst) ;;
         if ins then raise ShutilError
         else copytree_rmtree src real_dst
       else
         copy2 src real_dst ;;
         unlink src).

(** [shutil.move(src, dst)] *)
Definition move (src dst : string) : M world unit :=
  log_call (Move src dst) ;;
  d <- gets (isdir dst) ;;
  if d then
    same <- gets (samefile src dst) ;;
    if same then rename src dst
    else
      let real_dst := os_path_join dst (basename src) in
      e <- gets (exists_ real_dst) ;;
      if e then raise ShutilError
      else rename_or_copy src dst real_dst
  else rename_or_copy src dst dst.

Definition write_line (line : string) : M world unit :=
  fun w => (Ok tt, mkWorld (root w) (cwd w) (stdout w ++ [line]) (calls w)).

#[export] Instance posix : OS world := {
  os_listdir := listdir;
  os_path_isdir := isdir;
  os_path_exists := exists_;
  os_makedirs := makedirs;
  shutil_move := move;
  print := write_line
}.

End Posix.

Import Posix.

(* ===================================================================== *)
(** ** Notions used in the statements *)
(* ===================================================================== *)

(** A hidden entry: its name starts with a dot. *)
Definition hidden (name : string) : bool := startswith name ".".

(** The names a directory can hold: not empty, without a separator, and
    neither [.] nor [..]. *)
Definition valid_name (name : string) : bool :=
  negb (name =? "") && negb (contains name sep)
  && negb (name =? ".") && negb (name =? "..").

(** The stem of a file name, as step 1 computes it. *)
Definition stem (name : string) : string := fst (os_path_splitext name).

(** The moves of step 3 in the order they are made: the pairs of a base
    name and a file of its group. *)
Definition moves (file_map : file_map_t) : list (string * string) :=
  flat_map (fun g => map (pair (fst g)) (snd g)) file_map.

(** One move of step 3. *)
Definition move_one {W} {os : OS W} (directory : string)
  (m : string * string) : M W unit :=
  move_file directory (os_path_join directory (fst m)) (snd m).

(** What the body of the loop of step 1 does with one entry, as a
    function of the world it runs in. *)
Definition classify {W} {os : OS W} (directory : string) (w : W)
  (st : file_map_t * folders_t) (item : string) : file_map_t * folders_t :=
  if hidden item then st
  else if os_path_isdir (os_path_join directory item) w
       then (fst st, folders_add item (snd st))
       else (file_map_append (stem item) item (fst st), snd st).

(** The grouping step 1 arrives at in the world [w]. *)
Definition scan_result {W} {os : OS W} (directory : string) (w : W)
  (items : list string) : file_map_t * folders_t :=
  fold_left (classify directory w) items ([], []).

(** The target directory of a run: [directory] resolves to [p], and [p]
    is a directory. *)
Definition at_dir (directory : string) (p : path) (w : world) : Prop :=
  resolve w directory = Some p /\ is_dir (lookup (root w) p) = true.

(** Where [shutil.move] puts the file [f] of the group [B] of the
    directory [p]: into the folder [B]; into [B/f] when that is a
    directory; nowhere when the place is taken or there is no folder. *)
Definition move_dest (r : node) (p : path) (B f : string) : option path :=
  if is_dir (lookup r (p ++ [B; f])) then
    if is_some (lookup r (p ++ [B; f; f])) then None
    else Some (p ++ [B; f; f])
  else if is_dir (lookup r (p ++ [B])) then Some (p ++ [B; f])
  else None.

(** The tree after the move of the regular file [f] of the group [B]. *)
Definition move_root (r : node) (p : path) (B f : string) : option node :=
  match lookup r (p ++ [f]), move_dest r p B f with
  | Some (File data), Some dest =>
      match alter r (p ++ [f]) None with
      | Some r1 => alter r1 dest (Some (File data))
      | None => None
      end
  | _, _ => None
  end.

(** The entries step 1 takes for files to move: not hidden, and not a
    directory. *)
Definition is_file_item {W} {os : OS W} (directory : string) (w : W)
  (item : string) : bool :=
  negb (hidden item) && negb (os_path_isdir (os_path_join directory item) w).

(** The names of a list are pairwise distinct. *)
Fixpoint distinct (l : list string) : bool :=
  match l with
  | [] => true
  | x :: l' => negb (existsb (String.eqb x) l') && distinct l'
  end.

(** The entries of a directory as a file system has them: valid names,
    no name twice. *)
Definition well_formed (es : list (string * node)) : bool :=
  forallb valid_name (map fst es) && distinct (map fst es).

(** The directory a run works on: [directory] resolves to [p], a
    directory with the well-formed entries [es]. *)
Definition target (directory : string) (p : path)
  (es : list (string * node)) (w : world) : Prop :=
  resolve w directory = Some p /\
  lookup (root w) p = Some (Dir es) /\
  well_formed es = true.

(** The file [f] of the group [B] has been moved, seen from the world
    [w0] the moves started in: it is gone from the directory [p] and lies
    in the folder [B], as [B/f], or as [B/f/f] when [B/f] is a directory. *)
Definition moved (p : path) (w0 w : world) (B f : string) : Prop :=
  exists data,
    lookup (root w0) (p ++ [f]) = Some (File data) /\
    lookup (root w) (p ++ [f]) = None /\
    (lookup (root w) (p ++ [B; f]) = Some (File data) \/
     lookup (root w) (p ++ [B; f; f]) = Some (File data)).

(** The place of the file [f] in the folder [B] is free for a move: if
    [B/f] is a directory, nothing is called [f] in it. *)
Definition free_place (r : node) (p : path) (B f : string) : bool :=
  if is_dir (lookup r (p ++ [B; f]))
  then negb (is_some (lookup r (p ++ [B; f; f])))
  else true.

(** The world [w] is one that the moves started in [w0] can be in: the
    target directory is where it was, and the same entries of it are
    directories. *)
Definition moving (d : string) (p : path) (w0 w : world) : Prop :=
  at_dir d p w /\ cwd w = cwd w0 /\
  forall x, is_dir (lookup (root w) (p ++ [x])) =
            is_dir (lookup (root w0) (p ++ [x])).

(** A run that raised [e] and left the world [w'] stopped at its first
    fault: the fault is that of the listing, or of the creation of one
    folder after the folders before it were dealt with, or of one move
    after all the folders and the moves before it; [w'] is the world that
    failing step left, and nothing ran after it. *)
Definition aborted {W} {os : OS W} (directory : string) (w : W) (e : exn)
  (w' : W) : Prop :=
  os_listdir directory w = (Raise e, w')
  \/ exists items w1 file_map folders,
       os_listdir directory w = (Ok items, w1) /\
       scan directory items w1 = (Ok (file_map, folders), w1) /\
       ((exists done base_name rest w2,
           keys file_map = done ++ base_name :: rest /\
           for_each (create_folder directory) done w1 = (Ok tt, w2) /\
           create_folder directory base_name w2 = (Raise e, w'))
        \/ (exists w2 done m rest w3,
              create_folders directory file_map w1 = (Ok tt, w2) /\
              moves file_map = done ++ m :: rest /\
              for_each (move_one directory) done w2 = (Ok tt, w3) /\
              move_one directory m w3 = (Raise e, w'))).

(** All the orders a list can be in. *)
Fixpoint insert_all {A} (x : A) (l : list A) : list (list A) :=
  match l with
  | [] => [[x]]
  | y :: l' => (x :: l) :: map (cons y) (insert_all x l')
  end.

Fixpoint perms {A} (l : list A) : list (list A) :=
  match l with
  | [] => [[]]
  | x :: l' => flat_map (insert_all x) (perms l')
  end.

(** *** The worlds of the examples *)

(** A home directory, the working directory, with the entries [es]. *)
Definition home (es : list (string * node)) : world :=
  mkWorld (Dir [("home", Dir es)]) ["home"] [] [].

(** A directory whose only entry is a file without an extension. *)
Definition readme_world : world := home [("README", File "read me")].

(** The directory of the end-to-end scenario, its entries in some order. *)
Definition scenario_entries (txt csv log : string)
  (sub : list (string * node)) : list (string * node) :=
  [("a.txt", File txt); ("a.csv", File csv); ("b.log", File log);
   ("existing", Dir sub)].

(** A directory with a hidden file, a hidden folder and a folder [a]
    that is there before the run. *)
Definition mixed_entries : list (string * node) :=
  [(".profile", File "export"); ("a.txt", File "1");
   (".git", Dir [("config", File "core")]);
   ("a", Dir [("old.txt", File "0")]); ("a.csv", File "2");
   ("archive.tar.gz", File "3")].

Definition mixed_world : world := home mixed_entries.

(** A directory with a file that has an extension and, listed after it,
    a file that has none. *)
Definition stray_entries : list (string * node) :=
  [("a.txt", File "1"); ("b", File "2")].

Definition stray_world : world := home stray_entries.

(** A working directory [/work] with a file and a folder [other] that
    holds another file. *)
Definition two_directories : world :=
  mkWorld (Dir [("work", Dir [("a.txt", File "1");
                              ("other", Dir [("b.txt", File "2")])])])
    ["work"] [] [].

(** *** Notions of the further properties *)

(** The files of the names [names] whose stem is [B], in their order. *)
Definition group (B : string) (names : list string) : list string :=
  filter (fun f => stem f =? B) names.

(** The grouping so far: distinct keys, each with the files of its stem
    among the names seen, in their order, and a key for every name seen. *)
Definition grouped (fm : file_map_t) (seen : list string) : Prop :=
  NoDup (keys fm) /\
  (forall B files, In (B, files) fm -> files <> [] /\ files = group B seen) /\
  (forall f, In f seen -> In (stem f) (keys fm)).

(** The base name [B] is free in the directory [p]. *)
Definition absent (p : path) (w : world) (B : string) : bool :=
  negb (is_some (lookup (root w) (p ++ [B]))).

(** The call step 2 makes for a base name, and the line it prints. *)
Definition makedirs_call (directory B : string) : call :=
  Makedirs (os_path_join directory B).

Definition created_line (directory B : string) : string :=
  "Created folder: " ++ os_path_join directory B.

(** The call step 3 makes for a move, and the line it prints. *)
Definition move_call (directory : string) (m : string * string) : call :=
  Move (os_path_join directory (snd m))
       (os_path_join (os_path_join directory (fst m)) (snd m)).

Definition moved_line (directory : string) (m : string * string) : string :=
  "Moved " ++ os_path_join directory (snd m) ++ " to "
  ++ os_path_join (os_path_join directory (fst m)) (snd m).

(** A file [a.txt] and a folder [a] that holds a regular file [a/a.txt]
    of other content, and a file [a/b.txt]. *)
Definition overwrite_entries : list (string * node) :=
  [("a.txt", File "new"); ("a", Dir [("a.txt", File "old"); ("b.txt", File "kept")])].

Definition overwrite_world : world := home overwrite_entries.

(** A folder [a] in which [a.txt] is a directory that holds an entry
    [a.txt]. *)
Definition collision_entries : list (string * node) :=
  [("a.txt", File "new");
   ("a", Dir [("a.txt", Dir [("a.txt", File "old")])])].

Definition collision_world : world := home collision_entries.

(** A directory beside another one, [/home] beside [/srv]. *)
Definition beside_world : world :=
  mkWorld (Dir [("home", Dir [("a.txt", File "1"); ("docs", Dir [("x", File "2")])]);
                ("srv", Dir [("a.txt", File "3")])])
    ["home"] [] [].

(** A file [a.txt] beside a regular file [a], the name of its stem. *)
Definition clash_entries : list (string * node) :=
  [("a.txt", File "1"); ("a", File "0")].

Definition clash_world : world := home clash_entries.

(** A directory that holds only a hidden file and a folder. *)
Definition settled_entries : list (string * node) :=
  [(".profile", File "export"); ("a", Dir [("a.txt", File "1")])].

Definition settled_world : world := home settled_entries.

(** The names of a list in the order of their first appearance, each
    once. *)
Definition first_seen (l : list string) : list string :=
  rev (nodup string_dec (rev l)).

(* ===================================================================== *)
(** ** Properties of the string functions *)
(* ===================================================================== *)

(** Splitting a conjunction, but not the predicates defined as one. *)
Ltac splits := repeat match goal with |- _ /\ _ => split end.

Section StringFacts.

Local Open Scope string_scope.

Lemma append_nil_r (s : string) : s ++ "" = s.
Proof. induction s as [|a s IH]; simpl; congruence. Qed.

Lemma append_assoc (a b c : string) : (a ++ b) ++ c = a ++ (b ++ c).
Proof. induction a as [|x a IH]; simpl; congruence. Qed.

Lemma append_inv_head (a b c : string) : a ++ b = a ++ c -> b = c.
Proof. induction a as [|x a IH]; simpl; intros E; [assumption|]. injection E; auto. Qed.

Lemma length_append (a b : string) :
  String.length (a ++ b) = (String.length a + String.length b)%nat.
Proof. induction a as [|x a IH]; simpl; congruence. Qed.

Lemma contains_append (a b : string) (c : ascii) :
  contains (a ++ b) c = contains a c || contains b c.
Proof.
  induction a as [|x a IH]; simpl; [reflexivity|].
  rewrite IH. apply orb_assoc.
Qed.

Lemma substring_prefix (a b : string) :
  substring 0 (String.length a) (a ++ b) = a.
Proof.
  induction a as [|x a IH]; simpl.
  - destruct b; reflexivity.
  - now rewrite IH.
Qed.

Lemma rfind_from_absent (s : string) (c : ascii) (i last : Z) :
  contains s c = false -> rfind_from s c i last = last.
Proof.
  revert i last. induction s as [|a s IH]; simpl; intros i last H; [reflexivity|].
  apply orb_false_iff in H. destruct H as [Ha Hs].
  rewrite Ha. now apply IH.
Qed.

Lemma rfind_from_last (a b : string) (c : ascii) (i last : Z) :
  contains b c = false ->
  rfind_from (a ++ String c b) c i last = (i + Z.of_nat (String.length a))%Z.
Proof.
  revert i last. induction a as [|x a IH]; simpl String.length; intros i last H.
  - simpl. rewrite Ascii.eqb_refl. rewrite rfind_from_absent by assumption. lia.
  - cbn [append rfind_from]. rewrite IH by assumption. lia.
Qed.

Lemma startswith_cons (x c : ascii) (r : string) :
  startswith (String x r) (String c "") = Ascii.eqb c x.
Proof.
  unfold startswith. cbn [prefix].
  destruct (ascii_dec c x) as [->|Hne].
  - rewrite Ascii.eqb_refl. destruct r; reflexivity.
  - symmetry. now apply Ascii.eqb_neq.
Qed.

Lemma startswith_nil (c : ascii) : startswith "" (String c "") = false.
Proof. reflexivity. Qed.

Lemma substring_suffix (a b : string) :
  substring (String.length a) (String.length b) (a ++ b) = b.
Proof.
  induction a as [|y a IH]; simpl; [|exact IH].
  rewrite <- (append_nil_r b) at 2. apply substring_prefix.
Qed.

(** The first component of [os.path.splitext] on a name without a
    separator whose first character is not a dot: everything before the
    last dot. *)
Lemma splitext_last_dot (stem seg : string) :
  startswith (stem ++ "." ++ seg) "." = false ->
  contains (stem ++ "." ++ seg) sep = false ->
  contains seg extsep = false ->
  os_path_splitext (stem ++ "." ++ seg) = (stem, "." ++ seg).
Proof.
  intros Hh Hs Hd.
  unfold os_path_splitext, rfind.
  rewrite (rfind_from_absent _ sep) by assumption.
  change (stem ++ "." ++ seg) with (stem ++ String extsep seg) in *.
  rewrite rfind_from_last by assumption.
  destruct stem as [|x stem].
  - cbn [append] in Hh. rewrite startswith_cons in Hh. discriminate.
  - cbn [append] in Hh. rewrite startswith_cons in Hh.
    assert (Hlt : (-1 <? 0 + Z.of_nat (String.length (String x stem)))%Z = true)
      by (apply Z.ltb_lt; lia).
    rewrite Hlt.
    replace (Z.to_nat (0 + Z.of_nat (String.length (String x stem)) - (-1 + 1)))
      with (S (String.length stem)) by (simpl String.length; lia).
    cbn [skip_leading_dots].
    assert (Hx : negb (slice (String x stem ++ String extsep seg) (-1 + 1) (-1 + 1 + 1)
                       =? String extsep "") = true).
    { unfold slice.
      change (Z.to_nat (-1 + 1)) with 0%nat.
      change (Z.to_nat (-1 + 1 + 1 - (-1 + 1))) with 1%nat.
      cbn [append substring].
      assert (E : substring 0 0 (stem ++ String extsep seg) = "")
        by (destruct (stem ++ String extsep seg); reflexivity).
      rewrite E. cbn [String.eqb]. rewrite Ascii.eqb_sym. unfold extsep.
      rewrite Hh. reflexivity. }
    rewrite Hx. f_equal.
    + unfold slice_to, slice.
      replace (Z.to_nat (0 + Z.of_nat (String.length (String x stem)) - 0))
        with (String.length (String x stem)) by lia.
      apply substring_prefix.
    + unfold slice_from, slice.
      rewrite length_append.
      replace (Z.to_nat (0 + Z.of_nat (String.length (String x stem))))
        with (String.length (String x stem)) by lia.
      match goal with |- substring _ ?n _ = _ =>
        replace n with (String.length (String extsep seg)) by (simpl String.length; lia) end.
      apply substring_suffix.
Qed.

Lemma rfind_from_lower (s : string) (c : ascii) (i last : Z) :
  (last <= i)%Z -> (last <= rfind_from s c i last)%Z.
Proof.
  revert i last. induction s as [|a s IH]; simpl; intros i last H; [lia|].
  destruct (Ascii.eqb a c).
  - specialize (IH (i + 1)%Z i). lia.
  - apply IH. lia.
Qed.

(** A name without a dot is its own stem. *)
Lemma splitext_no_dot (name : string) :
  contains name extsep = false ->
  os_path_splitext name = (name, "").
Proof.
  intros H. unfold os_path_splitext, rfind.
  rewrite (rfind_from_absent _ extsep) by assumption.
  assert (Hge : (-1 <= rfind_from name sep 0 (-1))%Z)
    by (apply rfind_from_lower; lia).
  assert (Hlt : (rfind_from name sep 0 (-1) <? -1)%Z = false)
    by (apply Z.ltb_ge; lia).
  rewrite Hlt. unfold slice_to, slice. simpl.
  destruct name; reflexivity.
Qed.

Lemma startswith_append (a b : string) (c : ascii) :
  a <> "" -> startswith (a ++ b) (String c "") = startswith a (String c "").
Proof.
  destruct a as [|x a]; [congruence|]. intros _.
  cbn [append]. now rewrite !startswith_cons.
Qed.

Lemma endswith_inv (s : string) (c : ascii) :
  endswith s c = true -> exists s', s = s' ++ String c "".
Proof.
  induction s as [|a s IH]; [discriminate|].
  destruct s as [|b s].
  - simpl. intros H. apply Ascii.eqb_eq in H. subst. now exists "".
  - intros H. change (endswith (String b s) c = true) in H.
    destruct (IH H) as [s' E]. exists (String a s'). cbn [append]. now rewrite <- E.
Qed.

Lemma split_sep_not_nil (s : string) : split_sep s <> [].
Proof.
  destruct s as [|a s]; simpl; [discriminate|].
  destruct (Ascii.eqb a sep); [discriminate|].
  destruct (split_sep s); discriminate.
Qed.

Lemma split_sep_single (n : string) :
  contains n sep = false -> split_sep n = [n].
Proof.
  induction n as [|a n IH]; simpl; [reflexivity|].
  intros H. apply orb_false_iff in H. destruct H as [Ha Hn].
  rewrite Ha, (IH Hn). reflexivity.
Qed.

Lemma split_sep_append (a b : string) :
  split_sep (a ++ String sep b) = (split_sep a ++ split_sep b)%list.
Proof.
  induction a as [|x a IH]; cbn [append split_sep].
  - rewrite Ascii.eqb_refl. reflexivity.
  - rewrite IH. destruct (Ascii.eqb x sep); [reflexivity|].
    pose proof (split_sep_not_nil a) as Hn.
    destruct (split_sep a); [congruence|reflexivity].
Qed.

Lemma valid_name_parts (n : string) :
  valid_name n = true ->
  n <> "" /\ contains n sep = false /\ is_dot n = false /\ (n =? "..") = false.
Proof.
  unfold valid_name, is_dot. intros H.
  repeat (apply andb_true_iff in H; destruct H as [H ?]).
  repeat match goal with
         | H : negb _ = true |- _ => apply negb_true_iff in H
         end.
  repeat split; try assumption.
  - now apply String.eqb_neq.
  - apply orb_false_iff. split; assumption.
Qed.

Lemma valid_name_not_abs (n : string) :
  valid_name n = true -> startswith n "/" = false.
Proof.
  intros H. destruct (valid_name_parts n H) as (Hne & Hs & _).
  destruct n as [|x n]; [congruence|].
  rewrite startswith_cons. simpl in Hs. apply orb_false_iff in Hs.
  rewrite Ascii.eqb_sym. apply Hs.
Qed.

(** [os.path.join] of a directory and an entry name. *)
Lemma join_valid (d n : string) :
  valid_name n = true ->
  os_path_join d n =
    if (d =? "") || endswith d sep then d ++ n else d ++ "/" ++ n.
Proof.
  intros H. unfold os_path_join. now rewrite valid_name_not_abs.
Qed.

Lemma join_inj (d n m : string) :
  valid_name n = true -> valid_name m = true ->
  os_path_join d n = os_path_join d m -> n = m.
Proof.
  intros Hn Hm. rewrite !join_valid by assumption.
  destruct ((d =? "") || endswith d sep); intros E.
  - now apply append_inv_head in E.
  - apply append_inv_head in E. now apply append_inv_head in E.
Qed.

End StringFacts.

(* ===================================================================== *)
(** ** Properties of the directory tree *)
(* ===================================================================== *)

Section TreeFacts.

Lemma assoc_set_same {A} (k : string) (v : A) (l : list (string * A)) :
  assoc k (assoc_set k v l) = Some v.
Proof.
  induction l as [|[k' v'] l IH]; simpl.
  - now rewrite String.eqb_refl.
  - destruct (k' =? k) eqn:E; simpl; rewrite E; [reflexivity|exact IH].
Qed.

Lemma assoc_set_other {A} (k k' : string) (v : A) (l : list (string * A)) :
  k' <> k -> assoc k' (assoc_set k v l) = assoc k' l.
Proof.
  intros Hne. induction l as [|[k0 v0] l IH]; simpl.
  - apply String.eqb_neq in Hne. rewrite String.eqb_sym in Hne. now rewrite Hne.
  - destruct (k0 =? k) eqn:E; simpl.
    + apply String.eqb_eq in E. subst k0.
      destruct (k =? k') eqn:E'; [|reflexivity].
      apply String.eqb_eq in E'. congruence.
    + now rewrite IH.
Qed.

Lemma assoc_del_same {A} (k : string) (l : list (string * A)) :
  assoc k (assoc_del k l) = None.
Proof.
  induction l as [|[k' v'] l IH]; simpl; [reflexivity|].
  destruct (k' =? k) eqn:E; simpl; [exact IH|]. now rewrite E.
Qed.

Lemma assoc_del_other {A} (k k' : string) (l : list (string * A)) :
  k' <> k -> assoc k' (assoc_del k l) = assoc k' l.
Proof.
  intros Hne. induction l as [|[k0 v0] l IH]; simpl; [reflexivity|].
  destruct (k0 =? k) eqn:E; simpl.
  - apply String.eqb_eq in E. subst k0.
    destruct (k =? k') eqn:E'; [|exact IH].
    apply String.eqb_eq in E'. congruence.
  - now rewrite IH.
Qed.

Lemma assoc_in {A} (k : string) (l : list (string * A)) :
  In k (map fst l) <-> assoc k l <> None.
Proof.
  induction l as [|[k' v'] l IH]; simpl.
  - split; [tauto|congruence].
  - destruct (String.eqb_spec k' k) as [->|Hne].
    + split; [congruence|auto].
    + rewrite <- IH. split; [intros [?|?]; [congruence|assumption]|auto].
Qed.

Lemma lookup_app (n : node) (p q : path) :
  lookup n (p ++ q) =
    match lookup n p with Some m => lookup m q | None => None end.
Proof.
  revert n. induction p as [|c p IH]; intros n; simpl; [reflexivity|].
  destruct n as [data|es]; [reflexivity|].
  destruct (assoc c es); [apply IH|reflexivity].
Qed.

Lemma lookup_file_below (n : node) (p s : path) (data : string) :
  lookup n p = Some (File data) -> s <> [] -> lookup n (p ++ s) = None.
Proof.
  intros H Hs. rewrite lookup_app, H. destruct s; [congruence|reflexivity].
Qed.

Lemma lookup_none_below (n : node) (p s : path) :
  lookup n p = None -> lookup n (p ++ s) = None.
Proof. intros H. now rewrite lookup_app, H. Qed.

Lemma is_prefix_spec (p q : path) :
  is_prefix p q = true <-> exists s, q = p ++ s.
Proof.
  revert q. induction p as [|a p IH]; intros q; simpl.
  - split; [intros _; now exists q|reflexivity].
  - destruct q as [|b q].
    + split; [discriminate|intros [s E]; discriminate].
    + rewrite andb_true_iff, String.eqb_eq, IH. split.
      * intros [-> [s ->]]. now exists s.
      * intros [s E]. injection E as -> ->. split; [reflexivity|now exists s].
Qed.

Lemma is_prefix_app (p s : path) : is_prefix p (p ++ s) = true.
Proof. apply is_prefix_spec. now exists s. Qed.

Lemma path_eqb_eq (p q : path) : path_eqb p q = true <-> p = q.
Proof.
  revert q. induction p as [|a p IH]; intros [|b q]; simpl;
    try (split; [discriminate|congruence]); [tauto|].
  rewrite andb_true_iff, String.eqb_eq, IH. split.
  - intros [-> ->]. reflexivity.
  - intros E. injection E as -> ->. auto.
Qed.

(** A directory leads to every path below which something exists. *)
Lemma lookup_prefix_dir (n : node) (p s : path) :
  lookup n (p ++ s) <> None -> s <> [] -> is_dir (lookup n p) = true.
Proof.
  rewrite lookup_app. intros H Hs.
  destruct (lookup n p) as [[data|es]|]; [|reflexivity|congruence].
  destruct s; [congruence|]. simpl in H. congruence.
Qed.

Lemma alter_single (es : list (string * node)) (c : string) (v : option node) :
  alter (Dir es) [c] v =
    Some (Dir (match v with
               | Some m => assoc_set c m es
               | None => assoc_del c es
               end)).
Proof. reflexivity. Qed.

Lemma alter_deeper (es : list (string * node)) (c c2 : string) (q : path)
  (v : option node) :
  alter (Dir es) (c :: c2 :: q) v =
    match assoc c es with
    | Some m =>
        match alter m (c2 :: q) v with
        | Some m' => Some (Dir (assoc_set c m' es))
        | None => None
        end
    | None => None
    end.
Proof. reflexivity. Qed.

(** What [alter] leaves at the altered path and below it. *)
Lemma alter_lookup_below (r r' : node) (q s : path) (v : option node) :
  alter r q v = Some r' ->
  lookup r' (q ++ s) =
    match v with Some m => lookup m s | None => None end.
Proof.
  revert r r'. induction q as [|c q IH]; intros r r' H.
  - destruct r; discriminate.
  - destruct r as [data|es]; [discriminate|].
    destruct q as [|c2 q].
    + rewrite alter_single in H. injection H as <-. cbn [app lookup].
      destruct v as [m|].
      * now rewrite assoc_set_same.
      * now rewrite assoc_del_same.
    + rewrite alter_deeper in H.
      destruct (assoc c es) as [m|]; [|discriminate].
      destruct (alter m (c2 :: q) v) as [m'|] eqn:Hm; [|discriminate].
      injection H as <-.
      change ((c :: c2 :: q) ++ s) with (c :: ((c2 :: q) ++ s)).
      cbn [lookup]. rewrite assoc_set_same. now apply IH with (r := m).
Qed.

Lemma alter_lookup_at (r r' : node) (q : path) (v : option node) :
  alter r q v = Some r' -> lookup r' q = v.
Proof.
  intros H. pose proof (alter_lookup_below r r' q [] v H) as E.
  rewrite app_nil_r in E. rewrite E. now destruct v.
Qed.

(** [alter] changes nothing at a path that is neither above nor below
    the altered one. *)
Lemma alter_lookup_apart (r r' : node) (q q' : path) (v : option node) :
  alter r q v = Some r' ->
  is_prefix q q' = false -> is_prefix q' q = false ->
  lookup r' q' = lookup r q'.
Proof.
  revert r r' q'. induction q as [|c q IH]; intros r r' q' H H1 H2.
  - destruct r; discriminate.
  - destruct r as [data|es]; [discriminate|].
    destruct q' as [|c' q']; [discriminate|].
    destruct q as [|c2 q].
    + rewrite alter_single in H. injection H as <-. cbn [lookup].
      simpl in H1. rewrite andb_true_r in H1. apply String.eqb_neq in H1.
      destruct v as [m|].
      * rewrite assoc_set_other by congruence. reflexivity.
      * rewrite assoc_del_other by congruence. reflexivity.
    + rewrite alter_deeper in H.
      destruct (assoc c es) as [m|] eqn:Hc; [|discriminate].
      destruct (alter m (c2 :: q) v) as [m'|] eqn:Hm; [|discriminate].
      injection H as <-. cbn [lookup].
      destruct (String.eqb_spec c c') as [<-|Hne].
      * rewrite assoc_set_same, Hc.
        cbn [is_prefix] in H1, H2. rewrite String.eqb_refl in H1, H2.
        now apply IH with (r := m).
      * rewrite assoc_set_other by congruence. reflexivity.
Qed.

(** Above the altered path there are directories, before and after. *)
Lemma alter_lookup_above (r r' : node) (q q' : path) (v : option node) :
  alter r q v = Some r' ->
  is_prefix q' q = true -> is_prefix q q' = false ->
  is_dir (lookup r q') = true /\ is_dir (lookup r' q') = true.
Proof.
  revert r r' q'. induction q as [|c q IH]; intros r r' q' H H1 H2.
  - destruct r; discriminate.
  - destruct r as [data|es]; [discriminate|].
    destruct q' as [|c' q'].
    + destruct q as [|c2 q].
      * rewrite alter_single in H. injection H as <-. split; reflexivity.
      * rewrite alter_deeper in H. destruct (assoc c es) as [m|]; [|discriminate].
        destruct (alter m (c2 :: q) v) as [m'|]; [|discriminate].
        injection H as <-. split; reflexivity.
    + cbn [is_prefix] in H1, H2.
      apply andb_true_iff in H1. destruct H1 as [Hc H1].
      apply String.eqb_eq in Hc. subst c'.
      rewrite String.eqb_refl in H2. cbn [andb] in H2.
      destruct q as [|c2 q].
      * destruct q'; discriminate.
      * rewrite alter_deeper in H.
        destruct (assoc c es) as [m|] eqn:Hc; [|discriminate].
        destruct (alter m (c2 :: q) v) as [m'|] eqn:Hm; [|discriminate].
        injection H as <-. cbn [lookup].
        rewrite assoc_set_same, Hc. now apply IH.
Qed.

(** [alter] succeeds exactly below a directory. *)
Lemma alter_defined (r : node) (q : path) (c : string) (v : option node) :
  is_dir (lookup r q) = true -> exists r', alter r (q ++ [c]) v = Some r'.
Proof.
  revert r. induction q as [|a q IH]; intros r H.
  - simpl in H. destruct r as [data|es]; [discriminate|].
    simpl. eauto.
  - destruct r as [data|es]; [discriminate|].
    cbn [lookup] in H.
    destruct (assoc a es) as [m|] eqn:Ha; [|discriminate].
    destruct (IH m H) as [m' Hm'].
    change ((a :: q) ++ [c]) with (a :: (q ++ [c])).
    destruct (q ++ [c]) as [|c2 q2] eqn:Eq; [destruct q; discriminate|].
    rewrite alter_deeper, Ha, Hm'. eauto.
Qed.

Lemma alter_parent_dir (r r' : node) (q : path) (c : string) (v : option node) :
  alter r (q ++ [c]) v = Some r' -> is_dir (lookup r q) = true.
Proof.
  intros H.
  destruct (alter_lookup_above r r' (q ++ [c]) q v H) as [Hd _]; [| |exact Hd].
  - apply is_prefix_app.
  - destruct (is_prefix (q ++ [c]) q) eqn:E; [|reflexivity].
    apply is_prefix_spec in E. destruct E as [s E].
    apply (f_equal (@List.length _)) in E. rewrite !length_app in E. simpl in E. lia.
Qed.

(** The three ways a path can lie relative to an altered one. *)
Lemma alter_lookup_cases (r r' : node) (q q' : path) (v : option node) :
  alter r q v = Some r' ->
  (exists s, q' = q ++ s /\
     lookup r' q' = match v with Some m => lookup m s | None => None end)
  \/ (is_prefix q q' = false /\
      is_dir (lookup r q') = true /\ is_dir (lookup r' q') = true)
  \/ (is_prefix q q' = false /\ is_prefix q' q = false /\
      lookup r' q' = lookup r q').
Proof.
  intros H.
  destruct (is_prefix q q') eqn:E1.
  - left. apply is_prefix_spec in E1. destruct E1 as [s ->].
    exists s. split; [reflexivity|]. now apply alter_lookup_below with (r := r).
  - right. destruct (is_prefix q' q) eqn:E2.
    + left. split; [reflexivity|]. now apply alter_lookup_above with (q := q) (v := v).
    + right. repeat split. now apply alter_lookup_apart with (q := q) (v := v).
Qed.

(** Altering a path that is not a directory keeps every directory. *)
Lemma alter_keeps_dirs (r r' : node) (q q' : path) (v : option node) :
  alter r q v = Some r' ->
  is_dir (lookup r q) = false ->
  is_dir (lookup r q') = true -> is_dir (lookup r' q') = true.
Proof.
  intros H Hq Hq'.
  destruct (alter_lookup_cases r r' q q' v H) as [(s & -> & _)|[(_ & _ & E)|(_ & _ & E)]].
  - exfalso. rewrite lookup_app in Hq'.
    destruct (lookup r q) as [[data|es]|]; try discriminate.
    destruct s; discriminate.
  - exact E.
  - now rewrite E.
Qed.

(** Altering a path that is not a directory keeps every regular file
    elsewhere. *)
Lemma alter_keeps_files (r r' : node) (q q' : path) (v : option node) (data : string) :
  alter r q v = Some r' ->
  is_prefix q q' = false ->
  lookup r q' = Some (File data) -> lookup r' q' = Some (File data).
Proof.
  intros H Hp Hq'.
  destruct (alter_lookup_cases r r' q q' v H) as [(s & -> & _)|[(_ & E & _)|(_ & _ & E)]].
  - now rewrite is_prefix_app in Hp.
  - rewrite Hq' in E. discriminate.
  - now rewrite E.
Qed.

End TreeFacts.

(* ===================================================================== *)
(** ** Properties of the loops, for every model of the library calls *)
(* ===================================================================== *)

Section LoopFacts.

Context {W : Type}.

Lemma for_each_app {A} (body : A -> M W unit) (xs ys : list A) (w : W) :
  for_each body (xs ++ ys) w =
    match for_each body xs w with
    | (Ok _, w') => for_each body ys w'
    | (Raise e, w') => (Raise e, w')
    end.
Proof.
  revert w. induction xs as [|x xs IH]; intros w; [reflexivity|].
  cbn [app for_each]. unfold bind.
  destruct (body x w) as [[[]|e] w1]; [apply IH|reflexivity].
Qed.

(** A loop that raises did so in the body of one element, after the
    bodies of the elements before it had returned, and ran no further. *)
Lemma for_each_raise {A} (body : A -> M W unit) (xs : list A) (w w' : W)
  (e : exn) :
  for_each body xs w = (Raise e, w') ->
  exists done x rest w1,
    xs = done ++ x :: rest /\
    for_each body done w = (Ok tt, w1) /\
    body x w1 = (Raise e, w').
Proof.
  revert w. induction xs as [|x xs IH]; intros w H; [discriminate|].
  cbn [for_each] in H. unfold bind in H.
  destruct (body x w) as [[[]|e1] w1] eqn:Hx.
  - destruct (IH w1 H) as (done & y & rest & w2 & -> & Hd & Hy).
    exists (x :: done), y, rest, w2. repeat split; [|exact Hy].
    cbn [for_each]. unfold bind. now rewrite Hx.
  - injection H as -> ->. exists [], x, xs, w. repeat split. exact Hx.
Qed.

(** An invariant of the body is an invariant of the loop, however the
    loop ends. *)
Lemma for_each_invariant {A} (I : W -> Prop) (body : A -> M W unit)
  (xs : list A) :
  (forall x w, In x xs -> I w -> I (snd (body x w))) ->
  forall w, I w -> I (snd (for_each body xs w)).
Proof.
  induction xs as [|x xs IH]; intros Hb w Hw; [exact Hw|].
  cbn [for_each]. unfold bind.
  pose proof (Hb x w (or_introl eq_refl) Hw) as Hx.
  destruct (body x w) as [[[]|e] w1]; [|exact Hx].
  apply IH; [|exact Hx]. intros y w2 Hy. apply Hb. now right.
Qed.

(** An invariant that knows which elements are still to come, for the
    loop that returns. *)
Lemma for_each_returns {A} (I : list A -> W -> Prop) (body : A -> M W unit)
  (xs : list A) :
  (forall x rest w w', I (x :: rest) w -> body x w = (Ok tt, w') -> I rest w') ->
  forall w w', I xs w -> for_each body xs w = (Ok tt, w') -> I [] w'.
Proof.
  intros Hb. induction xs as [|x xs IH]; intros w w' Hw H.
  - injection H as <-. exact Hw.
  - cbn [for_each] in H. unfold bind in H.
    destruct (body x w) as [[[]|e] w1] eqn:Hx; [|discriminate].
    apply IH with (w := w1); [|exact H]. now apply Hb with (x := x) (w := w).
Qed.

Context {os : OS W}.

Lemma scan_item_spec (directory : string) (st : file_map_t * folders_t)
  (item : string) (w : W) :
  scan_item directory st item w = (Ok (classify directory w st item), w).
Proof.
  unfold scan_item, classify, hidden, stem. destruct st as [file_map folders].
  destruct (startswith item "."); [reflexivity|].
  unfold bind, gets.
  destruct (os_path_isdir (os_path_join directory item) w); reflexivity.
Qed.

(** Step 1 reads the world, never raises and changes nothing. *)
Lemma scan_spec (directory : string) (items : list string) (w : W) :
  scan directory items w = (Ok (scan_result directory w items), w).
Proof.
  unfold scan, scan_result. generalize (@nil (string * list string), @nil string).
  induction items as [|item items IH]; intros st; [reflexivity|].
  cbn [for_fold fold_left]. unfold bind at 1.
  rewrite scan_item_spec. apply IH.
Qed.

Lemma scan_inv (directory : string) (items : list string) (w w' : W)
  (file_map : file_map_t) (folders : folders_t) :
  scan directory items w = (Ok (file_map, folders), w') ->
  file_map = fst (scan_result directory w items) /\
  folders = snd (scan_result directory w items) /\ w' = w.
Proof.
  rewrite scan_spec. intros H. injection H as H <-. now rewrite H.
Qed.

(** The nested loops of step 3 make the moves of [moves], in order. *)
Lemma move_files_moves (directory : string) (file_map : file_map_t) (w : W) :
  move_files directory file_map w =
  for_each (move_one directory) (moves file_map) w.
Proof.
  unfold move_files, moves. revert w.
  induction file_map as [|[base_name files] file_map IH]; intros w; [reflexivity|].
  cbn [for_each flat_map fst snd]. rewrite for_each_app.
  unfold bind at 1. cbn [move_group].
  assert (E : forall w0,
    for_each (move_file directory (os_path_join directory base_name)) files w0 =
    for_each (move_one directory) (map (pair base_name) files) w0).
  { induction files as [|f files IHf]; intros w0; [reflexivity|].
    cbn [for_each map]. unfold bind. unfold move_one at 1. cbn [fst snd].
    destruct (move_file _ _ f w0) as [[[]|e] w1]; [apply IHf|reflexivity]. }
  rewrite E.
  destruct (for_each (move_one directory) (map (pair base_name) files) w)
    as [[[]|e] w1]; [apply IH|reflexivity].
Qed.

(** The run, step by step. *)
Lemma create_and_move_files_steps (directory : string) (w : W) :
  create_and_move_files directory w =
  match os_listdir directory w with
  | (Ok items, w1) =>
      let file_map := fst (scan_result directory w1 items) in
      match create_folders directory file_map w1 with
      | (Ok _, w2) => for_each (move_one directory) (moves file_map) w2
      | (Raise e, w2) => (Raise e, w2)
      end
  | (Raise e, w1) => (Raise e, w1)
  end.
Proof.
  unfold create_and_move_files, bind.
  destruct (os_listdir directory w) as [[items|e] w1]; [|reflexivity].
  rewrite scan_spec. destruct (scan_result directory w1 items) as [file_map folders].
  cbn [fst].
  destruct (create_folders directory file_map w1) as [[[]|e] w2]; [|reflexivity].
  apply move_files_moves.
Qed.

End LoopFacts.

(* ===================================================================== *)
(** ** Properties of the file system model *)
(* ===================================================================== *)

Section PosixFacts.

Lemma walk_app (r : node) (acc : path) (cs1 cs2 : list string) :
  walk r acc (cs1 ++ cs2) =
    match walk r acc cs1 with
    | Some a => walk r a cs2
    | None => None
    end.
Proof.
  revert acc. induction cs1 as [|c cs1 IH]; intros acc; [reflexivity|].
  cbn [app walk].
  destruct (is_dot c); [destruct (is_dir (lookup r acc)); [apply IH|reflexivity]|].
  destruct (c =? ".."); [destruct (is_dir (lookup r acc)); [apply IH|reflexivity]|].
  apply IH.
Qed.

Lemma walk_name (r : node) (acc : path) (n : string) :
  valid_name n = true -> walk r acc [n] = Some (acc ++ [n]).
Proof.
  intros H. destruct (valid_name_parts n H) as (_ & _ & Hd & Hdd).
  cbn [walk]. now rewrite Hd, Hdd.
Qed.

(** The components of [os.path.join directory name]: those of
    [directory], without a last empty one, and then [name]. *)
Lemma split_join (d n : string) :
  valid_name n = true ->
  exists cs,
    split_sep (os_path_join d n) = cs ++ [n] /\
    startswith (os_path_join d n) "/" = startswith d "/" /\
    (os_path_join d n =? "")%string = false /\
    (forall r acc p, walk r acc (split_sep d) = Some p -> walk r acc cs = Some p).
Proof.
  intros H. destruct (valid_name_parts n H) as (Hne & Hs & Hd & Hdd).
  rewrite join_valid by assumption.
  assert (Hnonempty : forall a : string, (a ++ n =? "")%string = false).
  { intros a. apply String.eqb_neq. intros E.
    apply (f_equal String.length) in E. rewrite length_append in E.
    destruct n; [congruence|]. simpl in E. lia. }
  destruct (String.eqb_spec d "") as [->|Hd0].
  - exists []. cbn [orb append app]. repeat split.
    + now apply split_sep_single.
    + now apply valid_name_not_abs.
    + apply (Hnonempty "").
    + intros r acc p Hw. simpl in Hw.
      destruct (is_dir (lookup r acc)); [assumption|discriminate].
  - cbn [orb]. destruct (endswith d sep) eqn:He.
    + destruct (endswith_inv d sep He) as [d' ->].
      exists (split_sep d'). rewrite append_assoc. cbn [append]. repeat split.
      * rewrite split_sep_append, (split_sep_single n Hs). reflexivity.
      * destruct d' as [|x d']; cbn [append]; now rewrite !startswith_cons.
      * change (String sep n) with (String sep "" ++ n)%string.
        rewrite <- append_assoc. apply Hnonempty.
      * intros r acc p Hw. rewrite split_sep_append, walk_app in Hw.
        destruct (walk r acc (split_sep d')) as [a|]; [|discriminate].
        simpl in Hw. destruct (is_dir (lookup r a)); [assumption|discriminate].
    + exists (split_sep d). repeat split.
      * change ("/" ++ n)%string with (String sep n).
        rewrite split_sep_append, (split_sep_single n Hs). reflexivity.
      * now apply startswith_append.
      * change (d ++ "/" ++ n)%string with (d ++ (String sep "" ++ n))%string.
        rewrite <- append_assoc. apply Hnonempty.
      * auto.
Qed.

(** An entry of a directory resolves to the path of the directory and
    its name. *)
Lemma resolve_join (w : world) (d n : string) (p : path) :
  resolve w d = Some p -> valid_name n = true ->
  resolve w (os_path_join d n) = Some (p ++ [n]).
Proof.
  intros Hr Hn. destruct (split_join d n Hn) as (cs & Hsplit & Habs & Hne & Hw).
  unfold resolve in *. rewrite Hne, Habs, Hsplit, walk_app.
  destruct (d =? "")%string; [discriminate|].
  rewrite (Hw _ _ _ Hr). now apply walk_name.
Qed.

Lemma node_at_join (w : world) (d n : string) (p : path) :
  resolve w d = Some p -> valid_name n = true ->
  node_at w (os_path_join d n) = lookup (root w) (p ++ [n]).
Proof.
  intros Hr Hn. unfold node_at. now rewrite (resolve_join w d n p Hr Hn).
Qed.

(** Resolution only looks at which paths are directories. *)
Lemma walk_stable (r r' : node) (acc : path) (cs : list string) (p : path) :
  (forall q, is_dir (lookup r q) = true -> is_dir (lookup r' q) = true) ->
  walk r acc cs = Some p -> walk r' acc cs = Some p.
Proof.
  intros Hd. revert acc. induction cs as [|c cs IH]; intros acc H; [exact H|].
  cbn [walk] in *.
  destruct (is_dot c).
  - destruct (is_dir (lookup r acc)) eqn:E; [|discriminate].
    rewrite (Hd _ E). now apply IH.
  - destruct (c =? "..").
    + destruct (is_dir (lookup r acc)) eqn:E; [|discriminate].
      rewrite (Hd _ E). now apply IH.
    + now apply IH.
Qed.

Lemma resolve_stable (w w' : world) (s : string) (p : path) :
  cwd w' = cwd w ->
  (forall q, is_dir (lookup (root w) q) = true ->
             is_dir (lookup (root w') q) = true) ->
  resolve w s = Some p -> resolve w' s = Some p.
Proof.
  intros Hc Hd. unfold resolve. rewrite Hc.
  destruct (s =? "")%string; [auto|]. now apply walk_stable.
Qed.

Lemma at_dir_stable (w w' : world) (d : string) (p : path) :
  cwd w' = cwd w ->
  (forall q, is_dir (lookup (root w) q) = true ->
             is_dir (lookup (root w') q) = true) ->
  at_dir d p w -> at_dir d p w'.
Proof.
  intros Hc Hd [Hr Hp]. split; [now apply resolve_stable with (w := w)|auto].
Qed.

(** A walk that ends in a directory started in one. *)
Lemma walk_dir_start (r : node) (acc : path) (cs : list string) (p : path) :
  walk r acc cs = Some p -> is_dir (lookup r p) = true ->
  is_dir (lookup r acc) = true.
Proof.
  revert acc. induction cs as [|c cs IH]; intros acc H Hp.
  - injection H as <-. exact Hp.
  - cbn [walk] in H. destruct (is_dot c).
    + destruct (is_dir (lookup r acc)); [reflexivity|discriminate].
    + destruct (c =? "..").
      * destruct (is_dir (lookup r acc)); [reflexivity|discriminate].
      * specialize (IH _ H Hp). apply lookup_prefix_dir with (s := [c]).
        -- destruct (lookup r (acc ++ [c])); [congruence|discriminate].
        -- discriminate.
Qed.

(** [os.makedirs] creates nothing along a path that leads to a
    directory. *)
Lemma mkdirs_walk (r : node) (acc : path) (cs cs2 : list string) (p : path) :
  walk r acc cs = Some p -> is_dir (lookup r p) = true ->
  mkdirs r acc (cs ++ cs2) = mkdirs r p cs2.
Proof.
  revert acc. induction cs as [|c cs IH]; intros acc H Hp.
  - injection H as <-. reflexivity.
  - cbn [walk] in H. cbn [app mkdirs]. destruct (is_dot c).
    + destruct (is_dir (lookup r acc)); [now apply IH|discriminate].
    + destruct (c =? "..").
      * destruct (is_dir (lookup r acc)); [now apply IH|discriminate].
      * pose proof (walk_dir_start _ _ _ _ H Hp) as Hc.
        destruct (lookup r (acc ++ [c])) as [[data|es]|]; try discriminate.
        now apply IH.
Qed.

Lemma basename_join (d n : string) :
  valid_name n = true -> basename (os_path_join d n) = n.
Proof.
  intros H. destruct (split_join d n H) as (cs & Hsplit & _).
  destruct (valid_name_parts n H) as (Hne & _).
  unfold basename. rewrite Hsplit, filter_app. cbn [filter].
  apply String.eqb_neq in Hne. rewrite Hne. cbn [negb]. apply last_last.
Qed.

Lemma listdir_at (w : world) (d : string) (p : path) (es : list (string * node)) :
  resolve w d = Some p -> lookup (root w) p = Some (Dir es) ->
  os_listdir d w = (Ok (map fst es), w).
Proof.
  intros Hr Hp. cbn [os_listdir posix]. unfold listdir, node_at.
  now rewrite Hr, Hp.
Qed.

Lemma isdir_join (w : world) (d n : string) (p : path) :
  resolve w d = Some p -> valid_name n = true ->
  os_path_isdir (os_path_join d n) w = is_dir (lookup (root w) (p ++ [n])).
Proof.
  intros Hr Hn. cbn [os_path_isdir posix]. unfold isdir.
  now rewrite (node_at_join w d n p Hr Hn).
Qed.

Lemma exists_join (w : world) (d n : string) (p : path) :
  resolve w d = Some p -> valid_name n = true ->
  os_path_exists (os_path_join d n) w = is_some (lookup (root w) (p ++ [n])).
Proof.
  intros Hr Hn. cbn [os_path_exists posix]. unfold exists_.
  now rewrite (node_at_join w d n p Hr Hn).
Qed.

(** Step 2 on a base name that is taken: nothing happens. *)
Lemma create_folder_present (w : world) (d B : string) (p : path) :
  resolve w d = Some p -> valid_name B = true ->
  lookup (root w) (p ++ [B]) <> None ->
  create_folder d B w = (Ok tt, w).
Proof.
  intros Hr HB Hl. unfold create_folder, bind, gets.
  rewrite (exists_join w d B p Hr HB).
  destruct (lookup (root w) (p ++ [B])); [reflexivity|congruence].
Qed.

(** Step 2 on a base name that is free: an empty directory appears. *)
Lemma create_folder_absent (w : world) (d B : string) (p : path) :
  at_dir d p w -> valid_name B = true ->
  lookup (root w) (p ++ [B]) = None ->
  exists r',
    alter (root w) (p ++ [B]) (Some (Dir [])) = Some r' /\
    create_folder d B w =
      (Ok tt, mkWorld r' (cwd w)
                (stdout w ++ ["Created folder: " ++ os_path_join d B]%string)
                (calls w ++ [Makedirs (os_path_join d B)])).
Proof.
  intros [Hr Hp] HB Hl.
  destruct (alter_defined (root w) p B (Some (Dir [])) Hp) as [r' Hr'].
  exists r'. split; [exact Hr'|].
  unfold create_folder, bind, gets.
  rewrite (exists_join w d B p Hr HB), Hl. cbn [is_some negb].
  cbn [os_makedirs posix print]. unfold makedirs, bind, log_call.
  destruct (split_join d B HB) as (cs & Hsplit & Habs & Hne & Hw).
  rewrite Hne, Habs, Hsplit. cbn [root cwd].
  unfold resolve in Hr. destruct (d =? "")%string; [discriminate|].
  rewrite (mkdirs_walk _ _ cs [B] p (Hw _ _ _ Hr) Hp).
  destruct (valid_name_parts B HB) as (_ & _ & Hd & Hdd).
  cbn [mkdirs]. rewrite Hd, Hdd, Hl, Hr'. reflexivity.
Qed.

Lemma is_root_last (q : path) (x : string) : is_root (q ++ [x]) = false.
Proof. destruct q; reflexivity. Qed.

Lemma is_prefix_cancel (p a b : path) : is_prefix (p ++ a) (p ++ b) = is_prefix a b.
Proof.
  induction p as [|c p IH]; [reflexivity|].
  cbn [app is_prefix]. now rewrite String.eqb_refl.
Qed.

Lemma path_eqb_cancel (p a b : path) : path_eqb (p ++ a) (p ++ b) = path_eqb a b.
Proof.
  induction p as [|c p IH]; [reflexivity|].
  cbn [app path_eqb]. now rewrite String.eqb_refl.
Qed.

(** [os.rename] of a regular file to a free or regular-file place in a
    directory. *)
Lemma rename_file (w : world) (src dst : string) (q q' : path) (x y data : string) :
  resolve w src = Some (q ++ [x]) -> resolve w dst = Some (q' ++ [y]) ->
  lookup (root w) (q ++ [x]) = Some (File data) ->
  is_dir (lookup (root w) q') = true ->
  is_dir (lookup (root w) (q' ++ [y])) = false ->
  is_prefix (q ++ [x]) (q' ++ [y]) = false ->
  exists r1 r2,
    alter (root w) (q ++ [x]) None = Some r1 /\
    alter r1 (q' ++ [y]) (Some (File data)) = Some r2 /\
    rename src dst w = (Ok tt, set_root r2 w).
Proof.
  intros Hs Hd Hx Hq' Hy Hpre.
  assert (Hq : is_dir (lookup (root w) q) = true).
  { apply lookup_prefix_dir with (s := [x]); [congruence|discriminate]. }
  destruct (alter_defined (root w) q x None Hq) as [r1 Hr1].
  assert (Hq1 : is_dir (lookup r1 q') = true).
  { apply alter_keeps_dirs with (r := root w) (q := q ++ [x]) (v := None);
      [assumption|now rewrite Hx|assumption]. }
  destruct (alter_defined r1 q' y (Some (File data)) Hq1) as [r2 Hr2].
  exists r1, r2. repeat split; try assumption.
  unfold rename. rewrite Hs, Hd, Hx, removelast_last, Hq'.
  assert (Hne : path_eqb (q ++ [x]) (q' ++ [y]) = false).
  { destruct (path_eqb (q ++ [x]) (q' ++ [y])) eqn:E; [|reflexivity].
    apply path_eqb_eq in E. rewrite E in Hpre.
    rewrite <- (app_nil_r (q' ++ [y])) in Hpre at 2.
    now rewrite is_prefix_app in Hpre. }
  rewrite Hne, !is_root_last, Hpre, Hr1, Hr2. cbn [orb negb].
  destruct (lookup (root w) (q' ++ [y])) as [[data'|es]|]; [reflexivity|discriminate|reflexivity].
Qed.

Lemma isdir_at (w : world) (s : string) (q : path) :
  resolve w s = Some q -> isdir s w = is_dir (lookup (root w) q).
Proof. intros H. unfold isdir, node_at. now rewrite H. Qed.

Lemma exists_at (w : world) (s : string) (q : path) :
  resolve w s = Some q -> exists_ s w = is_some (lookup (root w) q).
Proof. intros H. unfold exists_, node_at. now rewrite H. Qed.

(** [shutil.move] without a source, or with a regular file that cannot
    be written at the destination: it raises and changes nothing. *)
Lemma rename_or_copy_fails (w : world) (src dst real_dst : string)
  (q qd : path) (x y : string) :
  resolve w src = Some (q ++ [x]) -> resolve w real_dst = Some (qd ++ [y]) ->
  is_dir (lookup (root w) (q ++ [x])) = false ->
  is_dir (lookup (root w) (qd ++ [y])) = false ->
  path_eqb (q ++ [x]) (qd ++ [y]) = false ->
  lookup (root w) (q ++ [x]) = None \/ is_dir (lookup (root w) qd) = false ->
  exists e, rename_or_copy src dst real_dst w = (Raise e, w).
Proof.
  intros Hs Hd Hx Hy Hne Hcase.
  unfold rename_or_copy, try_except, rename. rewrite Hs, Hd.
  destruct (lookup (root w) (q ++ [x])) as [[data|es]|] eqn:Hsrc; [|discriminate|].
  - destruct Hcase as [?|Hqd]; [discriminate|].
    rewrite Hne, !is_root_last, removelast_last, Hqd. cbn [orb negb].
    unfold bind, gets. rewrite (isdir_at w src _ Hs), Hsrc. cbn [is_dir].
    unfold copy2, bind, gets. rewrite (isdir_at w real_dst _ Hd), Hy.
    unfold copyfile, samefile.
    rewrite Hs, Hd, Hsrc, Hne, removelast_last, Hqd, !andb_false_r.
    destruct (lookup (root w) (qd ++ [y])) as [[data'|es]|]; try discriminate; eauto.
  - unfold bind, gets. rewrite (isdir_at w src _ Hs), Hsrc. cbn [is_dir].
    unfold copy2, bind, gets. rewrite (isdir_at w real_dst _ Hd), Hy.
    unfold copyfile, samefile. rewrite Hs, Hd, Hsrc. cbn [is_some andb]. eauto.
Qed.

(** [shutil.move] of a regular file to a place it can be written at. *)
Lemma rename_or_copy_file (w : world) (src dst real_dst : string)
  (q qd : path) (x y data : string) :
  resolve w src = Some (q ++ [x]) -> resolve w real_dst = Some (qd ++ [y]) ->
  lookup (root w) (q ++ [x]) = Some (File data) ->
  is_dir (lookup (root w) qd) = true ->
  is_dir (lookup (root w) (qd ++ [y])) = false ->
  is_prefix (q ++ [x]) (qd ++ [y]) = false ->
  exists r1 r2,
    alter (root w) (q ++ [x]) None = Some r1 /\
    alter r1 (qd ++ [y]) (Some (File data)) = Some r2 /\
    rename_or_copy src dst real_dst w = (Ok tt, set_root r2 w).
Proof.
  intros Hs Hd Hx Hqd Hy Hpre.
  destruct (rename_file w src real_dst q qd x y data Hs Hd Hx Hqd Hy Hpre)
    as (r1 & r2 & H1 & H2 & Hren).
  exists r1, r2. repeat split; try assumption.
  unfold rename_or_copy, try_except. now rewrite Hren.
Qed.

Lemma lookup_two (r : node) (p : path) (B f : string) :
  lookup r (p ++ [B; f]) <> None -> is_dir (lookup r (p ++ [B])) = true.
Proof.
  intros H. apply lookup_prefix_dir with (s := [f]); [|discriminate].
  now rewrite <- app_assoc.
Qed.

(** One move of step 3, for a source that is not a directory. *)
Lemma move_one_spec (w : world) (d B f : string) (p : path) :
  at_dir d p w -> valid_name B = true -> valid_name f = true ->
  is_dir (lookup (root w) (p ++ [f])) = false ->
  let src := os_path_join d f in
  let dst := os_path_join (os_path_join d B) f in
  match move_root (root w) p B f with
  | Some r2 =>
      move_one d (B, f) w =
        (Ok tt, mkWorld r2 (cwd w)
                  (stdout w ++ ["Moved " ++ src ++ " to " ++ dst]%string)
                  (calls w ++ [Move src dst]))
  | None =>
      exists e,
        move_one d (B, f) w =
          (Raise e, mkWorld (root w) (cwd w) (stdout w)
                      (calls w ++ [Move src dst]))
  end.
Proof.
  intros [Hr Hp] HB Hf Hnd src dst.
  set (w1 := mkWorld (root w) (cwd w) (stdout w) (calls w ++ [Move src dst])).
  assert (E2 : (p ++ [B]) ++ [f] = p ++ [B; f]) by (now rewrite <- app_assoc).
  assert (E3 : (p ++ [B; f]) ++ [f] = p ++ [B; f; f])
    by (now rewrite <- !app_assoc).
  assert (Hs1 : resolve w1 src = Some (p ++ [f]))
    by (apply (resolve_join w d f p Hr Hf)).
  assert (Hd1 : resolve w1 dst = Some (p ++ [B; f])).
  { rewrite <- E2.
    apply (resolve_join w (os_path_join d B) f (p ++ [B])); [|assumption].
    now apply resolve_join. }
  assert (Hr1 : resolve w1 (os_path_join dst f) = Some (p ++ [B; f; f])).
  { rewrite <- E3. now apply (resolve_join w1 dst f). }
  assert (Hne2 : path_eqb (p ++ [f]) (p ++ [B; f]) = false).
  { replace (p ++ [B; f]) with (p ++ [B] ++ [f]) by reflexivity.
    rewrite path_eqb_cancel. cbn [app path_eqb]. now rewrite andb_false_r. }
  assert (Hpre2 : forall t, is_prefix (p ++ [f]) (p ++ B :: t) = false \/ f = B).
  { intros t. rewrite is_prefix_cancel. cbn [is_prefix].
    destruct (String.eqb_spec f B); [now right|now left]. }
  assert (Hunf : move src dst w =
            if is_dir (lookup (root w) (p ++ [B; f])) then
              if is_some (lookup (root w) (p ++ [B; f; f]))
              then (Raise ShutilError, w1)
              else rename_or_copy src dst (os_path_join dst f) w1
            else rename_or_copy src dst dst w1).
  { unfold move, bind, log_call, gets. fold w1.
    rewrite (isdir_at w1 dst _ Hd1). change (root w1) with (root w).
    destruct (is_dir (lookup (root w) (p ++ [B; f]))); [|reflexivity].
    unfold samefile. rewrite Hs1, Hd1, Hne2, andb_false_r.
    replace (basename src) with f by (symmetry; apply (basename_join d f Hf)).
    rewrite (exists_at w1 _ _ Hr1). change (root w1) with (root w).
    destruct (is_some (lookup (root w) (p ++ [B; f; f]))); reflexivity. }
  assert (Hmove : match move_root (root w) p B f with
                  | Some r2 => move src dst w = (Ok tt, set_root r2 w1)
                  | None => exists e, move src dst w = (Raise e, w1)
                  end).
  { rewrite Hunf. unfold move_root, move_dest.
    destruct (is_dir (lookup (root w) (p ++ [B; f]))) eqn:Hbf.
    - (* the destination is a directory *)
      assert (HBd : is_dir (lookup (root w) (p ++ [B])) = true).
      { apply lookup_two with (f := f).
        destruct (lookup (root w) (p ++ [B; f])); [congruence|discriminate]. }
      assert (HfB : f <> B).
      { intros ->. rewrite HBd in Hnd. discriminate. }
      destruct (lookup (root w) (p ++ [B; f; f])) as [n3|] eqn:H3; cbn [is_some].
      + destruct (lookup (root w) (p ++ [f])) as [[data|es]|];
          exists ShutilError; reflexivity.
      + destruct (lookup (root w) (p ++ [f])) as [[data|es]|] eqn:Hsrc;
          [|discriminate|].
        * destruct (rename_or_copy_file w1 src dst (os_path_join dst f)
                      p (p ++ [B; f]) f f data) as (r1 & r2 & H1 & H2 & Hroc);
            rewrite ?E3; change (root w1) with (root w); try assumption.
          -- now rewrite H3.
          -- destruct (Hpre2 [f; f]); [assumption|contradiction].
          -- change (root w1) with (root w) in H1. rewrite H1.
             rewrite E3 in H2. rewrite H2. exact Hroc.
        * apply (rename_or_copy_fails w1 src dst (os_path_join dst f)
                   p (p ++ [B; f]) f f);
            rewrite ?E3; change (root w1) with (root w); try assumption.
          -- now rewrite Hsrc.
          -- now rewrite H3.
          -- replace (p ++ [B; f; f]) with (p ++ [B] ++ [f; f]) by reflexivity.
             rewrite path_eqb_cancel. cbn [app path_eqb].
             now rewrite andb_false_r.
          -- left. exact Hsrc.
    - (* the destination is not a directory *)
      destruct (lookup (root w) (p ++ [f])) as [[data|es]|] eqn:Hsrc;
        [|discriminate|].
      + destruct (is_dir (lookup (root w) (p ++ [B]))) eqn:HBd.
        * assert (HfB : f <> B).
          { intros ->. rewrite Hsrc in HBd. discriminate. }
          destruct (rename_or_copy_file w1 src dst dst p (p ++ [B]) f f data)
            as (r1 & r2 & H1 & H2 & Hroc);
            rewrite ?E2; change (root w1) with (root w); try assumption.
          -- destruct (Hpre2 [f]); [assumption|contradiction].
          -- change (root w1) with (root w) in H1. rewrite H1.
             rewrite E2 in H2. rewrite H2. exact Hroc.
        * apply (rename_or_copy_fails w1 src dst dst p (p ++ [B]) f f);
            rewrite ?E2; change (root w1) with (root w); try assumption.
          -- now rewrite Hsrc.
          -- right. exact HBd.
      + apply (rename_or_copy_fails w1 src dst dst p (p ++ [B]) f f);
          rewrite ?E2; change (root w1) with (root w); try assumption.
        * now rewrite Hsrc.
        * left. exact Hsrc. }
  unfold move_one, move_file. cbn [fst snd shutil_move print posix].
  fold src dst. unfold bind.
  destruct (move_root (root w) p B f) as [r2|].
  - rewrite Hmove. reflexivity.
  - destruct Hmove as [e He]. exists e. now rewrite He.
Qed.

End PosixFacts.

(* ===================================================================== *)
(** ** Properties of step 1 *)
(* ===================================================================== *)

Section ScanFacts.

Lemma contains_split (s : string) (c : ascii) :
  contains s c = true ->
  exists a b, s = (a ++ String c b)%string /\ contains b c = false.
Proof.
  induction s as [|x s IH]; [discriminate|].
  cbn [contains]. intros H.
  destruct (contains s c) eqn:Hs.
  - destruct (IH eq_refl) as (a & b & -> & Hb).
    exists (String x a), b. split; [reflexivity|assumption].
  - rewrite orb_false_r in H. apply Ascii.eqb_eq in H. subst x.
    exists "", s. split; [reflexivity|assumption].
Qed.

Lemma hidden_not_valid_dots (s : string) :
  hidden s = false -> (s =? ".") = false /\ (s =? "..") = false.
Proof.
  intros H. split; apply String.eqb_neq; intros ->; discriminate.
Qed.

(** The stem of a file name that is not hidden is a name a folder can
    have, and is not hidden either. *)
Lemma stem_valid (f : string) :
  valid_name f = true -> hidden f = false ->
  valid_name (stem f) = true /\ hidden (stem f) = false.
Proof.
  intros Hv Hh. unfold stem.
  destruct (contains f extsep) eqn:Hdot.
  - destruct (contains_split f extsep Hdot) as (a & seg & -> & Hseg).
    destruct (valid_name_parts _ Hv) as (_ & Hsep & _).
    change (a ++ String extsep seg)%string with (a ++ "." ++ seg)%string in *.
    rewrite (splitext_last_dot a seg Hh Hsep Hseg). cbn [fst].
    destruct a as [|x a].
    { unfold hidden in Hh. cbn [append] in Hh.
      rewrite startswith_cons in Hh. discriminate. }
    assert (Hha : hidden (String x a) = false).
    { unfold hidden in *. cbn [append] in Hh.
      now rewrite startswith_cons in *. }
    split; [|exact Hha].
    destruct (hidden_not_valid_dots _ Hha) as [H1 H2].
    unfold valid_name. rewrite H1, H2.
    rewrite contains_append in Hsep. apply orb_false_iff in Hsep.
    destruct Hsep as [-> _]. reflexivity.
  - rewrite (splitext_no_dot f Hdot). auto.
Qed.

Lemma moves_app (fm1 fm2 : file_map_t) :
  moves (fm1 ++ fm2) = (moves fm1 ++ moves fm2)%list.
Proof. apply flat_map_app. Qed.

(** Appending a file to its group adds one move. *)
Lemma moves_append (B f : string) (fm : file_map_t) :
  Permutation (moves (file_map_append B f fm)) (moves fm ++ [(B, f)]).
Proof.
  induction fm as [|[k fs] fm IH]; [apply Permutation_refl|].
  cbn [file_map_append]. destruct (String.eqb_spec k B) as [->|Hne].
  - unfold moves. cbn [flat_map fst snd]. rewrite map_app. cbn [map].
    rewrite <- !app_assoc. apply Permutation_app_head.
    apply Permutation_app_comm with (l := [(B, f)]).
  - unfold moves in *. cbn [flat_map fst snd].
    rewrite <- app_assoc. now apply Permutation_app_head.
Qed.

(** A move is a file of a group, with the base name of the group. *)
Lemma in_moves (fm : file_map_t) (B f : string) :
  In (B, f) (moves fm) <-> exists files, In (B, files) fm /\ In f files.
Proof.
  unfold moves. rewrite in_flat_map. split.
  - intros ([k files] & Hg & Hin). cbn [fst snd] in Hin.
    apply in_map_iff in Hin. destruct Hin as (f' & E & Hf).
    injection E as -> ->. now exists files.
  - intros (files & Hg & Hf). exists (B, files). split; [assumption|].
    cbn [fst snd]. now apply in_map.
Qed.

Lemma keys_append (B f k : string) (fm : file_map_t) :
  In k (keys (file_map_append B f fm)) <-> In k (keys fm) \/ k = B.
Proof.
  unfold keys. induction fm as [|[k' fs] fm IH]; cbn [file_map_append map fst In].
  - intuition congruence.
  - destruct (String.eqb_spec k' B) as [->|Hne]; cbn [map fst In].
    + intuition congruence.
    + rewrite IH. tauto.
Qed.

Lemma groups_append (B f : string) (fm : file_map_t) :
  Forall (fun g => snd g <> []) fm ->
  Forall (fun g => snd g <> []) (file_map_append B f fm).
Proof.
  induction 1 as [|[k fs] fm Hk Hfm IH]; cbn [file_map_append].
  - constructor; [discriminate|constructor].
  - destruct (k =? B); constructor; try assumption.
    cbn [snd] in *. destruct fs; discriminate.
Qed.

Lemma keys_moves (fm : file_map_t) (B : string) :
  Forall (fun g => snd g <> []) fm ->
  (In B (keys fm) <-> exists f, In (B, f) (moves fm)).
Proof.
  unfold keys, moves. induction 1 as [|[k fs] fm Hk Hfm IH]; cbn [map flat_map fst snd In].
  - split; [tauto|intros [f []]].
  - split.
    + intros [->|H].
      * destruct fs as [|f fs]; [now cbn in Hk|].
        exists f. apply in_or_app. left. now left.
      * apply IH in H. destruct H as [f Hf]. exists f.
        apply in_or_app. now right.
    + intros [f Hf]. apply in_app_or in Hf. destruct Hf as [Hf|Hf].
      * apply in_map_iff in Hf. destruct Hf as (f' & E & _).
        injection E as -> _. now left.
      * right. apply IH. now exists f.
Qed.

Context {W : Type} {os : OS W}.

Variables (directory : string) (w : W).

Lemma classify_moves (st : file_map_t * folders_t) (item : string) :
  Permutation (moves (fst (classify directory w st item)))
    (moves (fst st) ++
       if is_file_item directory w item then [(stem item, item)] else []).
Proof.
  unfold classify, is_file_item.
  destruct (hidden item); cbn [negb andb]; [now rewrite app_nil_r|].
  destruct (os_path_isdir (os_path_join directory item) w); cbn [negb fst].
  - now rewrite app_nil_r.
  - apply moves_append.
Qed.

Lemma scan_moves_from (st : file_map_t * folders_t) (items : list string) :
  Permutation (moves (fst (fold_left (classify directory w) items st)))
    (moves (fst st) ++
       map (fun f => (stem f, f)) (filter (is_file_item directory w) items)).
Proof.
  revert st. induction items as [|item items IH]; intros st; cbn [fold_left filter].
  - now rewrite app_nil_r.
  - eapply Permutation_trans; [apply IH|].
    eapply Permutation_trans;
      [apply Permutation_app_tail, classify_moves|].
    rewrite <- app_assoc. apply Permutation_app_head.
    destruct (is_file_item directory w item); apply Permutation_refl.
Qed.

(** The moves of step 3 are the entries step 1 takes for files, each
    with its stem. *)
Lemma scan_moves (items : list string) :
  Permutation (moves (fst (scan_result directory w items)))
    (map (fun f => (stem f, f)) (filter (is_file_item directory w) items)).
Proof. apply (scan_moves_from ([], [])). Qed.

Lemma scan_groups (items : list string) :
  Forall (fun g => snd g <> []) (fst (scan_result directory w items)).
Proof.
  unfold scan_result.
  assert (H : Forall (fun g : string * list string => snd g <> [])
                (fst (@nil (string * list string), @nil string)))
    by constructor.
  revert H. generalize (@nil (string * list string), @nil string).
  induction items as [|item items IH]; intros st H; [exact H|].
  cbn [fold_left]. apply IH. unfold classify.
  destruct (hidden item); [exact H|].
  destruct (os_path_isdir _ w); [exact H|]. now apply groups_append.
Qed.

Lemma scan_move_iff (items : list string) (B f : string) :
  In (B, f) (moves (fst (scan_result directory w items))) <->
  In f items /\ is_file_item directory w f = true /\ B = stem f.
Proof.
  split.
  - intros H. apply (Permutation_in _ (scan_moves items)) in H.
    apply in_map_iff in H. destruct H as (f' & E & Hin).
    injection E as <- ->. apply filter_In in Hin. tauto.
  - intros (Hin & Hsel & ->).
    apply (Permutation_in _ (Permutation_sym (scan_moves items))).
    apply in_map_iff. exists f. split; [reflexivity|].
    apply filter_In. auto.
Qed.

Lemma scan_key_iff (items : list string) (B : string) :
  In B (keys (fst (scan_result directory w items))) <->
  exists f, In f items /\ is_file_item directory w f = true /\ B = stem f.
Proof.
  rewrite (keys_moves _ B (scan_groups items)).
  split; intros [f H]; exists f; now apply scan_move_iff.
Qed.

(** No file is moved twice. *)
Lemma scan_moves_nodup (items : list string) :
  NoDup items ->
  NoDup (map snd (moves (fst (scan_result directory w items)))).
Proof.
  intros H.
  apply (Permutation_NoDup
           (l := filter (is_file_item directory w) items)).
  - eapply Permutation_trans;
      [|apply Permutation_map, Permutation_sym, scan_moves].
    rewrite map_map. cbn [snd]. rewrite map_id. apply Permutation_refl.
  - now apply NoDup_filter.
Qed.

(** The folders of step 1: the entries that are directories and not
    hidden. *)
Lemma scan_folders (items : list string) (x : string) :
  In x (snd (scan_result directory w items)) <->
  In x items /\ hidden x = false /\
  os_path_isdir (os_path_join directory x) w = true.
Proof.
  unfold scan_result.
  assert (G : forall st,
    In x (snd (fold_left (classify directory w) items st)) <->
    In x (snd st) \/
    (In x items /\ hidden x = false /\
     os_path_isdir (os_path_join directory x) w = true)).
  { induction items as [|item items IH]; intros st; cbn [fold_left In].
    - tauto.
    - rewrite IH. unfold classify at 1.
      destruct (hidden item) eqn:Hh.
      + intuition (subst; congruence).
      + destruct (os_path_isdir (os_path_join directory item) w) eqn:Hd; cbn [snd].
        * unfold folders_add.
          destruct (existsb (String.eqb item) (snd st)) eqn:Hex.
          -- apply existsb_exists in Hex. destruct Hex as (y & Hy & E).
             apply String.eqb_eq in E. subst y.
             intuition (subst; auto).
          -- rewrite in_app_iff. cbn [In]. intuition (subst; auto).
        * intuition (subst; congruence). }
  rewrite G. cbn [snd In]. tauto.
Qed.

End ScanFacts.

(* ===================================================================== *)
(** ** Properties of steps 2 and 3 on the file system model *)
(* ===================================================================== *)

Section RunFacts.

Lemma distinct_nodup (l : list string) : distinct l = true -> NoDup l.
Proof.
  induction l as [|x l IH]; cbn [distinct]; intros H; constructor.
  - apply andb_true_iff in H. destruct H as [H _].
    apply negb_true_iff in H. intros Hin.
    assert (E : existsb (String.eqb x) l = true).
    { apply existsb_exists. exists x. split; [assumption|apply String.eqb_refl]. }
    congruence.
  - apply IH. apply andb_true_iff in H. tauto.
Qed.

Lemma well_formed_valid (es : list (string * node)) (x : string) :
  well_formed es = true -> In x (map fst es) -> valid_name x = true.
Proof.
  unfold well_formed. intros H Hin. apply andb_true_iff in H.
  destruct H as [H _]. rewrite forallb_forall in H. auto.
Qed.

Lemma well_formed_nodup (es : list (string * node)) :
  well_formed es = true -> NoDup (map fst es).
Proof.
  unfold well_formed. intros H. apply andb_true_iff in H.
  apply distinct_nodup. tauto.
Qed.

Lemma lookup_entry (r : node) (p : path) (es : list (string * node))
  (x : string) (s : path) :
  lookup r p = Some (Dir es) ->
  lookup r (p ++ x :: s) =
    match assoc x es with Some m => lookup m s | None => None end.
Proof. intros H. now rewrite lookup_app, H. Qed.

Lemma entry_listed (r : node) (p : path) (es : list (string * node)) (x : string) :
  lookup r p = Some (Dir es) ->
  (In x (map fst es) <-> lookup r (p ++ [x]) <> None).
Proof.
  intros H. rewrite (lookup_entry r p es x [] H), assoc_in.
  destruct (assoc x es); cbn [lookup]; split; congruence.
Qed.

Lemma target_at_dir (d : string) (p : path) (es : list (string * node)) (w : world) :
  target d p es w -> at_dir d p w.
Proof. intros (Hr & Hl & _). split; [assumption|now rewrite Hl]. Qed.

Lemma apart_entries (p : path) (x y : string) (s t : path) :
  x <> y ->
  is_prefix (p ++ x :: s) (p ++ y :: t) = false.
Proof.
  intros H. rewrite is_prefix_cancel. cbn [is_prefix].
  apply String.eqb_neq in H. now rewrite H.
Qed.

(** What step 2 does to the directory [p]: the entries it has keep their
    place and everything below them, the base names that are free become
    empty directories, and nothing else is made. *)
Lemma create_phase (d : string) (p : path) (ks : list string) :
  Forall (fun B => valid_name B = true) ks ->
  forall w, at_dir d p w ->
  exists w',
    for_each (create_folder d) ks w = (Ok tt, w') /\
    at_dir d p w' /\ cwd w' = cwd w /\
    (forall x s, lookup (root w) (p ++ [x]) <> None ->
       lookup (root w') (p ++ x :: s) = lookup (root w) (p ++ x :: s)) /\
    (forall x, lookup (root w) (p ++ [x]) = None ->
       lookup (root w') (p ++ [x]) =
         if existsb (String.eqb x) ks then Some (Dir []) else None) /\
    (exists new, calls w' = calls w ++ new /\
       forall c, In c new ->
         exists B, In B ks /\ lookup (root w) (p ++ [B]) = None /\
                   c = Makedirs (os_path_join d B)).
Proof.
  induction 1 as [|B ks HB Hks IH]; intros w Hat.
  - exists w. cbn [for_each existsb]. splits; auto.
    exists []. rewrite app_nil_r. split; [reflexivity|intros c []].
  - cbn [for_each]. unfold bind.
    destruct (lookup (root w) (p ++ [B])) as [n|] eqn:HlB.
    + rewrite (create_folder_present w d B p (proj1 Hat) HB) by congruence.
      destruct (IH w Hat) as (w' & Hrun & Hat' & Hcwd & Hkeep & Hnew & new & Hcalls & Hc).
      exists w'. splits; try assumption.
      * intros x Hx. rewrite (Hnew x Hx). cbn [existsb].
        destruct (String.eqb_spec x B) as [->|]; [congruence|reflexivity].
      * exists new. split; [assumption|].
        intros c Hin. destruct (Hc c Hin) as (B' & HB' & Habs & ->).
        exists B'. repeat split; [now right|assumption].
    + destruct (create_folder_absent w d B p Hat HB HlB) as (r' & Halt & Hrun1).
      rewrite Hrun1.
      set (w1 := mkWorld r' (cwd w) _ _).
      assert (Hdirs : forall q, is_dir (lookup (root w) q) = true ->
                                is_dir (lookup (root w1) q) = true).
      { intros q. apply (alter_keeps_dirs _ _ _ _ _ Halt). now rewrite HlB. }
      assert (Hat1 : at_dir d p w1) by (now apply at_dir_stable with (w := w)).
      destruct (IH w1 Hat1) as (w' & Hrun & Hat' & Hcwd & Hkeep & Hnew & new & Hcalls & Hc).
      exists w'. splits; try assumption.
      * intros x s Hx.
        assert (HxB : x <> B) by congruence.
        assert (E : lookup (root w1) (p ++ x :: s) = lookup (root w) (p ++ x :: s)).
        { apply (alter_lookup_apart _ _ _ _ _ Halt).
          - apply (apart_entries p B x [] s). congruence.
          - now apply (apart_entries p x B s []). }
        rewrite <- E. apply Hkeep.
        rewrite <- (alter_lookup_apart _ _ _ (p ++ [x]) _ Halt) in Hx;
          [exact Hx| |].
        -- apply (apart_entries p B x [] []). congruence.
        -- now apply (apart_entries p x B [] []).
      * intros x Hx. cbn [existsb].
        destruct (String.eqb_spec x B) as [->|HxB]; cbn [orb].
        -- rewrite (Hkeep B []); change (root w1) with r'.
           ++ now rewrite (alter_lookup_at _ _ _ _ Halt).
           ++ rewrite (alter_lookup_at _ _ _ _ Halt). discriminate.
        -- apply Hnew. change (root w1) with r'.
           rewrite (alter_lookup_apart _ _ _ (p ++ [x]) _ Halt); [exact Hx| |].
           ++ apply (apart_entries p B x [] []). congruence.
           ++ now apply (apart_entries p x B [] []).
      * exists (Makedirs (os_path_join d B) :: new). split.
        -- rewrite Hcalls. unfold w1. cbn [calls]. now rewrite <- app_assoc.
        -- intros c [<-|Hin].
           ++ exists B. repeat split; [now left|assumption].
           ++ destruct (Hc c Hin) as (B' & HB' & Habs & ->).
              exists B'. repeat split; [now right|].
              destruct (String.eqb_spec B' B) as [->|HB'B]; [assumption|].
              change (root w1) with r' in Habs.
              rewrite (alter_lookup_apart _ _ _ (p ++ [B']) _ Halt) in Habs;
                [exact Habs| |].
              ** apply (apart_entries p B B' [] []). congruence.
              ** now apply (apart_entries p B' B [] []).
Qed.

(** What a move that succeeds does to the tree. *)
Lemma move_root_effect (r r2 : node) (p : path) (B f : string) :
  move_root r p B f = Some r2 ->
  exists data t,
    lookup r (p ++ [f]) = Some (File data) /\
    (t = [f] \/ t = [f; f]) /\
    f <> B /\ is_dir (lookup r (p ++ [B])) = true /\
    is_dir (lookup r (p ++ B :: t)) = false /\
    exists r1, alter r (p ++ [f]) None = Some r1 /\
               alter r1 (p ++ B :: t) (Some (File data)) = Some r2.
Proof.
  unfold move_root, move_dest. intros H.
  destruct (lookup r (p ++ [f])) as [[data|es]|] eqn:Hsrc; try discriminate.
  destruct (is_dir (lookup r (p ++ [B; f]))) eqn:Hbf.
  - destruct (lookup r (p ++ [B; f; f])) as [n|] eqn:H3; [discriminate|].
    cbn [is_some] in H.
    assert (HBd : is_dir (lookup r (p ++ [B])) = true).
    { apply lookup_two with (f := f).
      destruct (lookup r (p ++ [B; f])); [congruence|discriminate]. }
    destruct (alter r (p ++ [f]) None) as [r1|] eqn:H1; [|discriminate].
    exists data, [f; f]. splits; auto.
    + intros ->. rewrite Hsrc in HBd. discriminate.
    + now rewrite H3.
    + now exists r1.
  - destruct (is_dir (lookup r (p ++ [B]))) eqn:HBd; [|discriminate].
    destruct (alter r (p ++ [f]) None) as [r1|] eqn:H1; [|discriminate].
    exists data, [f]. splits; auto.
    + intros ->. rewrite Hsrc in HBd. discriminate.
    + now exists r1.
Qed.

Lemma move_root_frame (r r2 : node) (p : path) (B f : string) :
  move_root r p B f = Some r2 ->
  (forall q, is_dir (lookup r q) = true -> is_dir (lookup r2 q) = true) /\
  (forall x s, x <> B -> x <> f ->
     lookup r2 (p ++ x :: s) = lookup r (p ++ x :: s)) /\
  lookup r2 (p ++ [f]) = None /\
  (forall x, is_dir (lookup r2 (p ++ [x])) = is_dir (lookup r (p ++ [x]))) /\
  (forall q data', lookup r q = Some (File data') ->
     is_prefix (p ++ [f]) q = false ->
     is_prefix (p ++ [B; f]) q = false ->
     lookup r2 q = Some (File data')).
Proof.
  intros H.
  destruct (move_root_effect r r2 p B f H)
    as (data & t & Hsrc & Ht & HfB & HBd & Hdest & r1 & H1 & H2).
  assert (Hdest1 : lookup r1 (p ++ B :: t) = lookup r (p ++ B :: t)).
  { apply (alter_lookup_apart _ _ _ _ _ H1).
    - now apply (apart_entries p f B [] t).
    - apply (apart_entries p B f t []). congruence. }
  assert (Hdirs : forall q, is_dir (lookup r q) = true -> is_dir (lookup r2 q) = true).
  { intros q Hq. apply (alter_keeps_dirs _ _ _ _ _ H2); [now rewrite Hdest1|].
    apply (alter_keeps_dirs _ _ _ _ _ H1); [now rewrite Hsrc|assumption]. }
  assert (Hother : forall x s, x <> B -> x <> f ->
            lookup r2 (p ++ x :: s) = lookup r (p ++ x :: s)).
  { intros x s HxB Hxf.
    rewrite (alter_lookup_apart _ _ _ (p ++ x :: s) _ H2).
    - apply (alter_lookup_apart _ _ _ _ _ H1).
      + apply (apart_entries p f x [] s). congruence.
      + now apply (apart_entries p x f s []).
    - apply (apart_entries p B x t s). congruence.
    - now apply (apart_entries p x B s t). }
  assert (Hgone : lookup r2 (p ++ [f]) = None).
  { rewrite (alter_lookup_apart _ _ _ (p ++ [f]) _ H2).
    - apply (alter_lookup_at _ _ _ _ H1).
    - apply (apart_entries p B f t []). congruence.
    - now apply (apart_entries p f B [] t). }
  splits; try assumption.
  - intros x. destruct (String.eqb_spec x f) as [->|Hxf].
    + now rewrite Hgone, Hsrc.
    + destruct (String.eqb_spec x B) as [->|HxB].
      * now rewrite HBd, (Hdirs _ HBd).
      * now rewrite (Hother x [] HxB Hxf).
  - intros q data' Hq Hp1 Hp2.
    apply (alter_keeps_files _ _ _ _ _ _ H2).
    + destruct Ht as [->| ->]; [exact Hp2|].
      destruct (is_prefix (p ++ [B; f; f]) q) eqn:E; [|reflexivity].
      apply is_prefix_spec in E. destruct E as [s ->].
      rewrite <- Hp2. replace (p ++ [B; f; f]) with ((p ++ [B; f]) ++ [f])
        by (now rewrite <- app_assoc).
      rewrite <- app_assoc. symmetry. apply is_prefix_app.
    + now apply (alter_keeps_files _ _ _ _ _ _ H1).
Qed.

(** A move leaves the other entries of the folder it moves into. *)
Lemma move_root_inside (r r2 : node) (p : path) (B f y : string) (s : path) :
  move_root r p B f = Some r2 -> y <> f ->
  lookup r2 (p ++ B :: y :: s) = lookup r (p ++ B :: y :: s).
Proof.
  intros H Hy.
  destruct (move_root_effect r r2 p B f H)
    as (data & t & Hsrc & Ht & HfB & HBd & Hdest & r1 & H1 & H2).
  assert (Ht' : exists t', t = f :: t') by (destruct Ht as [-> | ->]; eauto).
  destruct Ht' as [t' ->].
  rewrite (alter_lookup_apart _ _ _ (p ++ B :: y :: s) _ H2).
  - apply (alter_lookup_apart _ _ _ _ _ H1).
    + now apply (apart_entries p f B [] (y :: s)).
    + apply (apart_entries p B f (y :: s) []). congruence.
  - rewrite is_prefix_cancel. cbn [is_prefix]. rewrite String.eqb_refl.
    apply String.eqb_neq in Hy. rewrite String.eqb_sym in Hy. now rewrite Hy.
  - rewrite is_prefix_cancel. cbn [is_prefix]. rewrite String.eqb_refl.
    apply String.eqb_neq in Hy. now rewrite Hy.
Qed.

(** A regular file can be moved into a folder where its place is free. *)
Lemma move_root_defined (r : node) (p : path) (B f data : string) :
  lookup r (p ++ [f]) = Some (File data) ->
  is_dir (lookup r (p ++ [B])) = true ->
  free_place r p B f = true ->
  exists r2, move_root r p B f = Some r2.
Proof.
  intros Hsrc HBd Hfree. unfold move_root, move_dest. rewrite Hsrc.
  assert (Hp : is_dir (lookup r p) = true).
  { apply lookup_prefix_dir with (s := [f]); [congruence|discriminate]. }
  destruct (alter_defined r p f None Hp) as [r1 H1].
  assert (Hdirs : forall q, is_dir (lookup r q) = true -> is_dir (lookup r1 q) = true).
  { intros q. apply (alter_keeps_dirs _ _ _ _ _ H1). now rewrite Hsrc. }
  unfold free_place in Hfree.
  destruct (is_dir (lookup r (p ++ [B; f]))) eqn:Hbf.
  - apply negb_true_iff in Hfree. rewrite Hfree, H1.
    replace (p ++ [B; f; f]) with ((p ++ [B; f]) ++ [f])
      by (now rewrite <- app_assoc).
    apply alter_defined. now apply Hdirs.
  - rewrite HBd, H1.
    replace (p ++ [B; f]) with ((p ++ [B]) ++ [f]) by (now rewrite <- app_assoc).
    apply alter_defined. now apply Hdirs.
Qed.

(** One move of step 3, whatever its outcome. *)
Lemma move_step (w : world) (d B f : string) (p : path) :
  at_dir d p w -> valid_name B = true -> valid_name f = true ->
  is_dir (lookup (root w) (p ++ [f])) = false ->
  exists res w',
    move_one d (B, f) w = (res, w') /\
    cwd w' = cwd w /\
    calls w' =
      calls w ++ [Move (os_path_join d f) (os_path_join (os_path_join d B) f)] /\
    ((exists e, res = Raise e) /\ root w' = root w /\ stdout w' = stdout w
     \/ res = Ok tt /\ move_root (root w) p B f = Some (root w')).
Proof.
  intros Hat HB Hf Hnd.
  pose proof (move_one_spec w d B f p Hat HB Hf Hnd) as H. cbv zeta in H.
  destruct (move_root (root w) p B f) as [r2|].
  - eexists _, _. split; [exact H|]. splits; try reflexivity. now right.
  - destruct H as [e H].
    eexists _, _. split; [exact H|]. splits; try reflexivity.
    left. splits; eauto.
Qed.

Section MovePhase.

Variables (d : string) (p : path) (w0 : world) (ms : list (string * string)).

Hypothesis ms_ok : forall B f, In (B, f) ms ->
  valid_name B = true /\ valid_name f = true /\
  is_dir (lookup (root w0) (p ++ [f])) = false.

Lemma moving_start : at_dir d p w0 -> moving d p w0 w0.
Proof. intros H. split; [assumption|]. split; reflexivity. Qed.

(** One move keeps the run where it is. *)
Lemma moving_step (w : world) (B f : string) :
  In (B, f) ms -> moving d p w0 w ->
  moving d p w0 (snd (move_one d (B, f) w)).
Proof.
  intros Hin (Hat & Hcwd & Hfrozen).
  destruct (ms_ok B f Hin) as (HB & Hf & Hnd).
  rewrite <- Hfrozen in Hnd.
  destruct (move_step w d B f p Hat HB Hf Hnd)
    as (res & w' & Hrun & Hcwd' & _ & [(_ & Hroot & _)|(_ & Hroot)]);
    rewrite Hrun; cbn [snd].
  - unfold moving. splits.
    + apply at_dir_stable with (w := w); [assumption| |assumption].
      now rewrite Hroot.
    + congruence.
    + intros x. now rewrite Hroot.
  - destruct (move_root_frame _ _ _ _ _ Hroot) as (Hdirs & _ & _ & Hsame & _).
    unfold moving. splits.
    + now apply at_dir_stable with (w := w).
    + congruence.
    + intros x. now rewrite Hsame.
Qed.

Lemma in_suffix {A} (x : A) (xs ys : list A) : In x ys -> In x (xs ++ ys).
Proof. intros H. apply in_or_app. now right. Qed.

(** The moves change nothing at an entry that is neither a base name nor
    a file of theirs, however they end; and they are the only calls. *)
Lemma move_phase_frame (h : string) (w : world) :
  (forall B f, In (B, f) ms -> h <> B /\ h <> f) ->
  moving d p w0 w ->
  let w' := snd (for_each (move_one d) ms w) in
  moving d p w0 w' /\
  (forall s, lookup (root w') (p ++ h :: s) = lookup (root w) (p ++ h :: s)) /\
  exists new, calls w' = calls w ++ new /\
    forall c, In c new ->
      exists B f, In (B, f) ms /\
        c = Move (os_path_join d f) (os_path_join (os_path_join d B) f).
Proof.
  intros Hh Hmov.
  apply (for_each_invariant
    (fun w' =>
       moving d p w0 w' /\
       (forall s, lookup (root w') (p ++ h :: s) = lookup (root w) (p ++ h :: s)) /\
       exists new, calls w' = calls w ++ new /\
         forall c, In c new ->
           exists B f, In (B, f) ms /\
             c = Move (os_path_join d f) (os_path_join (os_path_join d B) f))).
  - intros [B f] w1 Hin (Hmov1 & Hsame & new & Hcalls & Hnew).
    pose proof (moving_step w1 B f Hin Hmov1) as Hmov2.
    destruct (ms_ok B f Hin) as (HB & Hf & Hnd).
    destruct Hmov1 as (Hat & Hcwd & Hfrozen). rewrite <- Hfrozen in Hnd.
    destruct (move_step w1 d B f p Hat HB Hf Hnd)
      as (res & w2 & Hrun & _ & Hcalls2 & Hcase).
    rewrite Hrun in *. cbn [snd] in *. splits; [assumption| |].
    + intros s. rewrite <- Hsame.
      destruct Hcase as [(_ & Hroot & _)|(_ & Hroot)]; [now rewrite Hroot|].
      destruct (move_root_frame _ _ _ _ _ Hroot) as (_ & Hother & _).
      destruct (Hh B f Hin). now apply Hother.
    + exists (new ++ [Move (os_path_join d f) (os_path_join (os_path_join d B) f)]).
      split; [rewrite Hcalls2, Hcalls; now rewrite app_assoc|].
      intros c Hc. apply in_app_or in Hc. destruct Hc as [Hc|[<-|[]]]; [auto|].
      now exists B, f.
  - splits; [assumption|reflexivity|].
    exists []. split; [now rewrite app_nil_r|intros c []].
Qed.

(** The calls of the moves, however they end. *)
Lemma move_phase_calls (w : world) :
  moving d p w0 w ->
  moving d p w0 (snd (for_each (move_one d) ms w)) /\
  exists new, calls (snd (for_each (move_one d) ms w)) = calls w ++ new /\
    forall c, In c new ->
      exists B f, In (B, f) ms /\
        c = Move (os_path_join d f) (os_path_join (os_path_join d B) f).
Proof.
  intros Hmov.
  apply (for_each_invariant
    (fun w' =>
       moving d p w0 w' /\
       exists new, calls w' = calls w ++ new /\
         forall c, In c new ->
           exists B f, In (B, f) ms /\
             c = Move (os_path_join d f) (os_path_join (os_path_join d B) f))).
  - intros [B f] w1 Hin (Hmov1 & new & Hcalls & Hnew).
    pose proof (moving_step w1 B f Hin Hmov1) as Hmov2.
    destruct (ms_ok B f Hin) as (HB & Hf & Hnd).
    destruct Hmov1 as (Hat & Hcwd & Hfrozen). rewrite <- Hfrozen in Hnd.
    destruct (move_step w1 d B f p Hat HB Hf Hnd)
      as (res & w2 & Hrun & _ & Hcalls2 & _).
    rewrite Hrun in *. cbn [snd] in *. split; [assumption|].
    exists (new ++ [Move (os_path_join d f) (os_path_join (os_path_join d B) f)]).
    split; [rewrite Hcalls2, Hcalls; now rewrite app_assoc|].
    intros c Hc. apply in_app_or in Hc. destruct Hc as [Hc|[<-|[]]]; [auto|].
    now exists B, f.
  - split; [assumption|].
    exists []. split; [now rewrite app_nil_r|intros c []].
Qed.

(** The moves that all return: every file is moved, and the directory
    has no entry it did not have, nor any of the files moved. *)
Lemma move_phase_returns (w' : world) :
  NoDup (map snd ms) -> at_dir d p w0 ->
  for_each (move_one d) ms w0 = (Ok tt, w') ->
  moving d p w0 w' /\
  (forall B f, In (B, f) ms -> moved p w0 w' B f) /\
  (forall x, lookup (root w') (p ++ [x]) <> None ->
     lookup (root w0) (p ++ [x]) <> None /\ ~ In x (map snd ms)).
Proof.
  intros Hnd0 Hat0 Hrun.
  set (I := fun (rem : list (string * string)) (w : world) =>
    moving d p w0 w /\ NoDup (map snd rem) /\
    (forall B f, In (B, f) rem ->
       In (B, f) ms /\ lookup (root w) (p ++ [f]) = lookup (root w0) (p ++ [f])) /\
    (forall B f, In (B, f) ms -> In (B, f) rem \/ moved p w0 w B f) /\
    (forall x, lookup (root w) (p ++ [x]) <> None ->
       lookup (root w0) (p ++ [x]) <> None /\
       (In x (map snd ms) -> In x (map snd rem)))).
  assert (Hend : I [] w').
  { apply (for_each_returns I (move_one d) ms) with (w := w0); [|  |exact Hrun].
    - clear w' Hrun. intros [B f] rest w w' (Hmov & Hnd & Hrem & Hdone & Hpres) Hrun.
      pose proof (moving_step w B f (proj1 (Hrem B f (or_introl eq_refl))) Hmov) as Hmov'.
      rewrite Hrun in Hmov'. cbn [snd] in Hmov'.
      destruct (Hrem B f (or_introl eq_refl)) as [Hin Hf0].
      destruct (ms_ok B f Hin) as (HB & Hf & Hndir).
      destruct Hmov as (Hat & Hcwd & Hfrozen).
      assert (Hndir' : is_dir (lookup (root w) (p ++ [f])) = false)
        by (now rewrite Hfrozen).
      destruct (move_step w d B f p Hat HB Hf Hndir')
        as (res & w2 & Hrun2 & _ & _ & Hcase).
      rewrite Hrun in Hrun2. injection Hrun2 as <- <-.
      destruct Hcase as [([e He] & _)|(_ & Hroot)]; [discriminate|].
      destruct (move_root_frame _ _ _ _ _ Hroot)
        as (Hdirs & Hother & Hgone & Hsame & Hfiles).
      destruct (move_root_effect _ _ _ _ _ Hroot)
        as (data & t & Hsrc & Ht & HfB & HBd & Hdest & r1 & H1 & H2).
      cbn [map snd] in Hnd. apply NoDup_cons_iff in Hnd. destruct Hnd as [Hfresh Hnd].
      unfold I. splits; try assumption.
      + intros B' f' Hin'. destruct (Hrem B' f' (or_intror Hin')) as [Hms' Hf'].
        split; [assumption|]. rewrite <- Hf'. apply (Hother f' []).
        * intros ->. destruct (ms_ok _ _ Hms') as (_ & _ & Hnd').
          rewrite <- Hf', HBd in Hnd'. discriminate.
        * intros ->. apply Hfresh. apply in_map_iff. now exists (B', f).
      + intros B' f' Hms'. destruct (Hdone B' f' Hms') as [[E|Hin']|Hmoved].
        * injection E as <- <-. right. exists data. splits.
          -- now rewrite <- Hf0.
          -- exact Hgone.
          -- pose proof (alter_lookup_at _ _ _ _ H2) as Hat2.
             destruct Ht as [-> | ->]; [now left|now right].
        * now left.
        * right. destruct Hmoved as (data' & H0 & Hnone & Hloc).
          assert (Hf'f : f' <> f) by (intros ->; congruence).
          exists data'. splits; [assumption| |].
          -- rewrite <- Hnone. apply (Hother f' []); [|assumption].
             intros ->. rewrite Hnone in HBd. discriminate.
          -- assert (HB'f : forall t', lookup (root w) (p ++ B' :: t') <> None ->
                       t' <> [] -> f <> B').
             { intros t' Hsome Ht' ->.
               assert (Hd : is_dir (lookup (root w) (p ++ [B'])) = true).
               { apply lookup_prefix_dir with (s := t'); [|assumption].
                 now rewrite <- app_assoc. }
               rewrite Hsrc in Hd. discriminate. }
             destruct Hloc as [Hloc|Hloc]; [left|right];
               apply Hfiles; try assumption.
             ++ apply (apart_entries p f B' [] [f']).
                apply (HB'f [f']); [congruence|discriminate].
             ++ rewrite is_prefix_cancel. cbn [is_prefix].
                destruct (String.eqb_spec f f') as [->|]; [congruence|].
                now rewrite andb_false_r.
             ++ apply (apart_entries p f B' [] [f'; f']).
                apply (HB'f [f'; f']); [congruence|discriminate].
             ++ rewrite is_prefix_cancel. cbn [is_prefix].
                destruct (String.eqb_spec f f') as [->|]; [congruence|].
                now rewrite andb_false_r.
      + intros x Hx.
        assert (Hxf : x <> f) by (intros ->; congruence).
        assert (Hxw : lookup (root w) (p ++ [x]) <> None).
        { destruct (String.eqb_spec x B) as [->|HxB].
          - intros E. rewrite E in HBd. discriminate.
          - now rewrite <- (Hother x [] HxB Hxf). }
        destruct (Hpres x Hxw) as [Hx0 Hxin]. split; [assumption|].
        intros Hmsx. destruct (Hxin Hmsx) as [E|Hin']; [|assumption].
        cbn [snd] in E. congruence.
    - unfold I. splits.
      + now apply moving_start.
      + assumption.
      + auto.
      + auto.
      + auto. }
  destruct Hend as (Hmov & _ & _ & Hdone & Hpres).
  splits; [assumption| |].
  - intros B f Hin. destruct (Hdone B f Hin) as [[]|H]. exact H.
  - intros x Hx. destruct (Hpres x Hx) as [H0 Hin]. split; [assumption|].
    intros H. exact (Hin H).
Qed.

(** The moves all return when every file is there, every folder is
    there, and every place is free. *)
Lemma move_phase_succeeds :
  NoDup (map snd ms) -> at_dir d p w0 ->
  (forall B f, In (B, f) ms ->
     (exists data, lookup (root w0) (p ++ [f]) = Some (File data)) /\
     is_dir (lookup (root w0) (p ++ [B])) = true /\
     free_place (root w0) p B f = true) ->
  exists w', for_each (move_one d) ms w0 = (Ok tt, w').
Proof.
  intros Hnd0 Hat0 Hfree0.
  assert (G : forall rem w,
    (forall m, In m rem -> In m ms) -> NoDup (map snd rem) ->
    moving d p w0 w ->
    (forall B f, In (B, f) rem ->
       lookup (root w) (p ++ [f]) = lookup (root w0) (p ++ [f]) /\
       lookup (root w) (p ++ [B; f]) = lookup (root w0) (p ++ [B; f]) /\
       lookup (root w) (p ++ [B; f; f]) = lookup (root w0) (p ++ [B; f; f])) ->
    exists w', for_each (move_one d) rem w = (Ok tt, w')).
  { induction rem as [|[B f] rest IH]; intros w Hsub Hnd Hmov Hsame.
    - now exists w.
    - pose proof (Hsub _ (or_introl eq_refl)) as Hin.
      destruct (ms_ok B f Hin) as (HB & Hf & Hndir).
      destruct (Hfree0 B f Hin) as ([data Hdata] & HBd0 & Hfree).
      destruct (Hsame B f (or_introl eq_refl)) as (E1 & E2 & E3).
      pose proof Hmov as (Hat & Hcwd & Hfrozen).
      assert (HBd : is_dir (lookup (root w) (p ++ [B])) = true)
        by (now rewrite Hfrozen).
      assert (Hsrc : lookup (root w) (p ++ [f]) = Some (File data))
        by congruence.
      assert (Hfree' : free_place (root w) p B f = true).
      { unfold free_place in *. now rewrite E2, E3. }
      destruct (move_root_defined _ _ _ _ _ Hsrc HBd Hfree') as [r2 Hr2].
      assert (Hndir' : is_dir (lookup (root w) (p ++ [f])) = false)
        by (now rewrite Hsrc).
      pose proof (move_one_spec w d B f p Hat HB Hf Hndir') as Hspec.
      cbv zeta in Hspec. rewrite Hr2 in Hspec.
      pose proof (moving_step w B f Hin Hmov) as Hmov'.
      rewrite Hspec in Hmov'. cbn [snd] in Hmov'.
      cbn [for_each]. unfold bind. rewrite Hspec.
      cbn [map snd] in Hnd. apply NoDup_cons_iff in Hnd. destruct Hnd as [Hfresh Hnd].
      destruct (move_root_frame _ _ _ _ _ Hr2) as (Hdirs & Hother & _).
      apply IH; try assumption.
      + intros m Hm. apply Hsub. now right.
      + intros B' f' Hin'. cbn [root].
        destruct (Hsame B' f' (or_intror Hin')) as (E1' & E2' & E3').
        pose proof (Hsub _ (or_intror Hin')) as Hms'.
        destruct (Hfree0 B' f' Hms') as ([data' Hdata'] & HBd0' & _).
        assert (Hf'f : f' <> f).
        { intros ->. apply Hfresh. apply in_map_iff. now exists (B', f). }
        assert (Hf'B : f' <> B).
        { intros ->. rewrite <- E1' in Hdata'. rewrite Hdata' in HBd. discriminate. }
        assert (HB'f : B' <> f).
        { intros ->. rewrite <- Hfrozen, Hsrc in HBd0'. discriminate. }
        splits.
        * rewrite <- E1'. now apply (Hother f' []).
        * rewrite <- E2'. destruct (String.eqb_spec B' B) as [->|HB'B].
          -- now apply (move_root_inside _ _ _ _ _ f' [] Hr2).
          -- now apply (Hother B' [f']).
        * rewrite <- E3'. destruct (String.eqb_spec B' B) as [->|HB'B].
          -- now apply (move_root_inside _ _ _ _ _ f' [f'] Hr2).
          -- now apply (Hother B' [f'; f']). }
  apply G; auto. now apply moving_start.
Qed.

End MovePhase.

Lemma existsb_eqb_in (x : string) (l : list string) :
  existsb (String.eqb x) l = true <-> In x l.
Proof.
  rewrite existsb_exists. split.
  - intros (y & Hy & E). apply String.eqb_eq in E. now subst.
  - intros H. exists x. split; [assumption|apply String.eqb_refl].
Qed.

Section Run.

Variables (d : string) (p : path) (es : list (string * node)) (w : world).

Hypothesis Htarget : target d p es w.

Let items := map fst es.
Let file_map := fst (scan_result d w items).

Lemma run_listdir : os_listdir d w = (Ok items, w).
Proof. destruct Htarget as (Hr & Hl & _). now apply listdir_at with (p := p). Qed.

(** What step 1 knows of a move of step 3. *)
Lemma run_move (B f : string) :
  In (B, f) (moves file_map) ->
  In f items /\ B = stem f /\
  valid_name f = true /\ hidden f = false /\
  valid_name B = true /\ hidden B = false /\
  lookup (root w) (p ++ [f]) <> None /\
  is_dir (lookup (root w) (p ++ [f])) = false.
Proof.
  intros H. apply scan_move_iff in H. destruct H as (Hin & Hsel & ->).
  destruct Htarget as (Hr & Hl & Hwf).
  pose proof (well_formed_valid es f Hwf Hin) as Hv.
  unfold is_file_item in Hsel. apply andb_true_iff in Hsel.
  destruct Hsel as [Hh Hd]. apply negb_true_iff in Hh, Hd.
  destruct (stem_valid f Hv Hh) as [HvB HhB].
  rewrite (isdir_join w d f p Hr Hv) in Hd.
  splits; try assumption; try reflexivity.
  now apply (entry_listed (root w) p es f Hl).
Qed.

Lemma run_key (B : string) :
  In B (keys file_map) -> exists f, In (B, f) (moves file_map).
Proof. intros H. apply (keys_moves _ _ (scan_groups d w items)). exact H. Qed.

Lemma run_keys_valid : Forall (fun B => valid_name B = true) (keys file_map).
Proof.
  apply Forall_forall. intros B HB. destruct (run_key B HB) as [f Hf].
  now destruct (run_move B f Hf) as (_ & _ & _ & _ & HvB & _).
Qed.

Lemma run_moves_nodup : NoDup (map snd (moves file_map)).
Proof.
  apply scan_moves_nodup. apply well_formed_nodup. now destruct Htarget as (_ & _ & ?).
Qed.

(** The run: step 2 returns, in a world [w2], and the outcome of the run
    is that of the moves of step 3 from [w2]. *)
Lemma run_shape :
  exists w2,
    create_folders d file_map w = (Ok tt, w2) /\
    create_and_move_files d w = for_each (move_one d) (moves file_map) w2 /\
    at_dir d p w2 /\ cwd w2 = cwd w /\
    (forall x s, lookup (root w) (p ++ [x]) <> None ->
       lookup (root w2) (p ++ x :: s) = lookup (root w) (p ++ x :: s)) /\
    (forall x, lookup (root w) (p ++ [x]) = None ->
       lookup (root w2) (p ++ [x]) =
         if existsb (String.eqb x) (keys file_map) then Some (Dir []) else None) /\
    (exists new, calls w2 = calls w ++ new /\
       forall c, In c new ->
         exists B, In B (keys file_map) /\ lookup (root w) (p ++ [B]) = None /\
                   c = Makedirs (os_path_join d B)) /\
    (forall B f, In (B, f) (moves file_map) ->
       valid_name B = true /\ valid_name f = true /\
       is_dir (lookup (root w2) (p ++ [f])) = false).
Proof.
  destruct (create_phase d p (keys file_map) run_keys_valid w
              (target_at_dir d p es w Htarget))
    as (w2 & Hrun & Hat & Hcwd & Hkeep & Hnew & Hcalls).
  exists w2. splits; try assumption.
  - rewrite create_and_move_files_steps, run_listdir. cbv zeta.
    fold items file_map. unfold create_folders at 1. now rewrite Hrun.
  - intros B f H.
    destruct (run_move B f H) as (_ & _ & Hvf & _ & HvB & _ & Hpres & Hnd).
    splits; try assumption. now rewrite (Hkeep f [] Hpres).
Qed.

Lemma run_move_key (B f : string) :
  In (B, f) (moves file_map) -> In B (keys file_map).
Proof.
  intros H. apply (keys_moves _ _ (scan_groups d w items)). now exists f.
Qed.

(** The run returns when no base name is the name of a regular file and
    every file has a free place in its folder. *)
Lemma run_returns :
  (forall B f, In (B, f) (moves file_map) ->
     (lookup (root w) (p ++ [B]) = None \/
      is_dir (lookup (root w) (p ++ [B])) = true) /\
     free_place (root w) p B f = true) ->
  exists w', create_and_move_files d w = (Ok tt, w').
Proof.
  intros Hfree.
  destruct run_shape
    as (w2 & _ & Hsteps & Hat2 & _ & Hkeep & Hnew & _ & Hok).
  rewrite Hsteps.
  apply (move_phase_succeeds d p w2 (moves file_map) Hok run_moves_nodup Hat2).
  intros B f Hm.
  destruct (run_move B f Hm) as (_ & _ & _ & _ & _ & _ & Hpres & Hnd).
  destruct (Hfree B f Hm) as [HB Hfp].
  splits.
  - rewrite (Hkeep f [] Hpres).
    destruct (lookup (root w) (p ++ [f])) as [[data|es']|];
      [now exists data|discriminate|congruence].
  - destruct HB as [HB|HB].
    + rewrite (Hnew B HB).
      replace (existsb (String.eqb B) (keys file_map)) with true; [reflexivity|].
      symmetry. apply existsb_eqb_in. now apply run_move_key with (f := f).
    + rewrite (Hkeep B []); [assumption|].
      intros E. rewrite E in HB. discriminate.
  - unfold free_place in *.
    destruct (lookup (root w) (p ++ [B])) as [n|] eqn:HlB.
    + assert (HBpres : lookup (root w) (p ++ [B]) <> None) by congruence.
      now rewrite (Hkeep B [f] HBpres), (Hkeep B [f; f] HBpres).
    + assert (E : lookup (root w2) (p ++ [B; f]) = None).
      { replace (p ++ [B; f]) with ((p ++ [B]) ++ [f]) by (now rewrite <- app_assoc).
        rewrite lookup_app, (Hnew B HlB).
        now destruct (existsb (String.eqb B) (keys file_map)). }
      now rewrite E.
Qed.

(** A run that raises did so in one move of step 3: the moves before it
    had returned and their files are in their folders, the failing move
    changed nothing, it is the last call, and the folders are there. *)
Lemma run_raises (e : exn) (w' : world) :
  create_and_move_files d w = (Raise e, w') ->
  exists w2 done m rest w3,
    create_folders d file_map w = (Ok tt, w2) /\
    moves file_map = done ++ m :: rest /\
    for_each (move_one d) done w2 = (Ok tt, w3) /\
    move_one d m w3 = (Raise e, w') /\
    root w' = root w3 /\ stdout w' = stdout w3 /\
    calls w' =
      calls w3 ++ [Move (os_path_join d (snd m))
                     (os_path_join (os_path_join d (fst m)) (snd m))] /\
    (forall x, is_dir (lookup (root w') (p ++ [x])) =
               is_dir (lookup (root w2) (p ++ [x]))) /\
    (forall B f, In (B, f) done -> moved p w2 w' B f) /\
    (forall x s, (forall B f, In (B, f) done -> x <> B /\ x <> f) ->
       lookup (root w') (p ++ x :: s) = lookup (root w2) (p ++ x :: s)).
Proof.
  intros Hrun.
  destruct run_shape
    as (w2 & Hcreate & Hsteps & Hat2 & _ & _ & _ & _ & Hok).
  rewrite Hsteps in Hrun.
  destruct (for_each_raise _ _ _ _ _ Hrun) as (done & m & rest & w3 & E & Hdone & Hm).
  assert (Hsub : forall m', In m' done -> In m' (moves file_map)).
  { intros m' H. rewrite E. apply in_or_app. now left. }
  assert (Hok' : forall B f, In (B, f) done ->
            valid_name B = true /\ valid_name f = true /\
            is_dir (lookup (root w2) (p ++ [f])) = false)
    by (intros B f H; apply Hok; now apply Hsub).
  assert (Hnd : NoDup (map snd done)).
  { pose proof run_moves_nodup as H. rewrite E, map_app in H.
    now apply NoDup_app_remove_r in H. }
  destruct (move_phase_returns d p w2 done Hok' w3 Hnd Hat2 Hdone)
    as (Hmov3 & Hmoved & _).
  destruct m as [B f].
  assert (Hin : In (B, f) (moves file_map)).
  { rewrite E. apply in_or_app. right. now left. }
  destruct (Hok B f Hin) as (HB & Hf & Hndir).
  destruct Hmov3 as (Hat3 & Hcwd3 & Hfrozen3).
  rewrite <- Hfrozen3 in Hndir.
  destruct (move_step w3 d B f p Hat3 HB Hf Hndir)
    as (res & w4 & Hrun4 & _ & Hcalls & Hcase).
  rewrite Hm in Hrun4. injection Hrun4 as <- <-.
  destruct Hcase as [(_ & Hroot & Hout)|(Habs & _)]; [|discriminate].
  exists w2, done, (B, f), rest, w3. cbn [fst snd].
  splits; try assumption.
  - intros x. now rewrite Hroot.
  - intros B' f' H'. destruct (Hmoved B' f' H') as (data & H0 & Hgone & Hloc).
    exists data. rewrite Hroot. auto.
  - intros x s Hx. rewrite Hroot.
    pose proof (moving_start d p w2 Hat2) as Hmov2.
    destruct (move_phase_frame d p w2 done Hok' x w2 Hx Hmov2) as (_ & Hframe & _).
    rewrite Hdone in Hframe. apply Hframe.
Qed.

End Run.

End RunFacts.

(* ===================================================================== *)
(** ** The stem of a file name *)
(* ===================================================================== *)

(** C7.  For a file name that is not hidden (and, being a name, holds no
    separator), step 1 computes the stem by removing only the final
    extension segment: a name without a dot is its own stem; a name
    [a.seg] whose [seg] has no dot has the stem [a], however many dots
    [a] has; the body of the loop appends a file of that name to the
    group of that stem; and in the grouping that step 1 returns for a
    listing that has the name, of a file, the name is in the group of
    its stem and in the group of no other key. *)
Theorem C7_stem_strips_final_extension (name : string) :
  hidden name = false -> contains name sep = false ->
  (contains name extsep = false -> stem name = name) /\
  (forall a seg, name = (a ++ "." ++ seg)%string ->
     contains seg extsep = false -> stem name = a) /\
  (forall W (os : OS W) directory (w : W) file_map folders,
     os_path_isdir (os_path_join directory name) w = false ->
     scan_item directory (file_map, folders) name w =
       (Ok (file_map_append (stem name) name file_map, folders), w)) /\
  (forall W (os : OS W) directory items (w w' : W) file_map folders,
     scan directory items w = (Ok (file_map, folders), w') ->
     In name items ->
     os_path_isdir (os_path_join directory name) w = false ->
     (exists files, In (stem name, files) file_map /\ In name files) /\
     (forall B files, In (B, files) file_map -> In name files ->
        B = stem name) /\
     ~ In name folders).
Proof.
  intros Hh Hs. splits.
  - intros Hd. unfold stem. now rewrite splitext_no_dot.
  - intros a seg -> Hseg. unfold stem.
    now rewrite (splitext_last_dot a seg Hh Hs Hseg).
  - intros W os directory w file_map folders Hd.
    rewrite scan_item_spec. unfold classify. now rewrite Hh, Hd.
  - intros W os directory items w w' file_map folders Hscan Hin Hd.
    apply scan_inv in Hscan. destruct Hscan as (-> & -> & _).
    assert (Hsel : is_file_item directory w name = true)
      by (unfold is_file_item; now rewrite Hh, Hd).
    splits.
    + apply in_moves. apply scan_move_iff. now splits.
    + intros B files Hg Hf.
      assert (Hm : In (B, name) (moves (fst (scan_result directory w items))))
        by (apply in_moves; eauto).
      apply scan_move_iff in Hm. now destruct Hm as (_ & _ & ->).
    + intros Hf. apply scan_folders in Hf. destruct Hf as (_ & _ & Hdir).
      congruence.
Qed.

Lemma C7_witness :
  stem "archive.tar.gz" = "archive.tar" /\ stem "README" = "README" /\
  exists file_map folders files,
    scan "." (map fst mixed_entries) mixed_world =
      (Ok (file_map, folders), mixed_world) /\
    In ("archive.tar", files) file_map /\ In "archive.tar.gz" files.
Proof.
  pose proof (C7_stem_strips_final_extension "archive.tar.gz" eq_refl eq_refl)
    as (_ & Hstem & _ & Hscan).
  assert (E : stem "archive.tar.gz" = "archive.tar")
    by (apply (Hstem "archive.tar" "gz"); reflexivity).
  splits.
  - exact E.
  - apply (proj1 (C7_stem_strips_final_extension "README" eq_refl eq_refl)).
    reflexivity.
  - destruct (Hscan world posix "." (map fst mixed_entries) mixed_world mixed_world
                [("a", ["a.txt"; "a.csv"]); ("archive.tar", ["archive.tar.gz"])]
                ["a"])
      as ((files & Hg & Hf) & _).
    + vm_compute. reflexivity.
    + vm_compute. auto 10.
    + vm_compute. reflexivity.
    + exists [("a", ["a.txt"; "a.csv"]); ("archive.tar", ["archive.tar.gz"])],
        ["a"], files.
      splits; [vm_compute; reflexivity| |exact Hf].
      rewrite <- E. exact Hg.
Defined.

(** C10.  A file name that is not hidden and ends with a bare dot, [a.],
    has the stem [a], not [a.]: step 1 strips the dot, and puts the file
    in the group of [a], together with a file [a.seg] such as [a.txt]. *)
Theorem C10_trailing_dot_is_stripped (a : string) :
  hidden (a ++ ".")%string = false -> contains a sep = false ->
  stem (a ++ ".")%string = a /\
  stem (a ++ ".")%string <> (a ++ ".")%string /\
  (forall seg, contains seg extsep = false -> contains seg sep = false ->
     stem (a ++ "." ++ seg)%string = stem (a ++ ".")%string) /\
  (forall W (os : OS W) directory (w : W) seg,
     contains seg extsep = false -> contains seg sep = false ->
     os_path_isdir (os_path_join directory (a ++ ".")%string) w = false ->
     os_path_isdir (os_path_join directory (a ++ "." ++ seg)%string) w = false ->
     scan directory [(a ++ ".")%string; (a ++ "." ++ seg)%string] w =
       (Ok ([(a, [(a ++ ".")%string; (a ++ "." ++ seg)%string])], []), w)).
Proof.
  intros Hh Hs.
  assert (Hsep : forall seg, contains seg sep = false ->
            contains (a ++ "." ++ seg)%string sep = false).
  { intros seg Hseg. rewrite contains_append, Hs. cbn [orb append contains].
    now rewrite Hseg. }
  assert (Hhid : forall seg, hidden (a ++ "." ++ seg)%string = false).
  { intros seg. unfold hidden in *. destruct a as [|x a]; [discriminate|].
    cbn [append] in *. now rewrite startswith_cons in *. }
  assert (Hstem : forall seg, contains seg extsep = false ->
            contains seg sep = false -> stem (a ++ "." ++ seg)%string = a).
  { intros seg Hd Hseg. unfold stem.
    now rewrite (splitext_last_dot a seg (Hhid seg) (Hsep seg Hseg) Hd). }
  assert (Hdot : stem (a ++ ".")%string = a) by (apply (Hstem ""); reflexivity).
  splits.
  - exact Hdot.
  - rewrite Hdot. intros E. apply (f_equal String.length) in E.
    rewrite length_append in E. simpl in E. lia.
  - intros seg Hd Hseg. now rewrite Hdot, Hstem.
  - intros W os directory w seg Hd Hseg Hf1 Hf2.
    rewrite scan_spec. f_equal. f_equal.
    unfold scan_result. cbn [fold_left]. unfold classify.
    rewrite Hh, Hf1, (Hhid seg), Hf2, Hdot, (Hstem seg Hd Hseg).
    cbn [fst snd file_map_append]. now rewrite String.eqb_refl.
Qed.

Lemma C10_witness :
  stem "foo." = "foo" /\ stem "foo.txt" = stem "foo.".
Proof.
  pose proof (C10_trailing_dot_is_stripped "foo" eq_refl eq_refl) as H.
  split.
  - exact (proj1 H).
  - apply (proj1 (proj2 (proj2 H)) "txt"); reflexivity.
Defined.

(* ===================================================================== *)
(** ** Faults *)
(* ===================================================================== *)

(** In every model of the library calls, a run that raises stopped at
    its first fault. *)
Lemma run_aborted {W} {os : OS W} (directory : string) (w w' : W) (e : exn) :
  create_and_move_files directory w = (Raise e, w') ->
  aborted directory w e w'.
Proof.
  rewrite create_and_move_files_steps. unfold aborted.
  destruct (os_listdir directory w) as [[items|e1] w1];
    [|intros H; left; now injection H as -> ->].
  cbv zeta. intros H. right.
  exists items, w1, (fst (scan_result directory w1 items)),
    (snd (scan_result directory w1 items)).
  split; [reflexivity|].
  split; [rewrite scan_spec; now destruct (scan_result directory w1 items)|].
  destruct (create_folders directory (fst (scan_result directory w1 items)) w1)
    as [[[]|e2] w2] eqn:Hcreate.
  - right. destruct (for_each_raise _ _ _ _ _ H) as (done & m & rest & w3 & E & Hd & Hm).
    exists w2, done, m, rest, w3. auto.
  - left. injection H as -> ->. unfold create_folders in Hcreate.
    destruct (for_each_raise _ _ _ _ _ Hcreate) as (done & k & rest & w3 & E & Hd & Hk).
    exists done, k, rest, w3. auto.
Qed.

(** C8.  When a run raises, it stopped at its first fault.

    In every model of the library calls: the exception is the one a
    single call raised (the listing, the making of one folder, or one
    move), the steps before that call had all returned, the world the
    run ends in is the one that call left behind, and no later step ran.

    In the file system model, on a well-formed directory: the fault is
    that of one move [m]; the moves before it returned; the failing move
    is the last call and changed neither the tree nor the output; every
    entry that was a folder when step 2 was done is still one; and every
    file moved before the fault is in its folder.  Nothing is rolled
    back. *)
Theorem C8_run_aborts_at_first_fault :
  (forall W (os : OS W) (directory : string) (w w' : W) (e : exn),
     create_and_move_files directory w = (Raise e, w') ->
     aborted directory w e w') /\
  (forall (d : string) (p : path) (es : list (string * node))
          (w w' : world) (e : exn) (file_map : file_map_t) (folders : folders_t),
     target d p es w ->
     scan d (map fst es) w = (Ok (file_map, folders), w) ->
     create_and_move_files d w = (Raise e, w') ->
     exists w2 done m rest w3,
       create_folders d file_map w = (Ok tt, w2) /\
       moves file_map = done ++ m :: rest /\
       for_each (move_one d) done w2 = (Ok tt, w3) /\
       move_one d m w3 = (Raise e, w') /\
       root w' = root w3 /\ stdout w' = stdout w3 /\
       calls w' =
         calls w3 ++ [Move (os_path_join d (snd m))
                        (os_path_join (os_path_join d (fst m)) (snd m))] /\
       (forall x, is_dir (lookup (root w') (p ++ [x])) =
                  is_dir (lookup (root w2) (p ++ [x]))) /\
       (forall B f, In (B, f) done -> moved p w2 w' B f)).
Proof.
  split.
  - intros W os. apply run_aborted.
  - intros d p es w w' e file_map folders Ht Hscan Hrun.
    apply scan_inv in Hscan. destruct Hscan as (-> & _ & _).
    destruct (run_raises d p es w Ht e w' Hrun)
      as (w2 & done & m & rest & w3 & H1 & H2 & H3 & H4 & H5 & H6 & H7 & H8 & H9 & _).
    exists w2, done, m, rest, w3. splits; assumption.
Qed.

Lemma C8_witness :
  aborted "." readme_world NotADirectoryError
    (mkWorld (root readme_world) ["home"] [] [Move "./README" "./README/README"])
  /\ exists w2 done m rest w3,
       create_folders "." [("a", ["a.txt"]); ("b", ["b"])] stray_world
         = (Ok tt, w2) /\
       [("a", "a.txt"); ("b", "b")] = done ++ m :: rest /\
       for_each (move_one ".") done w2 = (Ok tt, w3) /\
       root (snd (create_and_move_files "." stray_world)) = root w3.
Proof.
  split.
  - apply (proj1 C8_run_aborts_at_first_fault). vm_compute. reflexivity.
  - destruct (proj2 C8_run_aborts_at_first_fault "." ["home"]
                stray_entries stray_world
                (snd (create_and_move_files "." stray_world))
                NotADirectoryError [("a", ["a.txt"]); ("b", ["b"])] [])
      as (w2 & done & m & rest & w3 & H1 & H2 & H3 & H4 & H5 & _).
    + repeat split.
    + vm_compute. reflexivity.
    + vm_compute. reflexivity.
    + exists w2, done, m, rest, w3. auto.
Defined.

(* ===================================================================== *)
(** ** The entry point *)
(* ===================================================================== *)

(** C9, as the claim states it, fails: invoked with the argument [other]
    in the working directory [/work], the entry point does not organize
    [/work/other]. *)
Lemma C9_counterexample :
  main ["other"] two_directories <>
  create_and_move_files "other" two_directories.
Proof. intros H. vm_compute in H. discriminate H. Qed.

(** C9, amended.  The entry point reads no argument: with none, one or
    more arguments it calls [create_and_move_files] without an argument,
    so the directory is the parameter's default [.], which is the working
    directory.  Only the function has a directory parameter. *)
Theorem C9_main_organizes_working_directory :
  (forall W (os : OS W) (argv : list string) (w : W),
     main argv w = create_and_move_files "." w) /\
  (forall (w : world) (es : list (string * node)),
     lookup (root w) (cwd w) = Some (Dir es) ->
     at_dir "." (cwd w) w /\ os_listdir "." w = (Ok (map fst es), w)).
Proof.
  split; [reflexivity|].
  intros w es H.
  assert (Hr : resolve w "." = Some (cwd w)).
  { unfold resolve. cbn. now rewrite H. }
  split.
  - split; [exact Hr|now rewrite H].
  - now apply listdir_at with (p := cwd w).
Qed.

Lemma C9_witness :
  main ["other"] two_directories = create_and_move_files "." two_directories /\
  os_listdir "." two_directories = (Ok ["a.txt"; "other"], two_directories).
Proof.
  split.
  - apply (proj1 C9_main_organizes_working_directory).
  - apply (proj2 C9_main_organizes_working_directory two_directories
             [("a.txt", File "1"); ("other", Dir [("b.txt", File "2")])]).
    reflexivity.
Defined.

(* ===================================================================== *)
(** ** A file without an extension *)
(* ===================================================================== *)

(** A file without an extension that is not hidden: its stem is its own
    name, which is taken, so the run never returns, and the file is where
    it was at the fault, a regular file and not a folder. *)
Lemma file_without_extension_stays (d : string) (p : path)
  (es : list (string * node)) (w : world) (f : string) :
  target d p es w ->
  In f (map fst es) -> hidden f = false -> contains f extsep = false ->
  is_dir (lookup (root w) (p ++ [f])) = false ->
  exists e w',
    create_and_move_files d w = (Raise e, w') /\
    lookup (root w') (p ++ [f]) = lookup (root w) (p ++ [f]).
Proof.
  intros Ht Hin Hh Hdot Hnd.
  pose proof Ht as (Hr & Hl & Hwf).
  pose proof (well_formed_valid es f Hwf Hin) as Hv.
  set (file_map := fst (scan_result d w (map fst es))).
  assert (Hself : In (f, f) (moves file_map)).
  { apply scan_move_iff. splits; [assumption| |].
    - unfold is_file_item. now rewrite Hh, (isdir_join w d f p Hr Hv), Hnd.
    - unfold stem. now rewrite splitext_no_dot. }
  assert (Hnever : forall w0 w', ~ moved p w0 w' f f).
  { intros w0 w' (data & _ & Hgone & [Hloc|Hloc]).
    - replace (p ++ [f; f]) with ((p ++ [f]) ++ [f]) in Hloc
        by (now rewrite <- app_assoc).
      rewrite (lookup_none_below _ _ _ Hgone) in Hloc. discriminate.
    - replace (p ++ [f; f; f]) with ((p ++ [f]) ++ [f; f]) in Hloc
        by (now rewrite <- app_assoc).
      rewrite (lookup_none_below _ _ _ Hgone) in Hloc. discriminate. }
  destruct (run_shape d p es w Ht)
    as (w2 & Hcreate & Hsteps & Hat2 & _ & Hkeep & _ & _ & Hok).
  fold file_map in Hcreate, Hsteps, Hok.
  assert (Hpres : lookup (root w) (p ++ [f]) <> None)
    by (now apply (entry_listed (root w) p es f Hl)).
  rewrite Hsteps.
  destruct (for_each (move_one d) (moves file_map) w2) as [[[]|e] w'] eqn:Hrun.
  - exfalso.
    destruct (move_phase_returns d p w2 (moves file_map) Hok w'
                (run_moves_nodup d p es w Ht) Hat2 Hrun) as (_ & Hmoved & _).
    exact (Hnever _ _ (Hmoved f f Hself)).
  - exists e, w'. split; [reflexivity|].
    destruct (run_raises d p es w Ht e w' Hsteps)
      as (w2' & done & m & rest & w3 & Hc' & E & _ & _ & _ & _ & _ & Hfrozen & Hmoved & Hframe).
    fold file_map in Hc', E. rewrite Hcreate in Hc'. injection Hc' as <-.
    rewrite <- (Hkeep f [] Hpres). apply (Hframe f []).
    intros B' f' Hd.
    assert (Hms : In (B', f') (moves file_map)).
    { rewrite E. apply in_or_app. now left. }
    pose proof (Hmoved B' f' Hd) as Hmv.
    split.
    + intros <-. destruct Hmv as (data & _ & _ & Hloc).
      assert (Hdir : is_dir (lookup (root w') (p ++ [f])) = true).
      { destruct Hloc as [Hloc|Hloc].
        - apply lookup_two with (f := f'). congruence.
        - apply lookup_prefix_dir with (s := [f'; f']); [|discriminate].
          rewrite <- app_assoc. cbn [app]. congruence. }
      rewrite Hfrozen, (Hkeep f [] Hpres), Hnd in Hdir. discriminate.
    + intros <-.
      destruct (run_move d p es w Ht B' f Hms) as (_ & HB' & _).
      unfold stem in HB'. rewrite splitext_no_dot in HB' by assumption.
      cbn [fst] in HB'. subst B'. exact (Hnever _ _ Hmv).
Qed.

(** C2.  The run on a directory that holds the single file [README]:
    the name [README] is taken, by the file, so step 2 makes no folder;
    step 3 moves [./README] to [./README/README], which raises; the file
    stays where it was and there is no folder. *)
Theorem C2_file_without_extension_aborts :
  create_and_move_files "." readme_world =
    (Raise NotADirectoryError,
     mkWorld (root readme_world) ["home"] []
       [Move "./README" "./README/README"]).
Proof. reflexivity. Qed.

(* ===================================================================== *)
(** ** Step 2: the folders *)
(* ===================================================================== *)

(** C1, as the claim states it, fails: in the directory that holds the
    file [README], step 1 has the base name [README], step 2 completes,
    and [./README] is not a directory afterwards. *)
Lemma C1_counterexample :
  exists file_map folders w2,
    scan "." ["README"] readme_world = (Ok (file_map, folders), readme_world) /\
    create_folders "." file_map readme_world = (Ok tt, w2) /\
    In "README" (keys file_map) /\
    os_path_isdir (os_path_join "." "README") w2 = false.
Proof.
  exists [("README", ["README"])], [], readme_world. splits.
  - reflexivity.
  - reflexivity.
  - left. reflexivity.
  - reflexivity.
Qed.

(** C1, amended.  On a well-formed directory, with the grouping of step
    1, step 2 completes, in the world [w2] step 3 starts in, and for
    every base name [B] of the grouping the path [directory/B] exists in
    [w2].  It is a directory when it was one before step 2 or did not
    exist; an entry [B] that was a regular file before step 2 is left as
    it is. *)
Theorem C1_base_names_exist_after_step2 (d : string) (p : path)
  (es : list (string * node)) (w : world)
  (file_map : file_map_t) (folders : folders_t) :
  target d p es w ->
  scan d (map fst es) w = (Ok (file_map, folders), w) ->
  exists w2,
    create_folders d file_map w = (Ok tt, w2) /\
    create_and_move_files d w = move_files d file_map w2 /\
    forall B, In B (keys file_map) ->
      os_path_exists (os_path_join d B) w2 = true /\
      (os_path_exists (os_path_join d B) w = false \/
       os_path_isdir (os_path_join d B) w = true ->
       os_path_isdir (os_path_join d B) w2 = true) /\
      (forall data, node_at w (os_path_join d B) = Some (File data) ->
                    node_at w2 (os_path_join d B) = Some (File data)).
Proof.
  intros Ht Hscan. apply scan_inv in Hscan. destruct Hscan as (-> & _ & _).
  set (file_map := fst (scan_result d w (map fst es))).
  destruct (run_shape d p es w Ht)
    as (w2 & Hcreate & Hrun & Hat2 & Hcwd & Hkeep & Hnew & _).
  fold file_map in Hcreate, Hrun, Hnew.
  exists w2. splits; [assumption|now rewrite move_files_moves|].
  intros B HB.
  assert (HvB : valid_name B = true).
  { pose proof (run_keys_valid d p es w Ht) as Hv.
    rewrite Forall_forall in Hv. now apply Hv. }
  destruct Ht as (Hr & Hl & Hwf). destruct Hat2 as [Hr2 Hp2].
  rewrite !(exists_join w2 d B p Hr2 HvB), !(isdir_join w2 d B p Hr2 HvB).
  rewrite !(exists_join w d B p Hr HvB), !(isdir_join w d B p Hr HvB).
  rewrite !(node_at_join w d B p Hr HvB), !(node_at_join w2 d B p Hr2 HvB).
  destruct (lookup (root w) (p ++ [B])) as [n|] eqn:HlB.
  - rewrite (Hkeep B []) by congruence. rewrite HlB. splits.
    + reflexivity.
    + intros [H|H]; [discriminate|exact H].
    + auto.
  - rewrite (Hnew B HlB).
    replace (existsb (String.eqb B) (keys file_map)) with true
      by (symmetry; now apply existsb_eqb_in).
    splits; [reflexivity|reflexivity|discriminate].
Qed.

Lemma C1_witness :
  exists w2,
    create_folders "." [("a", ["a.txt"; "a.csv"]); ("archive.tar", ["archive.tar.gz"])]
      mixed_world = (Ok tt, w2) /\
    os_path_isdir (os_path_join "." "archive.tar") w2 = true /\
    os_path_isdir (os_path_join "." "a") w2 = true.
Proof.
  destruct (C1_base_names_exist_after_step2 "." ["home"] mixed_entries mixed_world
              [("a", ["a.txt"; "a.csv"]); ("archive.tar", ["archive.tar.gz"])]
              ["a"])
    as (w2 & Hcreate & _ & Hkeys).
  - repeat split.
  - vm_compute. reflexivity.
  - exists w2. split; [exact Hcreate|]. split.
    + apply (Hkeys "archive.tar"); [right; left; reflexivity|].
      left. vm_compute. reflexivity.
    + apply (Hkeys "a"); [left; reflexivity|].
      right. vm_compute. reflexivity.
Defined.

(* ===================================================================== *)
(** ** Hidden entries *)
(* ===================================================================== *)

(** C4.  A hidden entry [h] of a well-formed directory: step 1 puts it
    in no group and not among the folders, and no base name is [h]; and
    however the run ends, the entry and all that is below it are as they
    were, no folder was made for it and it was not moved. *)
Theorem C4_hidden_entries_untouched (d : string) (p : path)
  (es : list (string * node)) (w : world) (h : string)
  (file_map : file_map_t) (folders : folders_t) :
  target d p es w -> In h (map fst es) -> hidden h = true ->
  scan d (map fst es) w = (Ok (file_map, folders), w) ->
  ~ In h folders /\
  ~ In h (keys file_map) /\
  (forall B files, In (B, files) file_map -> ~ In h files) /\
  forall res w', create_and_move_files d w = (res, w') ->
    (forall s, lookup (root w') (p ++ h :: s) = lookup (root w) (p ++ h :: s)) /\
    exists new, calls w' = calls w ++ new /\
      ~ In (Makedirs (os_path_join d h)) new /\
      forall dst, ~ In (Move (os_path_join d h) dst) new.
Proof.
  intros Ht Hin Hh Hscan. apply scan_inv in Hscan. destruct Hscan as (-> & -> & _).
  set (file_map := fst (scan_result d w (map fst es))).
  assert (Hvh : valid_name h = true).
  { destruct Ht as (_ & _ & Hwf). now apply (well_formed_valid es). }
  assert (Hmoves : forall B f, In (B, f) (moves file_map) -> h <> B /\ h <> f).
  { intros B f Hm.
    destruct (run_move d p es w Ht B f Hm) as (_ & _ & _ & Hhf & _ & HhB & _).
    split; intros ->; congruence. }
  assert (Hkeys : ~ In h (keys file_map)).
  { intros Hk. destruct (run_key d es w h Hk) as [f Hf].
    now destruct (Hmoves h f Hf). }
  splits.
  - intros Hf. apply scan_folders in Hf. destruct Hf as (_ & Hf & _). congruence.
  - exact Hkeys.
  - intros B files Hg Hf.
    assert (Hm : In (B, h) (moves file_map)) by (apply in_moves; eauto).
    now destruct (Hmoves B h Hm).
  - intros res w' Hrun.
    destruct (run_shape d p es w Ht)
      as (w2 & _ & Hsteps & Hat2 & _ & Hkeep & _ & (new1 & Hcalls1 & Hnew1) & Hok).
    fold file_map in Hsteps, Hnew1, Hok.
    rewrite Hsteps in Hrun.
    pose proof (moving_start d p w2 Hat2) as Hmov.
    destruct (move_phase_frame d p w2 (moves file_map) Hok h w2 Hmoves Hmov)
      as (_ & Hframe & new2 & Hcalls2 & Hnew2).
    rewrite Hrun in Hframe, Hcalls2. cbn [snd] in Hframe, Hcalls2.
    split.
    + intros s. rewrite Hframe. apply Hkeep.
      destruct Ht as (_ & Hl & _). now apply (entry_listed (root w) p es h Hl).
    + exists (new1 ++ new2). splits.
      * now rewrite Hcalls2, Hcalls1, app_assoc.
      * intros Hc. apply in_app_or in Hc. destruct Hc as [Hc|Hc].
        -- destruct (Hnew1 _ Hc) as (B & HB & _ & E). injection E as E.
           apply join_inj in E; [congruence|assumption|].
           pose proof (run_keys_valid d p es w Ht) as Hv.
           rewrite Forall_forall in Hv. now apply Hv.
        -- destruct (Hnew2 _ Hc) as (B & f & _ & E). discriminate.
      * intros dst Hc. apply in_app_or in Hc. destruct Hc as [Hc|Hc].
        -- destruct (Hnew1 _ Hc) as (B & _ & _ & E). discriminate.
        -- destruct (Hnew2 _ Hc) as (B & f & Hm & E). injection E as E _.
           destruct (Hok B f Hm) as (_ & Hvf & _).
           apply join_inj in E; [|assumption|assumption].
           destruct (Hmoves B f Hm). congruence.
Qed.

Lemma C4_witness :
  lookup (root (snd (create_and_move_files "." mixed_world))) ["home"; ".git"; "config"]
  = Some (File "core").
Proof.
  destruct (C4_hidden_entries_untouched "." ["home"] mixed_entries mixed_world ".git"
              [("a", ["a.txt"; "a.csv"]); ("archive.tar", ["archive.tar.gz"])]
              ["a"])
    as (_ & _ & _ & H).
  - repeat split.
  - right. right. left. reflexivity.
  - reflexivity.
  - vm_compute. reflexivity.
  - destruct (H (fst (create_and_move_files "." mixed_world))
                (snd (create_and_move_files "." mixed_world))) as [Hsame _].
    + now destruct (create_and_move_files "." mixed_world).
    + apply (Hsame ["config"]).
Defined.

(* ===================================================================== *)
(** ** A second run *)
(* ===================================================================== *)

(** Step 1 groups nothing when no entry is a file to move. *)
Lemma scan_nothing {W} {os : OS W} (directory : string) (w : W)
  (items : list string) :
  (forall x, In x items -> is_file_item directory w x = false) ->
  fst (scan_result directory w items) = [].
Proof.
  unfold scan_result.
  assert (G : forall st,
    (forall x, In x items -> is_file_item directory w x = false) ->
    fst (fold_left (classify directory w) items st) = fst st).
  { induction items as [|item items IH]; intros st H; [reflexivity|].
    cbn [fold_left]. rewrite IH by (intros x Hx; apply H; now right).
    pose proof (H item (or_introl eq_refl)) as Hi.
    unfold classify, is_file_item in *.
    destruct (hidden item); [reflexivity|].
    destruct (os_path_isdir (os_path_join directory item) w);
      [reflexivity|discriminate]. }
  intros H. now rewrite G.
Qed.

(** C5.  After a run on a well-formed directory that returned, in the
    world [w'], a second run returns and leaves [w'] as it is: the tree,
    the output and the log of calls are the same, so no folder was made
    and no file was moved. *)
Theorem C5_second_run_is_noop (d : string) (p : path)
  (es : list (string * node)) (w w' : world) :
  target d p es w ->
  create_and_move_files d w = (Ok tt, w') ->
  create_and_move_files d w' = (Ok tt, w').
Proof.
  intros Ht Hrun.
  destruct (run_shape d p es w Ht)
    as (w2 & _ & Hsteps & Hat2 & _ & Hkeep & Hnew & _ & Hok).
  set (file_map := fst (scan_result d w (map fst es))) in *.
  rewrite Hsteps in Hrun.
  destruct (move_phase_returns d p w2 (moves file_map) Hok w'
              (run_moves_nodup d p es w Ht) Hat2 Hrun)
    as ((Hat' & _ & Hfrozen) & _ & Hpres).
  destruct Hat' as [Hr' Hp'].
  destruct (lookup (root w') p) as [[data|es']|] eqn:Hl'; try discriminate.
  rewrite create_and_move_files_steps, (listdir_at w' d p es' Hr' Hl').
  cbv zeta. rewrite scan_nothing; [reflexivity|].
  intros x Hx. apply (entry_listed (root w') p es' x Hl') in Hx.
  destruct (Hpres x Hx) as [Hx2 Hnot].
  destruct Ht as (Hr & Hl & Hwf).
  unfold is_file_item.
  destruct (hidden x) eqn:Hh; [reflexivity|]. cbn [negb andb].
  apply negb_false_iff.
  destruct (lookup (root w) (p ++ [x])) as [n|] eqn:Hlx.
  - assert (Hin : In x (map fst es))
      by (apply (entry_listed (root w) p es x Hl); congruence).
    pose proof (well_formed_valid es x Hwf Hin) as Hv.
    rewrite (isdir_join w' d x p Hr' Hv), Hfrozen, (Hkeep x []), Hlx by congruence.
    destruct (is_dir (Some n)) eqn:Hd; [reflexivity|].
    exfalso. apply Hnot. apply in_map_iff. exists (stem x, x).
    split; [reflexivity|]. apply scan_move_iff. splits; try reflexivity; [assumption|].
    unfold is_file_item. now rewrite Hh, (isdir_join w d x p Hr Hv), Hlx, Hd.
  - rewrite (Hnew x Hlx) in Hx2.
    destruct (existsb (String.eqb x) (keys file_map)) eqn:Hk; [|congruence].
    apply existsb_eqb_in in Hk.
    assert (Hv : valid_name x = true).
    { pose proof (run_keys_valid d p es w (conj Hr (conj Hl Hwf))) as Hall.
      rewrite Forall_forall in Hall. now apply Hall. }
    rewrite (isdir_join w' d x p Hr' Hv), Hfrozen, (Hnew x Hlx).
    replace (existsb (String.eqb x) (keys file_map)) with true
      by (symmetry; now apply existsb_eqb_in).
    reflexivity.
Qed.

Lemma C5_witness :
  create_and_move_files "."
    (snd (create_and_move_files "." (home (scenario_entries "t" "c" "l" [])))) =
  (Ok tt, snd (create_and_move_files "." (home (scenario_entries "t" "c" "l" [])))).
Proof.
  apply (C5_second_run_is_noop "." ["home"] (scenario_entries "t" "c" "l" [])
           (home (scenario_entries "t" "c" "l" []))).
  - repeat split.
  - vm_compute. reflexivity.
Defined.

(* ===================================================================== *)
(** ** A folder that is already there *)
(* ===================================================================== *)

(** C6, as the claim states it, fails: the directory holds the file
    [a.txt] and the folder [a], whose name is the base name of the file,
    and in the folder [a.txt] is a directory that has an entry [a.txt].
    Step 1 has the group of [a] with the file [a.txt], the folder is
    there before the run, and no folder is made; but the move raises,
    the file is where it was and the folder holds what it held: the file
    of the group is not moved into the folder. *)
Lemma C6_counterexample :
  target "." ["home"] collision_entries collision_world /\
  scan "." (map fst collision_entries) collision_world =
    (Ok ([("a", ["a.txt"])], ["a"]), collision_world) /\
  os_path_isdir (os_path_join "." "a") collision_world = true /\
  create_and_move_files "." collision_world =
    (Raise ShutilError,
     mkWorld (root collision_world) ["home"] [] [Move "./a.txt" "./a/a.txt"]) /\
  lookup (root collision_world) ["home"; "a.txt"] = Some (File "new") /\
  lookup (root collision_world) ["home"; "a"] =
    Some (Dir [("a.txt", Dir [("a.txt", File "old")])]).
Proof.
  splits; try (vm_compute; reflexivity). repeat split.
Qed.

(** C6, amended.  A folder [B] that is in a well-formed directory before the run
    and whose name is a base name of the grouping.  Step 2 on [B] returns
    without a call and without an error.  However the run ends, no
    [os.makedirs] was called for [B] and [B] is still the folder; when
    the run returns, every file [f] of the group of [B] has left the
    directory and lies in that folder (as [B/f], or as [B/f/f] when [B/f]
    is a directory).  And the run does return when no base name is the
    name of a regular file and every file has a free place in its
    folder. *)
Theorem C6_existing_folder_is_reused (d : string) (p : path)
  (es : list (string * node)) (w : world) (B : string)
  (file_map : file_map_t) (folders : folders_t) :
  target d p es w ->
  scan d (map fst es) w = (Ok (file_map, folders), w) ->
  os_path_isdir (os_path_join d B) w = true ->
  In B (keys file_map) ->
  create_folder d B w = (Ok tt, w) /\
  (forall res w', create_and_move_files d w = (res, w') ->
     (exists new, calls w' = calls w ++ new /\
        ~ In (Makedirs (os_path_join d B)) new) /\
     os_path_isdir (os_path_join d B) w' = true /\
     (res = Ok tt ->
      forall files f, In (B, files) file_map -> In f files ->
        exists data,
          lookup (root w) (p ++ [f]) = Some (File data) /\
          lookup (root w') (p ++ [f]) = None /\
          (lookup (root w') (p ++ [B; f]) = Some (File data) \/
           lookup (root w') (p ++ [B; f; f]) = Some (File data)))) /\
  ((forall B' files f', In (B', files) file_map -> In f' files ->
      (lookup (root w) (p ++ [B']) = None \/
       is_dir (lookup (root w) (p ++ [B'])) = true) /\
      free_place (root w) p B' f' = true) ->
   exists w', create_and_move_files d w = (Ok tt, w')).
Proof.
  intros Ht Hscan HBdir HBkey.
  apply scan_inv in Hscan. destruct Hscan as (-> & _ & _).
  set (file_map := fst (scan_result d w (map fst es))) in *.
  assert (Hvalid : forall k, In k (keys file_map) -> valid_name k = true).
  { pose proof (run_keys_valid d p es w Ht) as Hall.
    rewrite Forall_forall in Hall. exact Hall. }
  pose proof (Hvalid B HBkey) as HvB.
  pose proof Ht as (Hr & Hl & Hwf).
  rewrite (isdir_join w d B p Hr HvB) in HBdir.
  assert (HBw : lookup (root w) (p ++ [B]) <> None)
    by (intros E; rewrite E in HBdir; discriminate).
  splits.
  - now apply create_folder_present with (p := p).
  - intros res w' Hrun.
    destruct (run_shape d p es w Ht)
      as (w2 & _ & Hsteps & Hat2 & _ & Hkeep & _ & (new1 & Hcalls1 & Hnew1) & Hok).
    fold file_map in Hsteps, Hnew1, Hok.
    rewrite Hsteps in Hrun.
    pose proof (moving_start d p w2 Hat2) as Hmov.
    destruct (move_phase_calls d p w2 (moves file_map) Hok w2 Hmov)
      as ((Hat' & _ & Hfrozen) & new2 & Hcalls2 & Hnew2).
    rewrite Hrun in Hat', Hfrozen, Hcalls2. cbn [snd] in Hat', Hfrozen, Hcalls2.
    splits.
    + exists (new1 ++ new2). split; [now rewrite Hcalls2, Hcalls1, app_assoc|].
      intros Hc. apply in_app_or in Hc. destruct Hc as [Hc|Hc].
      * destruct (Hnew1 _ Hc) as (B' & HB' & Habs & E). injection E as E.
        apply join_inj in E; [congruence|assumption|now apply Hvalid].
      * destruct (Hnew2 _ Hc) as (B' & f' & _ & E). discriminate.
    + rewrite (isdir_join w' d B p (proj1 Hat') HvB), Hfrozen.
      now rewrite (Hkeep B [] HBw).
    + intros -> files f Hg Hf.
      assert (Hm : In (B, f) (moves file_map)) by (apply in_moves; eauto).
      destruct (move_phase_returns d p w2 (moves file_map) Hok w'
                  (run_moves_nodup d p es w Ht) Hat2 Hrun)
        as (_ & Hmoved & _).
      destruct (Hmoved B f Hm) as (data & H0 & Hgone & Hloc).
      exists data. splits; try assumption.
      rewrite <- H0. symmetry. apply (Hkeep f []).
      now destruct (run_move d p es w Ht B f Hm)
        as (_ & _ & _ & _ & _ & _ & Hpres & _).
  - intros Hfree. apply (run_returns d p es w Ht).
    intros B' f' Hm. apply in_moves in Hm. destruct Hm as (files & Hg & Hf).
    now apply (Hfree B' files f').
Qed.

Lemma C6_witness :
  exists w',
    create_and_move_files "." mixed_world = (Ok tt, w') /\
    lookup (root w') (["home"] ++ ["a.txt"]) = None /\
    os_path_isdir (os_path_join "." "a") w' = true.
Proof.
  destruct (C6_existing_folder_is_reused "." ["home"] mixed_entries mixed_world "a"
              [("a", ["a.txt"; "a.csv"]); ("archive.tar", ["archive.tar.gz"])]
              ["a"])
    as (_ & Hany & Hreturns).
  - repeat split.
  - vm_compute. reflexivity.
  - vm_compute. reflexivity.
  - left. reflexivity.
  - destruct Hreturns as [w' Hw'].
    + intros B' files f' Hg Hf.
      repeat (destruct Hg as [Hg|Hg];
              [injection Hg as <- <-;
               repeat (destruct Hf as [<-|Hf]; [vm_compute; auto|]);
               destruct Hf|]).
      destruct Hg.
    + exists w'. destruct (Hany (Ok tt) w' Hw') as (_ & Hdir & Hmoved).
      split; [exact Hw'|]. split; [|exact Hdir].
      destruct (Hmoved eq_refl ["a.txt"; "a.csv"] "a.txt")
        as (data & _ & Hgone & _).
      * left. reflexivity.
      * left. reflexivity.
      * exact Hgone.
Defined.

(* ===================================================================== *)
(** ** The end-to-end scenario *)
(* ===================================================================== *)

Lemma insert_all_in {A} (x : A) (l1 l2 : list A) :
  In (l1 ++ x :: l2) (insert_all x (l1 ++ l2)).
Proof.
  induction l1 as [|y l1 IH]; cbn [app insert_all].
  - destruct l2; now left.
  - right. apply in_map_iff. now exists (l1 ++ x :: l2).
Qed.

Lemma insert_all_perm {A} (x : A) (l l' : list A) :
  In l' (insert_all x l) -> Permutation (x :: l) l'.
Proof.
  revert l'. induction l as [|y l IH]; intros l' H; cbn [insert_all] in H.
  - destruct H as [<-|[]]. apply Permutation_refl.
  - destruct H as [<-|H]; [apply Permutation_refl|].
    apply in_map_iff in H. destruct H as (l0 & <- & H0).
    eapply perm_trans; [apply perm_swap|]. apply perm_skip. now apply IH.
Qed.

(** [perms l] holds the lists that are [l] in another order, and all of
    them. *)
Lemma perms_complete {A} (l l' : list A) :
  Permutation l l' -> In l' (perms l).
Proof.
  revert l'. induction l as [|x l IH]; intros l' H.
  - apply Permutation_nil in H. subst. now left.
  - assert (Hx : In x l') by (apply (Permutation_in _ H); now left).
    apply in_split in Hx. destruct Hx as (l1 & l2 & ->).
    apply Permutation_cons_app_inv in H.
    cbn [perms]. apply in_flat_map. exists (l1 ++ l2).
    split; [now apply IH|apply insert_all_in].
Qed.

Lemma perms_sound {A} (l l' : list A) :
  In l' (perms l) -> Permutation l l'.
Proof.
  revert l'. induction l as [|x l IH]; intros l' H; cbn [perms] in H.
  - destruct H as [<-|[]]. apply Permutation_refl.
  - apply in_flat_map in H. destruct H as (l0 & H0 & H1).
    eapply perm_trans; [apply perm_skip, IH, H0|].
    now apply insert_all_perm.
Qed.

(** Two short lists are the same up to order, by listing the orders. *)
Ltac by_perms :=
  apply perms_sound; cbn [perms flat_map insert_all map app];
  repeat first [left; reflexivity | right].

(** C3.  The directory holds, in whatever order it lists them, the
    files [a.txt], [a.csv], [b.log] and the folder [existing].  The run
    returns; afterwards the folder [a] holds [a.txt] and [a.csv] and
    nothing else, the folder [b] holds [b.log] and nothing else,
    [existing] is as it was, and the entries of the directory are the
    three folders [a], [b] and [existing]. *)
Theorem C3_end_to_end_scenario (es : list (string * node))
  (txt csv log : string) (sub : list (string * node)) :
  Permutation (scenario_entries txt csv log sub) es ->
  exists w',
    create_and_move_files "." (home es) = (Ok tt, w') /\
    (exists in_a,
       lookup (root w') ["home"; "a"] = Some (Dir in_a) /\
       Permutation [("a.txt", File txt); ("a.csv", File csv)] in_a) /\
    lookup (root w') ["home"; "b"] = Some (Dir [("b.log", File log)]) /\
    lookup (root w') ["home"; "existing"] = Some (Dir sub) /\
    exists top,
      lookup (root w') ["home"] = Some (Dir top) /\
      Permutation ["a"; "b"; "existing"] (map fst top) /\
      forall x, In x (map fst top) ->
        is_dir (lookup (root w') ["home"; x]) = true.
Proof.
  intros H. apply perms_complete in H.
  unfold scenario_entries in H.
  cbn [perms flat_map insert_all map app] in H.
  repeat (destruct H as [<-|H]; [
    eexists; split; [vm_compute; reflexivity|]; cbn [root]; splits;
    [ eexists; split; [vm_compute; reflexivity|by_perms]
    | vm_compute; reflexivity
    | vm_compute; reflexivity
    | eexists; split; [vm_compute; reflexivity|]; split;
      [ by_perms
      | cbn [map fst]; intros x Hx;
        repeat (destruct Hx as [<-|Hx]; [vm_compute; reflexivity|]);
        destruct Hx ] ]
  |]).
  destruct H.
Qed.

Lemma C3_witness :
  exists w',
    create_and_move_files "."
      (home [("b.log", File "l"); ("a.csv", File "c");
             ("existing", Dir [("keep", File "k")]); ("a.txt", File "t")])
    = (Ok tt, w') /\
    lookup (root w') ["home"; "b"] = Some (Dir [("b.log", File "l")]) /\
    lookup (root w') ["home"; "existing"] = Some (Dir [("keep", File "k")]).
Proof.
  destruct (C3_end_to_end_scenario
              [("b.log", File "l"); ("a.csv", File "c");
               ("existing", Dir [("keep", File "k")]); ("a.txt", File "t")]
              "t" "c" "l" [("keep", File "k")])
    as (w' & Hrun & _ & Hb & He & _).
  - unfold scenario_entries. by_perms.
  - exists w'. auto.
Defined.

(* ===================================================================== *)
(** ** Further properties of step 1 *)
(* ===================================================================== *)

Section GroupFacts.

Lemma group_app (B : string) (l1 l2 : list string) :
  group B (l1 ++ l2) = group B l1 ++ group B l2.
Proof. apply filter_app. Qed.

Lemma group_nil_iff (B : string) (l : list string) :
  group B l = [] <-> forall f, In f l -> stem f <> B.
Proof.
  unfold group. induction l as [|x l IH]; cbn [filter].
  - split; [intros _ f []|reflexivity].
  - destruct (String.eqb_spec (stem x) B) as [E|Hne].
    + split; [discriminate|]. intros H. exfalso. apply (H x); [now left|exact E].
    + rewrite IH. split.
      * intros H f [<-|Hf]; [assumption|now apply H].
      * intros H f Hf. apply H. now right.
Qed.

(** [file_map[base_name].append(item)] extends the group of the key, or
    adds the key with a new group at the end. *)
Lemma file_map_append_shape (B f : string) (fm : file_map_t) :
  (exists fm1 old fm2,
     fm = fm1 ++ (B, old) :: fm2 /\ ~ In B (keys fm1) /\
     file_map_append B f fm = fm1 ++ (B, old ++ [f]) :: fm2)
  \/ (~ In B (keys fm) /\ file_map_append B f fm = fm ++ [(B, [f])]).
Proof.
  induction fm as [|[k files] fm IH]; cbn [file_map_append].
  - right. split; [intros []|reflexivity].
  - destruct (String.eqb_spec k B) as [->|Hne].
    + left. exists [], files, fm. splits; [reflexivity|intros []|reflexivity].
    + destruct IH as [(fm1 & old & fm2 & -> & Hk & ->)|(Hk & ->)].
      * left. exists ((k, files) :: fm1), old, fm2. splits; try reflexivity.
        cbn [keys map fst In]. intros [E|E]; [congruence|now apply Hk].
      * right. split; [|reflexivity].
        cbn [keys map fst In]. intros [E|E]; [congruence|now apply Hk].
Qed.

Lemma nodup_snoc {A} (x : A) (l : list A) :
  NoDup l -> ~ In x l -> NoDup (l ++ [x]).
Proof.
  intros Hl Hx. apply (Permutation_NoDup (Permutation_cons_append l x)).
  now constructor.
Qed.

Lemma keys_app (fm1 fm2 : file_map_t) : keys (fm1 ++ fm2) = keys fm1 ++ keys fm2.
Proof. apply map_app. Qed.

Lemma grouped_append (fm : file_map_t) (seen : list string) (f : string) :
  grouped fm seen ->
  grouped (file_map_append (stem f) f fm) (seen ++ [f]).
Proof.
  intros (Hnd & Hgroups & Hseen).
  assert (Hone : forall B, group B (seen ++ [f]) =
            group B seen ++ (if stem f =? B then [f] else [])%string).
  { intros B. rewrite group_app. unfold group at 2. cbn [filter].
    now destruct (stem f =? B)%string. }
  destruct (file_map_append_shape (stem f) f fm)
    as [(fm1 & old & fm2 & -> & Hk & ->)|(Hk & ->)].
  - rewrite keys_app in *. cbn [keys map fst] in *.
    unfold grouped. rewrite keys_app. cbn [keys map fst]. splits.
    + exact Hnd.
    + intros B files Hin. rewrite Hone.
      apply in_app_or in Hin. destruct Hin as [Hin|[E|Hin]].
      * destruct (Hgroups B files) as [Hne ->]; [apply in_or_app; now left|].
        assert (HB : stem f <> B).
        { intros <-. apply Hk. apply in_map_iff.
          now exists (stem f, group (stem f) seen). }
        apply String.eqb_neq in HB. rewrite HB, app_nil_r. now split.
      * injection E as <- <-. rewrite String.eqb_refl.
        destruct (Hgroups (stem f) old) as [Hne ->];
          [apply in_or_app; right; now left|].
        split; [|reflexivity]. destruct (group (stem f) seen); discriminate.
      * destruct (Hgroups B files) as [Hne ->];
          [apply in_or_app; right; now right|].
        assert (HB : stem f <> B).
        { intros <-. apply NoDup_remove_2 in Hnd. apply Hnd.
          apply in_or_app. right. apply in_map_iff.
          now exists (stem f, group (stem f) seen). }
        apply String.eqb_neq in HB. rewrite HB, app_nil_r. now split.
    + intros g Hg. apply in_app_or in Hg. destruct Hg as [Hg|[<-|[]]].
      * exact (Hseen _ Hg).
      * apply in_or_app. right. now left.
  - unfold grouped. rewrite keys_app. cbn [keys map fst]. splits.
    + now apply nodup_snoc.
    + intros B files Hin. rewrite Hone.
      apply in_app_or in Hin. destruct Hin as [Hin|[E|[]]].
      * destruct (Hgroups B files Hin) as [Hne ->].
        assert (HB : stem f <> B).
        { intros <-. apply Hk. apply in_map_iff.
          now exists (stem f, group (stem f) seen). }
        apply String.eqb_neq in HB. rewrite HB, app_nil_r. now split.
      * injection E as <- <-. rewrite String.eqb_refl.
        assert (E : group (stem f) seen = []).
        { apply group_nil_iff. intros g Hg E. apply Hk. rewrite <- E. now apply Hseen. }
        rewrite E. split; [discriminate|reflexivity].
    + intros g Hg. apply in_or_app. apply in_app_or in Hg.
      destruct Hg as [Hg|[<-|[]]]; [left; now apply Hseen|right; now left].
Qed.

End GroupFacts.

Section ScanGroups.

Context {W : Type} {os : OS W}.

Variables (directory : string) (w : W).

Lemma scan_grouped (items : list string) :
  forall st seen,
    grouped (fst st) seen ->
    grouped (fst (fold_left (classify directory w) items st))
      (seen ++ filter (is_file_item directory w) items).
Proof.
  induction items as [|item items IH]; intros st seen H; cbn [fold_left filter].
  - now rewrite app_nil_r.
  - destruct (is_file_item directory w item) eqn:Hsel.
    + assert (E : classify directory w st item =
                  (file_map_append (stem item) item (fst st), snd st)).
      { unfold classify, is_file_item in *.
        destruct (hidden item); [discriminate|].
        destruct (os_path_isdir (os_path_join directory item) w);
          [discriminate|reflexivity]. }
      rewrite E.
      replace (seen ++ item :: filter (is_file_item directory w) items)
        with ((seen ++ [item]) ++ filter (is_file_item directory w) items)
        by (now rewrite <- app_assoc).
      apply IH. cbn [fst]. now apply grouped_append.
    + assert (E : fst (classify directory w st item) = fst st).
      { unfold classify, is_file_item in *.
        destruct (hidden item); [reflexivity|].
        destruct (os_path_isdir (os_path_join directory item) w);
          [reflexivity|discriminate]. }
      apply IH. now rewrite E.
Qed.

Lemma scan_result_grouped (items : list string) :
  grouped (fst (scan_result directory w items))
    (filter (is_file_item directory w) items).
Proof.
  apply (scan_grouped items ([], []) []).
  unfold grouped. cbn [fst]. splits; [constructor|intros B files []|intros f []].
Qed.

Lemma moves_files (fm : file_map_t) : map snd (moves fm) = concat (map snd fm).
Proof.
  unfold moves. induction fm as [|[k files] fm IH]; [reflexivity|].
  cbn [flat_map map concat fst snd]. rewrite map_app, IH, map_map. cbn [snd].
  now rewrite map_id.
Qed.

Lemma folders_add_nodup (item : string) (folders : folders_t) :
  NoDup folders -> NoDup (folders_add item folders).
Proof.
  intros H. unfold folders_add.
  destruct (existsb (String.eqb item) folders) eqn:E; [assumption|].
  apply nodup_snoc; [assumption|]. intros Hin.
  apply existsb_eqb_in in Hin. congruence.
Qed.

Lemma scan_folders_nodup (items : list string) :
  NoDup (snd (scan_result directory w items)).
Proof.
  unfold scan_result.
  assert (H : NoDup (snd (@nil (string * list string), @nil string)))
    by constructor.
  revert H. generalize (@nil (string * list string), @nil string).
  induction items as [|item items IH]; intros st H; [exact H|].
  cbn [fold_left]. apply IH. unfold classify.
  destruct (hidden item); [exact H|].
  destruct (os_path_isdir _ w); [|exact H]. now apply folders_add_nodup.
Qed.

End ScanGroups.

(** The stem of a name is the name without an extension that starts with
    a dot. *)
Lemma stem_prefix (f : string) :
  valid_name f = true -> hidden f = false ->
  exists ext, f = (stem f ++ ext)%string /\
              (ext = "" \/ startswith ext "." = true).
Proof.
  intros Hv Hh. unfold stem.
  destruct (contains f extsep) eqn:Hdot.
  - destruct (contains_split f extsep Hdot) as (a & seg & -> & Hseg).
    destruct (valid_name_parts _ Hv) as (_ & Hsep & _).
    change (a ++ String extsep seg)%string with (a ++ "." ++ seg)%string in *.
    rewrite (splitext_last_dot a seg Hh Hsep Hseg). cbn [fst].
    exists ("." ++ seg)%string. split; [reflexivity|]. right.
    cbn [append]. rewrite startswith_cons. reflexivity.
  - rewrite (splitext_no_dot f Hdot). cbn [fst]. exists "".
    split; [now rewrite append_nil_r|now left].
Qed.

(** X1.  Step 1, in every model of the library calls: it changes
    nothing; the keys of the grouping are distinct; the group of a key
    [B] is not empty and holds the entries that are files to move (not
    hidden, not a directory) and have the stem [B], in the order of the
    listing; every such entry is in the group of its stem; and all the
    groups together hold each file to move as often as the listing has
    it. *)
Theorem X1_scan_groups_files_by_stem {W} {os : OS W} (directory : string)
  (items : list string) (w w' : W) (file_map : file_map_t)
  (folders : folders_t) :
  scan directory items w = (Ok (file_map, folders), w') ->
  w' = w /\
  NoDup (keys file_map) /\
  (forall B files, In (B, files) file_map ->
     files <> [] /\
     files = group B (filter (is_file_item directory w) items)) /\
  (forall f, In f items -> is_file_item directory w f = true ->
     exists files, In (stem f, files) file_map /\ In f files) /\
  Permutation (concat (map snd file_map))
    (filter (is_file_item directory w) items).
Proof.
  intros H. apply scan_inv in H. destruct H as (-> & _ & ->).
  destruct (scan_result_grouped directory w items) as (Hnd & Hgroups & Hseen).
  splits; try assumption; try reflexivity.
  - intros f Hin Hsel.
    assert (Hf : In f (filter (is_file_item directory w) items))
      by (apply filter_In; auto).
    pose proof (Hseen f Hf) as Hk. unfold keys in Hk.
    apply in_map_iff in Hk. destruct Hk as ([k files] & E & Hg).
    cbn [fst] in E. subst k. exists files. split; [assumption|].
    destruct (Hgroups _ _ Hg) as [_ ->]. unfold group. apply filter_In.
    split; [assumption|apply String.eqb_refl].
  - rewrite <- moves_files.
    eapply Permutation_trans; [apply Permutation_map, scan_moves|].
    rewrite map_map. cbn [snd]. rewrite map_id. apply Permutation_refl.
Qed.

Lemma X1_witness :
  exists files,
    In ("a", files) [("a", ["a.txt"; "a.csv"]); ("archive.tar", ["archive.tar.gz"])]
    /\ In "a.csv" files.
Proof.
  destruct (X1_scan_groups_files_by_stem "." (map fst mixed_entries)
              mixed_world mixed_world
              [("a", ["a.txt"; "a.csv"]); ("archive.tar", ["archive.tar.gz"])]
              ["a"])
    as (_ & _ & _ & Hin & _).
  - vm_compute. reflexivity.
  - apply (Hin "a.csv").
    + right. right. right. right. left. reflexivity.
    + vm_compute. reflexivity.
Defined.

(** X2.  The folders of step 1, in every model of the library calls:
    they are the entries that are not hidden and are directories, each
    once, however often the listing has it. *)
Theorem X2_scan_folders_are_the_directories {W} {os : OS W}
  (directory : string) (items : list string) (w w' : W)
  (file_map : file_map_t) (folders : folders_t) :
  scan directory items w = (Ok (file_map, folders), w') ->
  NoDup folders /\
  forall x, In x folders <->
    In x items /\ hidden x = false /\
    os_path_isdir (os_path_join directory x) w = true.
Proof.
  intros H. apply scan_inv in H. destruct H as (_ & -> & _).
  split; [apply scan_folders_nodup|]. intros x. apply scan_folders.
Qed.

Lemma X2_witness :
  NoDup ["a"] /\
  (In "a" ["a"] <->
   In "a" (map fst mixed_entries) /\ hidden "a" = false /\
   os_path_isdir (os_path_join "." "a") mixed_world = true).
Proof.
  destruct (X2_scan_folders_are_the_directories "." (map fst mixed_entries)
              mixed_world mixed_world
              [("a", ["a.txt"; "a.csv"]); ("archive.tar", ["archive.tar.gz"])]
              ["a"]) as [Hnd Hiff].
  - vm_compute. reflexivity.
  - split; [exact Hnd|apply Hiff].
Defined.

(** X3.  A base name of step 1 and a file of its group, when the file
    has the name of a directory entry: the file is not hidden; the base
    name is the file name without an extension that starts with a dot;
    and the base name is itself the name of an entry (not empty, without
    a separator, neither [.] nor [..]) and not hidden.  So the folder of
    step 2 and the destination of step 3 are inside the directory. *)
Theorem X3_base_names_are_entry_names {W} {os : OS W} (directory : string)
  (items : list string) (w w' : W) (file_map : file_map_t)
  (folders : folders_t) (B f : string) (files : list string) :
  scan directory items w = (Ok (file_map, folders), w') ->
  In (B, files) file_map -> In f files -> valid_name f = true ->
  hidden f = false /\
  (exists ext, f = (B ++ ext)%string /\
               (ext = "" \/ startswith ext "." = true)) /\
  valid_name B = true /\ hidden B = false.
Proof.
  intros H Hg Hf Hv. apply scan_inv in H. destruct H as (-> & _ & _).
  assert (Hm : In (B, f) (moves (fst (scan_result directory w items))))
    by (apply in_moves; eauto).
  apply scan_move_iff in Hm. destruct Hm as (_ & Hsel & ->).
  unfold is_file_item in Hsel. apply andb_true_iff in Hsel.
  destruct Hsel as [Hh _]. apply negb_true_iff in Hh.
  destruct (stem_valid f Hv Hh) as [HvB HhB].
  splits; try assumption. now apply stem_prefix.
Qed.

Lemma X3_witness :
  exists ext, "archive.tar.gz" = ("archive.tar" ++ ext)%string /\
              (ext = "" \/ startswith ext "." = true).
Proof.
  destruct (X3_base_names_are_entry_names "." (map fst mixed_entries)
              mixed_world mixed_world
              [("a", ["a.txt"; "a.csv"]); ("archive.tar", ["archive.tar.gz"])]
              ["a"] "archive.tar" "archive.tar.gz" ["archive.tar.gz"])
    as (_ & Hext & _).
  - vm_compute. reflexivity.
  - right. left. reflexivity.
  - left. reflexivity.
  - reflexivity.
  - exact Hext.
Defined.

(* ===================================================================== *)
(** ** The calls and the output of a run *)
(* ===================================================================== *)

Lemma absent_after_create (r r' : node) (p : path) (B x : string)
  (w w1 : world) :
  root w = r -> root w1 = r' ->
  alter r (p ++ [B]) (Some (Dir [])) = Some r' -> x <> B ->
  absent p w1 x = absent p w x.
Proof.
  intros <- <- Halt Hx. unfold absent.
  rewrite (alter_lookup_apart _ _ _ (p ++ [x]) _ Halt); [reflexivity| |].
  - apply (apart_entries p B x [] []). congruence.
  - now apply (apart_entries p x B [] []).
Qed.

(** The calls and the lines of step 2: one of each for every base name
    that is free, in the order of the keys. *)
Lemma create_phase_trace (d : string) (p : path) (ks : list string) :
  Forall (fun B => valid_name B = true) ks -> NoDup ks ->
  forall w, at_dir d p w ->
  exists w',
    for_each (create_folder d) ks w = (Ok tt, w') /\
    calls w' = calls w ++ map (makedirs_call d) (filter (absent p w) ks) /\
    stdout w' = stdout w ++ map (created_line d) (filter (absent p w) ks).
Proof.
  induction 1 as [|B ks HB Hks IH]; intros Hnd w Hat.
  - exists w. cbn [for_each filter map]. now rewrite !app_nil_r.
  - apply NoDup_cons_iff in Hnd. destruct Hnd as [Hfresh Hnd].
    cbn [for_each filter]. unfold bind.
    destruct (lookup (root w) (p ++ [B])) as [n|] eqn:HlB.
    + assert (Hab : absent p w B = false) by (unfold absent; now rewrite HlB).
      rewrite Hab.
      rewrite (create_folder_present w d B p (proj1 Hat) HB) by congruence.
      now apply IH.
    + assert (Hab : absent p w B = true) by (unfold absent; now rewrite HlB).
      rewrite Hab.
      destruct (create_folder_absent w d B p Hat HB HlB) as (r' & Halt & Hrun1).
      rewrite Hrun1.
      set (w1 := mkWorld r' (cwd w) _ _).
      assert (Hat1 : at_dir d p w1).
      { apply at_dir_stable with (w := w); [reflexivity| |assumption].
        intros q. apply (alter_keeps_dirs _ _ _ _ _ Halt). now rewrite HlB. }
      destruct (IH Hnd w1 Hat1) as (w' & Hrun & Hcalls & Hout).
      assert (E : filter (absent p w1) ks = filter (absent p w) ks).
      { apply filter_ext_in. intros x Hx.
        apply (absent_after_create (root w) r' p B x w w1); try reflexivity;
          [assumption|]. intros ->. contradiction. }
      rewrite E in Hcalls, Hout.
      exists w'. splits; [assumption| |].
      * rewrite Hcalls. unfold w1. cbn [calls map]. now rewrite <- app_assoc.
      * rewrite Hout. unfold w1. cbn [stdout map]. now rewrite <- app_assoc.
Qed.

Section MoveTrace.

Variables (d : string) (p : path) (w0 : world) (ms : list (string * string)).

Hypothesis ms_ok : forall B f, In (B, f) ms ->
  valid_name B = true /\ valid_name f = true /\
  is_dir (lookup (root w0) (p ++ [f])) = false.

(** The calls and the lines of moves that all return: one of each for
    every move, in order. *)
Lemma move_phase_trace (rem : list (string * string)) :
  (forall m, In m rem -> In m ms) ->
  forall w w', moving d p w0 w ->
  for_each (move_one d) rem w = (Ok tt, w') ->
  calls w' = calls w ++ map (move_call d) rem /\
  stdout w' = stdout w ++ map (moved_line d) rem.
Proof.
  induction rem as [|[B f] rest IH]; intros Hsub w w' Hmov Hrun.
  - injection Hrun as <-. cbn [map]. now rewrite !app_nil_r.
  - pose proof (Hsub _ (or_introl eq_refl)) as Hin.
    destruct (ms_ok B f Hin) as (HB & Hf & Hnd).
    pose proof Hmov as (Hat & _ & Hfrozen). rewrite <- Hfrozen in Hnd.
    pose proof (moving_step d p w0 ms ms_ok w B f Hin Hmov) as Hmov'.
    pose proof (move_one_spec w d B f p Hat HB Hf Hnd) as Hspec.
    cbv zeta in Hspec. cbn [for_each] in Hrun. unfold bind in Hrun.
    destruct (move_root (root w) p B f) as [r2|].
    + rewrite Hspec in Hrun, Hmov'. cbn [snd] in Hmov'.
      destruct (IH (fun m Hm => Hsub m (or_intror Hm)) _ _ Hmov' Hrun)
        as [Hcalls Hout].
      split.
      * rewrite Hcalls. cbn [calls map]. now rewrite <- app_assoc.
      * rewrite Hout. cbn [stdout map]. now rewrite <- app_assoc.
    + destruct Hspec as [e He]. rewrite He in Hrun. discriminate.
Qed.

End MoveTrace.

(** X4.  Step 2 on a well-formed directory with the grouping of step 1:
    it returns; it calls [os.makedirs] once for each base name that is
    free, in the order of the keys, and for no other, and prints one line
    for each; each of these names is an empty folder afterwards; every
    entry the directory had is as it was, with all that is below it; and
    no other entry appears. *)
Theorem X4_step2_makes_the_free_base_names (d : string) (p : path)
  (es : list (string * node)) (w : world)
  (file_map : file_map_t) (folders : folders_t) :
  target d p es w ->
  scan d (map fst es) w = (Ok (file_map, folders), w) ->
  exists w2,
    create_folders d file_map w = (Ok tt, w2) /\
    calls w2 =
      calls w ++ map (makedirs_call d) (filter (absent p w) (keys file_map)) /\
    stdout w2 =
      stdout w ++ map (created_line d) (filter (absent p w) (keys file_map)) /\
    cwd w2 = cwd w /\
    (forall x s, lookup (root w) (p ++ [x]) <> None ->
       lookup (root w2) (p ++ x :: s) = lookup (root w) (p ++ x :: s)) /\
    (forall x, lookup (root w) (p ++ [x]) = None ->
       lookup (root w2) (p ++ [x]) =
         if existsb (String.eqb x) (keys file_map) then Some (Dir []) else None).
Proof.
  intros Ht Hscan. apply scan_inv in Hscan. destruct Hscan as (-> & _ & _).
  set (file_map := fst (scan_result d w (map fst es))).
  destruct (run_shape d p es w Ht)
    as (w2 & Hcreate & _ & _ & Hcwd & Hkeep & Hnew & _).
  fold file_map in Hcreate, Hnew.
  destruct (create_phase_trace d p (keys file_map) (run_keys_valid d p es w Ht)
              (proj1 (scan_result_grouped d w (map fst es))) w
              (target_at_dir d p es w Ht))
    as (w2' & Hcreate' & Hcalls & Hout).
  unfold create_folders in Hcreate. rewrite Hcreate in Hcreate'.
  injection Hcreate' as <-.
  exists w2. splits; assumption.
Qed.

Lemma X4_witness :
  exists w2,
    create_folders "." [("a", ["a.txt"; "a.csv"]); ("archive.tar", ["archive.tar.gz"])]
      mixed_world = (Ok tt, w2) /\
    calls w2 = [Makedirs "./archive.tar"] /\
    stdout w2 = ["Created folder: ./archive.tar"].
Proof.
  destruct (X4_step2_makes_the_free_base_names "." ["home"] mixed_entries mixed_world
              [("a", ["a.txt"; "a.csv"]); ("archive.tar", ["archive.tar.gz"])]
              ["a"])
    as (w2 & Hcreate & Hcalls & Hout & _).
  - repeat split.
  - vm_compute. reflexivity.
  - exists w2. splits; assumption.
Defined.

(** X5.  The calls and the output of a run on a well-formed directory.
    The folders come first: one [os.makedirs] and one line for each base
    name that is free, in the order of the keys.  Then the moves, in the
    order of the groups and of the files in them: when the run returns,
    one [shutil.move] and one line for every file of the grouping; when
    it raises, the moves up to the one that failed, which has no line.
    No call is made twice and nothing else is printed. *)
Theorem X5_calls_and_output_of_a_run (d : string) (p : path)
  (es : list (string * node)) (w w' : world) (res : result unit)
  (file_map : file_map_t) (folders : folders_t) :
  target d p es w ->
  scan d (map fst es) w = (Ok (file_map, folders), w) ->
  create_and_move_files d w = (res, w') ->
  let created := filter (absent p w) (keys file_map) in
  match res with
  | Ok _ =>
      calls w' = calls w ++ map (makedirs_call d) created
                         ++ map (move_call d) (moves file_map) /\
      stdout w' = stdout w ++ map (created_line d) created
                           ++ map (moved_line d) (moves file_map)
  | Raise _ =>
      exists done m rest,
        moves file_map = done ++ m :: rest /\
        calls w' = calls w ++ map (makedirs_call d) created
                           ++ map (move_call d) (done ++ [m]) /\
        stdout w' = stdout w ++ map (created_line d) created
                             ++ map (moved_line d) done
  end.
Proof.
  intros Ht Hscan Hrun created.
  apply scan_inv in Hscan. destruct Hscan as (-> & _ & _).
  set (file_map := fst (scan_result d w (map fst es))) in *.
  destruct (run_shape d p es w Ht)
    as (w2 & Hcreate & Hsteps & Hat2 & _ & _ & _ & _ & Hok).
  fold file_map in Hcreate, Hsteps, Hok.
  destruct (create_phase_trace d p (keys file_map) (run_keys_valid d p es w Ht)
              (proj1 (scan_result_grouped d w (map fst es))) w
              (target_at_dir d p es w Ht))
    as (w2' & Hcreate' & Hcalls & Hout).
  unfold create_folders in Hcreate. rewrite Hcreate in Hcreate'.
  injection Hcreate' as <-. fold created in Hcalls, Hout.
  pose proof (moving_start d p w2 Hat2) as Hmov.
  destruct res as [[]|e].
  - rewrite Hsteps in Hrun.
    destruct (move_phase_trace d p w2 (moves file_map) Hok (moves file_map)
                (fun m H => H) w2 w' Hmov Hrun) as [Hc Ho].
    split; [now rewrite Hc, Hcalls, <- app_assoc|now rewrite Ho, Hout, <- app_assoc].
  - destruct (run_raises d p es w Ht e w' Hrun)
      as (w2' & done & m & rest & w3 & Hc2 & E & Hdone & _ & _ & Ho3 & Hc3 & _).
    fold file_map in Hc2, E. unfold create_folders in Hc2.
    rewrite Hcreate in Hc2. injection Hc2 as <-.
    assert (Hsub : forall m', In m' done -> In m' (moves file_map)).
    { intros m' H. rewrite E. apply in_or_app. now left. }
    destruct (move_phase_trace d p w2 (moves file_map) Hok done Hsub w2 w3 Hmov Hdone)
      as [Hc Ho].
    exists done, m, rest. splits; [assumption| |].
    + rewrite Hc3, Hc, Hcalls, map_app. cbn [map]. unfold move_call.
      now rewrite <- !app_assoc.
    + now rewrite Ho3, Ho, Hout, <- app_assoc.
Qed.

Lemma X5_witness :
  calls (snd (create_and_move_files "." stray_world)) =
    [Makedirs "./a"; Move "./a.txt" "./a/a.txt"; Move "./b" "./b/b"] /\
  stdout (snd (create_and_move_files "." stray_world)) =
    ["Created folder: ./a"; "Moved ./a.txt to ./a/a.txt"].
Proof.
  pose proof (X5_calls_and_output_of_a_run "." ["home"] stray_entries stray_world
                (snd (create_and_move_files "." stray_world))
                (Raise NotADirectoryError)
                [("a", ["a.txt"]); ("b", ["b"])] []) as H.
  destruct H as (done & m & rest & E & Hcalls & Hout).
  - repeat split.
  - vm_compute. reflexivity.
  - vm_compute. reflexivity.
  - split; vm_compute; reflexivity.
Defined.

(* ===================================================================== *)
(** ** Where the files end up, and when the run returns *)
(* ===================================================================== *)

(** Putting a regular file, or nothing, where no directory is makes and
    removes no directory. *)
Lemma alter_same_dirs (r r' : node) (q q' : path) (v : option node) :
  alter r q v = Some r' ->
  is_dir (lookup r q) = false -> is_dir v = false ->
  is_dir (lookup r' q') = is_dir (lookup r q').
Proof.
  intros H Hq Hv.
  destruct (alter_lookup_cases r r' q q' v H)
    as [(s & -> & E)|[(_ & E1 & E2)|(_ & _ & E)]].
  - rewrite E, lookup_app.
    destruct (lookup r q) as [[data|es]|]; try discriminate;
      destruct v as [[data'|es']|]; try discriminate;
      destruct s as [|c s]; reflexivity.
  - now rewrite E1, E2.
  - now rewrite E.
Qed.

Lemma move_root_same_dirs (r r2 : node) (p : path) (B f : string) (q : path) :
  move_root r p B f = Some r2 ->
  is_dir (lookup r2 q) = is_dir (lookup r q).
Proof.
  intros H.
  destruct (move_root_effect r r2 p B f H)
    as (data & t & Hsrc & Ht & HfB & HBd & Hdest & r1 & H1 & H2).
  assert (E1 : forall q', is_dir (lookup r1 q') = is_dir (lookup r q')).
  { intros q'. apply (alter_same_dirs _ _ _ _ _ H1); [now rewrite Hsrc|reflexivity]. }
  rewrite <- E1. apply (alter_same_dirs _ _ _ _ _ H2); [|reflexivity].
  now rewrite E1.
Qed.

(** A move that succeeds found its place free. *)
Lemma move_root_free (r r2 : node) (p : path) (B f : string) :
  move_root r p B f = Some r2 -> free_place r p B f = true.
Proof.
  unfold move_root, move_dest, free_place. intros H.
  destruct (lookup r (p ++ [f])) as [[data|es]|]; try discriminate.
  destruct (is_dir (lookup r (p ++ [B; f]))); [|reflexivity].
  now destruct (is_some (lookup r (p ++ [B; f; f]))).
Qed.

Section MoveWhere.

Variables (d : string) (p : path) (w0 : world) (ms : list (string * string)).

Hypothesis ms_ok : forall B f, In (B, f) ms ->
  valid_name B = true /\ valid_name f = true /\
  is_dir (lookup (root w0) (p ++ [f])) = false.

(** The moves make and remove no directory, however they end. *)
Lemma move_phase_same_dirs (w : world) :
  moving d p w0 w ->
  forall q, is_dir (lookup (root (snd (for_each (move_one d) ms w))) q) =
            is_dir (lookup (root w) q).
Proof.
  intros Hmov.
  enough (H : moving d p w0 (snd (for_each (move_one d) ms w)) /\
              forall q, is_dir (lookup (root (snd (for_each (move_one d) ms w))) q) =
                        is_dir (lookup (root w) q)) by apply H.
  apply (for_each_invariant
    (fun w' => moving d p w0 w' /\
               forall q, is_dir (lookup (root w') q) = is_dir (lookup (root w) q))).
  - intros [B f] w1 Hin (Hmov1 & Hsame).
    pose proof (moving_step d p w0 ms ms_ok w1 B f Hin Hmov1) as Hmov2.
    destruct (ms_ok B f Hin) as (HB & Hf & Hnd).
    destruct Hmov1 as (Hat & Hcwd & Hfrozen). rewrite <- Hfrozen in Hnd.
    destruct (move_step w1 d B f p Hat HB Hf Hnd)
      as (res & w2 & Hrun & _ & _ & Hcase).
    rewrite Hrun in *. cbn [snd] in *. split; [assumption|].
    intros q. rewrite <- Hsame.
    destruct Hcase as [(_ & Hroot & _)|(_ & Hroot)]; [now rewrite Hroot|].
    now apply move_root_same_dirs with (p := p) (B := B) (f := f).
  - split; [assumption|reflexivity].
Qed.

(** Moves that all return found every place free, when the files and
    the folders were there. *)
Lemma move_phase_returns_free (w' : world) :
  NoDup (map snd ms) -> at_dir d p w0 ->
  (forall B f, In (B, f) ms ->
     exists data, lookup (root w0) (p ++ [f]) = Some (File data)) ->
  for_each (move_one d) ms w0 = (Ok tt, w') ->
  forall B f, In (B, f) ms ->
    is_dir (lookup (root w0) (p ++ [B])) = true /\
    free_place (root w0) p B f = true.
Proof.
  intros Hnd0 Hat0 Hfile Hrun.
  destruct (move_phase_returns d p w0 ms ms_ok w' Hnd0 Hat0 Hrun)
    as ((_ & _ & Hfrozen') & Hmoved & _).
  assert (Hdir : forall B f, In (B, f) ms ->
            is_dir (lookup (root w0) (p ++ [B])) = true).
  { intros B f Hin. destruct (Hmoved B f Hin) as (data & _ & _ & Hloc).
    rewrite <- Hfrozen'. destruct Hloc as [Hloc|Hloc].
    - apply lookup_two with (f := f). congruence.
    - apply lookup_prefix_dir with (s := [f; f]); [|discriminate].
      rewrite <- app_assoc. cbn [app]. congruence. }
  set (I := fun (rem : list (string * string)) (w : world) =>
    moving d p w0 w /\ NoDup (map snd rem) /\
    (forall B f, In (B, f) rem ->
       In (B, f) ms /\
       lookup (root w) (p ++ [f]) = lookup (root w0) (p ++ [f]) /\
       lookup (root w) (p ++ [B; f]) = lookup (root w0) (p ++ [B; f]) /\
       lookup (root w) (p ++ [B; f; f]) = lookup (root w0) (p ++ [B; f; f])) /\
    (forall B f, In (B, f) ms ->
       In (B, f) rem \/ free_place (root w0) p B f = true)).
  assert (Hend : I [] w').
  { apply (for_each_returns I (move_one d) ms) with (w := w0); [| |exact Hrun].
    - clear w' Hrun Hfrozen' Hmoved.
      intros [B f] rest w w' (Hmov & Hnd & Hrem & Hdone) Hrun.
      destruct (Hrem B f (or_introl eq_refl)) as (Hin & E1 & E2 & E3).
      pose proof (moving_step d p w0 ms ms_ok w B f Hin Hmov) as Hmov'.
      rewrite Hrun in Hmov'. cbn [snd] in Hmov'.
      destruct (ms_ok B f Hin) as (HB & Hf & Hndir).
      pose proof Hmov as (Hat & Hcwd & Hfrozen).
      assert (Hndir' : is_dir (lookup (root w) (p ++ [f])) = false)
        by (now rewrite Hfrozen).
      destruct (move_step w d B f p Hat HB Hf Hndir')
        as (res & w2 & Hrun2 & _ & _ & Hcase).
      rewrite Hrun in Hrun2. injection Hrun2 as <- <-.
      destruct Hcase as [([e He] & _)|(_ & Hroot)]; [discriminate|].
      destruct (move_root_frame _ _ _ _ _ Hroot) as (_ & Hother & _).
      destruct (move_root_effect _ _ _ _ _ Hroot)
        as (data & t & Hsrc & _ & _ & HBd & _).
      pose proof (move_root_free _ _ _ _ _ Hroot) as Hfree.
      cbn [map snd] in Hnd. apply NoDup_cons_iff in Hnd. destruct Hnd as [Hfresh Hnd].
      unfold I. splits; try assumption.
      + intros B' f' Hin'.
        destruct (Hrem B' f' (or_intror Hin')) as (Hms' & E1' & E2' & E3').
        destruct (Hfile B' f' Hms') as [data' Hdata'].
        assert (Hf'f : f' <> f).
        { intros ->. apply Hfresh. apply in_map_iff. now exists (B', f). }
        assert (Hf'B : f' <> B).
        { intros ->. rewrite <- E1' in Hdata'. rewrite Hdata' in HBd. discriminate. }
        assert (HB'f : B' <> f).
        { intros ->. pose proof (Hdir f f' Hms') as Hd.
          rewrite <- Hfrozen, Hsrc in Hd. discriminate. }
        splits; [assumption| | |].
        * rewrite <- E1'. now apply (Hother f' []).
        * rewrite <- E2'. destruct (String.eqb_spec B' B) as [->|HB'B].
          -- now apply (move_root_inside _ _ _ _ _ f' [] Hroot).
          -- now apply (Hother B' [f']).
        * rewrite <- E3'. destruct (String.eqb_spec B' B) as [->|HB'B].
          -- now apply (move_root_inside _ _ _ _ _ f' [f'] Hroot).
          -- now apply (Hother B' [f'; f']).
      + intros B' f' Hms'. destruct (Hdone B' f' Hms') as [[E|Hin']|Hfree'].
        * injection E as <- <-. right. unfold free_place in *.
          now rewrite <- E2, <- E3.
        * now left.
        * now right.
    - unfold I. splits; auto. now apply moving_start. }
  destruct Hend as (_ & _ & _ & Hdone).
  intros B f Hin. split; [now apply Hdir with (f := f)|].
  now destruct (Hdone B f Hin) as [[]|H].
Qed.

End MoveWhere.

(** X6.  Where a run that returns puts a file [f] of the group [B]: the
    file leaves the directory and its content is at [B/f], where it
    replaces what was there, unless [B/f] was a directory before the run;
    then it is at [B/f/f].  The folder [B] is a directory afterwards. *)
Theorem X6_place_of_a_moved_file (d : string) (p : path)
  (es : list (string * node)) (w w' : world)
  (file_map : file_map_t) (folders : folders_t)
  (B : string) (files : list string) (f : string) :
  target d p es w ->
  scan d (map fst es) w = (Ok (file_map, folders), w) ->
  create_and_move_files d w = (Ok tt, w') ->
  In (B, files) file_map -> In f files ->
  exists data,
    lookup (root w) (p ++ [f]) = Some (File data) /\
    lookup (root w') (p ++ [f]) = None /\
    is_dir (lookup (root w') (p ++ [B])) = true /\
    lookup (root w')
      (if is_dir (lookup (root w) (p ++ [B; f])) then p ++ [B; f; f]
       else p ++ [B; f]) = Some (File data).
Proof.
  intros Ht Hscan Hrun Hg Hf.
  apply scan_inv in Hscan. destruct Hscan as (-> & _ & _).
  set (file_map := fst (scan_result d w (map fst es))) in *.
  assert (Hm : In (B, f) (moves file_map)) by (apply in_moves; eauto).
  destruct (run_shape d p es w Ht)
    as (w2 & _ & Hsteps & Hat2 & _ & Hkeep & Hnew & _ & Hok).
  fold file_map in Hsteps, Hnew, Hok.
  rewrite Hsteps in Hrun.
  destruct (run_move d p es w Ht B f Hm) as (_ & _ & _ & _ & _ & _ & Hpres & _).
  destruct (move_phase_returns d p w2 (moves file_map) Hok w'
              (run_moves_nodup d p es w Ht) Hat2 Hrun)
    as (_ & Hmoved & _).
  destruct (Hmoved B f Hm) as (data & H0 & Hgone & Hloc).
  rewrite (Hkeep f [] Hpres) in H0.
  pose proof (move_phase_same_dirs d p w2 (moves file_map) Hok w2
                (moving_start d p w2 Hat2) (p ++ [B; f])) as Hsame.
  rewrite Hrun in Hsame. cbn [snd] in Hsame.
  assert (E : is_dir (lookup (root w2) (p ++ [B; f])) =
              is_dir (lookup (root w) (p ++ [B; f]))).
  { destruct (lookup (root w) (p ++ [B])) as [n|] eqn:HlB.
    - rewrite (Hkeep B [f]); [reflexivity|congruence].
    - replace (p ++ [B; f]) with ((p ++ [B]) ++ [f]) by (now rewrite <- app_assoc).
      rewrite (lookup_none_below _ _ [f] HlB), lookup_app, (Hnew B HlB).
      now destruct (existsb (String.eqb B) (keys file_map)). }
  rewrite E in Hsame.
  exists data. splits; try assumption.
  - destruct Hloc as [Hloc|Hloc].
    + apply lookup_two with (f := f). congruence.
    + apply lookup_prefix_dir with (s := [f; f]); [|discriminate].
      rewrite <- app_assoc. cbn [app]. congruence.
  - destruct (is_dir (lookup (root w) (p ++ [B; f]))).
    + destruct Hloc as [Hloc|Hloc]; [|assumption].
      rewrite Hloc in Hsame. discriminate.
    + destruct Hloc as [Hloc|Hloc]; [assumption|].
      assert (Hd : is_dir (lookup (root w') (p ++ [B; f])) = true).
      { apply lookup_prefix_dir with (s := [f]); [|discriminate].
        rewrite <- app_assoc. cbn [app]. congruence. }
      congruence.
Qed.

Lemma X6_witness :
  exists data,
    lookup (root overwrite_world) (["home"] ++ ["a.txt"]) = Some (File data) /\
    lookup (root (snd (create_and_move_files "." overwrite_world)))
      (["home"] ++ ["a"; "a.txt"]) = Some (File data).
Proof.
  destruct (X6_place_of_a_moved_file "." ["home"] overwrite_entries overwrite_world
              (snd (create_and_move_files "." overwrite_world))
              [("a", ["a.txt"])] ["a"] "a" ["a.txt"] "a.txt")
    as (data & Hsrc & _ & _ & Hdst).
  - repeat split.
  - vm_compute. reflexivity.
  - vm_compute. reflexivity.
  - now left.
  - now left.
  - exists data. split; [exact Hsrc|exact Hdst].
Defined.

(** X7.  A run on a well-formed directory returns exactly when no base
    name is the name of a regular file and every file has a free place in
    its folder: where [B/f] is a directory, nothing is called [f] in
    it. *)
Theorem X7_run_returns_iff_places_free (d : string) (p : path)
  (es : list (string * node)) (w : world)
  (file_map : file_map_t) (folders : folders_t) :
  target d p es w ->
  scan d (map fst es) w = (Ok (file_map, folders), w) ->
  (exists w', create_and_move_files d w = (Ok tt, w')) <->
  (forall B files f, In (B, files) file_map -> In f files ->
     (lookup (root w) (p ++ [B]) = None \/
      is_dir (lookup (root w) (p ++ [B])) = true) /\
     free_place (root w) p B f = true).
Proof.
  intros Ht Hscan. apply scan_inv in Hscan. destruct Hscan as (-> & _ & _).
  set (file_map := fst (scan_result d w (map fst es))) in *.
  split.
  - intros [w' Hrun] B files f Hg Hf.
    assert (Hm : In (B, f) (moves file_map)) by (apply in_moves; eauto).
    destruct (run_shape d p es w Ht)
      as (w2 & _ & Hsteps & Hat2 & _ & Hkeep & Hnew & _ & Hok).
    fold file_map in Hsteps, Hnew, Hok.
    rewrite Hsteps in Hrun.
    assert (Hfile : forall B' f', In (B', f') (moves file_map) ->
              exists data, lookup (root w2) (p ++ [f']) = Some (File data)).
    { intros B' f' Hm'.
      destruct (run_move d p es w Ht B' f' Hm')
        as (_ & _ & _ & _ & _ & _ & Hpres & Hnd).
      rewrite (Hkeep f' [] Hpres).
      destruct (lookup (root w) (p ++ [f'])) as [[data|es']|];
        [now exists data|discriminate|congruence]. }
    destruct (move_phase_returns_free d p w2 (moves file_map) Hok w'
                (run_moves_nodup d p es w Ht) Hat2 Hfile Hrun B f Hm)
      as [HBdir Hfree].
    destruct (lookup (root w) (p ++ [B])) as [n|] eqn:HlB.
    + assert (HBpres : lookup (root w) (p ++ [B]) <> None) by congruence.
      rewrite (Hkeep B [] HBpres), HlB in HBdir.
      unfold free_place in *.
      rewrite (Hkeep B [f] HBpres), (Hkeep B [f; f] HBpres) in Hfree.
      split; [now right|assumption].
    + split; [now left|]. unfold free_place.
      replace (p ++ [B; f]) with ((p ++ [B]) ++ [f]) by (now rewrite <- app_assoc).
      now rewrite (lookup_none_below _ _ [f] HlB).
  - intros Hfree. apply (run_returns d p es w Ht).
    intros B f Hm. apply in_moves in Hm. destruct Hm as (files & Hg & Hf).
    now apply Hfree with (files := files).
Qed.

Lemma X7_witness :
  (exists w', create_and_move_files "." collision_world = (Ok tt, w')) <->
  (forall B files f, In (B, files) [("a", ["a.txt"])] -> In f files ->
     (lookup (root collision_world) (["home"] ++ [B]) = None \/
      is_dir (lookup (root collision_world) (["home"] ++ [B])) = true) /\
     free_place (root collision_world) ["home"] B f = true).
Proof.
  apply (X7_run_returns_iff_places_free "." ["home"] collision_entries collision_world
           [("a", ["a.txt"])] ["a"]).
  - repeat split.
  - vm_compute. reflexivity.
Defined.

(* ===================================================================== *)
(** ** What a run leaves as it was *)
(* ===================================================================== *)

(** A path that is neither above nor below [p] is neither above nor
    below a path under [p]. *)
Lemma apart_under (p q c : path) :
  is_prefix p q = false -> is_prefix q p = false ->
  is_prefix (p ++ c) q = false /\ is_prefix q (p ++ c) = false.
Proof.
  revert q. induction p as [|a p IH]; intros q H1 H2; [discriminate|].
  destruct q as [|b q]; [discriminate|].
  cbn [app is_prefix] in *.
  destruct (a =? b)%string eqn:Eab.
  - rewrite String.eqb_sym, Eab in H2. rewrite String.eqb_sym, Eab.
    cbn [andb] in *. now apply IH.
  - rewrite String.eqb_sym, Eab. split; reflexivity.
Qed.

Lemma alter_outside (r r' : node) (p c q : path) (v : option node) :
  alter r (p ++ c) v = Some r' ->
  is_prefix p q = false -> is_prefix q p = false ->
  lookup r' q = lookup r q.
Proof.
  intros H H1 H2. destruct (apart_under p q c H1 H2) as [E1 E2].
  now apply (alter_lookup_apart _ _ _ _ _ H).
Qed.

Lemma move_root_outside (r r2 : node) (p : path) (B f : string) (q : path) :
  move_root r p B f = Some r2 ->
  is_prefix p q = false -> is_prefix q p = false ->
  lookup r2 q = lookup r q.
Proof.
  intros H H1 H2.
  destruct (move_root_effect r r2 p B f H)
    as (data & t & _ & _ & _ & _ & _ & r1 & Ha & Hb).
  rewrite (alter_outside _ _ _ _ _ _ Hb H1 H2).
  now apply (alter_outside _ _ _ _ _ _ Ha).
Qed.

(** In a folder [x], a move changes nothing at a name [y] that is not
    the file it moves into [x]. *)
Lemma move_root_below (r r2 : node) (p : path) (B f x y : string) (s : path) :
  move_root r p B f = Some r2 -> (B = x -> f <> y) ->
  lookup r2 (p ++ x :: y :: s) = lookup r (p ++ x :: y :: s).
Proof.
  intros H Hy.
  destruct (String.eqb_spec B x) as [->|HBx].
  - apply (move_root_inside _ _ _ _ _ _ _ H). intros ->. now apply Hy.
  - destruct (String.eqb_spec f x) as [->|Hfx].
    + destruct (move_root_effect r r2 p B x H) as (data & _ & Hsrc & _).
      destruct (move_root_frame _ _ _ _ _ H) as (_ & _ & Hgone & _).
      replace (p ++ x :: y :: s) with ((p ++ [x]) ++ y :: s)
        by (now rewrite <- app_assoc).
      rewrite (lookup_none_below _ _ _ Hgone).
      now rewrite (lookup_file_below _ _ (y :: s) data Hsrc).
    + destruct (move_root_frame _ _ _ _ _ H) as (_ & Hother & _).
      apply Hother; congruence.
Qed.

(** Step 2 changes nothing beside the directory, however it ends. *)
Lemma create_phase_outside (d : string) (p : path) (ks : list string) (q : path) :
  Forall (fun B => valid_name B = true) ks ->
  is_prefix p q = false -> is_prefix q p = false ->
  forall w, at_dir d p w ->
    lookup (root (snd (for_each (create_folder d) ks w))) q = lookup (root w) q.
Proof.
  intros Hks H1 H2. induction Hks as [|B ks HB Hks IH]; intros w Hat; [reflexivity|].
  cbn [for_each]. unfold bind.
  destruct (lookup (root w) (p ++ [B])) as [n|] eqn:HlB.
  - rewrite (create_folder_present w d B p (proj1 Hat) HB) by congruence.
    now apply IH.
  - destruct (create_folder_absent w d B p Hat HB HlB) as (r' & Halt & Hrun1).
    rewrite Hrun1.
    set (w1 := mkWorld r' (cwd w) _ _).
    assert (Hat1 : at_dir d p w1).
    { apply at_dir_stable with (w := w); [reflexivity| |assumption].
      intros q'. apply (alter_keeps_dirs _ _ _ _ _ Halt). now rewrite HlB. }
    rewrite (IH w1 Hat1). change (root w1) with r'.
    now apply (alter_outside _ _ _ _ _ _ Halt).
Qed.

Section MoveKeeps.

Variables (d : string) (p : path) (w0 : world) (ms : list (string * string)).

Hypothesis ms_ok : forall B f, In (B, f) ms ->
  valid_name B = true /\ valid_name f = true /\
  is_dir (lookup (root w0) (p ++ [f])) = false.

(** What no move of the list changes, the moves do not change, however
    they end. *)
Lemma move_phase_keeps (q : path) (w : world) :
  (forall B f r r2, In (B, f) ms -> move_root r p B f = Some r2 ->
     lookup r2 q = lookup r q) ->
  moving d p w0 w ->
  lookup (root (snd (for_each (move_one d) ms w))) q = lookup (root w) q.
Proof.
  intros Hq Hmov.
  enough (H : moving d p w0 (snd (for_each (move_one d) ms w)) /\
              lookup (root (snd (for_each (move_one d) ms w))) q =
              lookup (root w) q) by apply H.
  apply (for_each_invariant
    (fun w' => moving d p w0 w' /\ lookup (root w') q = lookup (root w) q)).
  - intros [B f] w1 Hin (Hmov1 & Hsame).
    pose proof (moving_step d p w0 ms ms_ok w1 B f Hin Hmov1) as Hmov2.
    destruct (ms_ok B f Hin) as (HB & Hf & Hnd).
    destruct Hmov1 as (Hat & Hcwd & Hfrozen). rewrite <- Hfrozen in Hnd.
    destruct (move_step w1 d B f p Hat HB Hf Hnd)
      as (res & w2 & Hrun & _ & _ & Hcase).
    rewrite Hrun in *. cbn [snd] in *. split; [assumption|].
    rewrite <- Hsame.
    destruct Hcase as [(_ & Hroot & _)|(_ & Hroot)]; [now rewrite Hroot|].
    now apply (Hq B f).
  - split; [assumption|reflexivity].
Qed.

End MoveKeeps.

(** X8.  A run on a well-formed directory, however it ends, changes
    nothing outside that directory: every path that is neither the
    directory, nor below it, nor above it holds what it held; the working
    directory is the same; and the directory is still a directory. *)
Theorem X8_nothing_changes_outside_the_directory (d : string) (p : path)
  (es : list (string * node)) (w w' : world) (res : result unit) :
  target d p es w ->
  create_and_move_files d w = (res, w') ->
  cwd w' = cwd w /\
  at_dir d p w' /\
  forall q, is_prefix p q = false -> is_prefix q p = false ->
    lookup (root w') q = lookup (root w) q.
Proof.
  intros Ht Hrun.
  set (file_map := fst (scan_result d w (map fst es))).
  destruct (run_shape d p es w Ht)
    as (w2 & Hcreate & Hsteps & Hat2 & Hcwd & _ & _ & _ & Hok).
  fold file_map in Hcreate, Hsteps, Hok.
  rewrite Hsteps in Hrun.
  pose proof (moving_start d p w2 Hat2) as Hmov.
  destruct (move_phase_calls d p w2 (moves file_map) Hok w2 Hmov)
    as ((Hat' & Hcwd' & _) & _).
  rewrite Hrun in Hat', Hcwd'. cbn [snd] in Hat', Hcwd'.
  splits; [congruence|assumption|].
  intros q H1 H2.
  pose proof (move_phase_keeps d p w2 (moves file_map) Hok q w2) as Hkeeps.
  rewrite Hrun in Hkeeps. cbn [snd] in Hkeeps.
  rewrite Hkeeps; [|intros B f r r2 _ Hr; now apply (move_root_outside _ _ _ _ _ _ Hr)|assumption].
  pose proof (create_phase_outside d p (keys file_map) q
                (run_keys_valid d p es w Ht) H1 H2 w (target_at_dir d p es w Ht))
    as Hout.
  unfold create_folders in Hcreate. rewrite Hcreate in Hout. exact Hout.
Qed.

Lemma X8_witness :
  lookup (root (snd (create_and_move_files "." beside_world))) ["srv"; "a.txt"] =
  lookup (root beside_world) ["srv"; "a.txt"].
Proof.
  destruct (X8_nothing_changes_outside_the_directory "." ["home"]
              [("a.txt", File "1"); ("docs", Dir [("x", File "2")])]
              beside_world (snd (create_and_move_files "." beside_world))
              (fst (create_and_move_files "." beside_world)))
    as (_ & _ & Hout).
  - repeat split.
  - now destruct (create_and_move_files "." beside_world).
  - apply Hout; reflexivity.
Defined.

(** X9.  A name that is no base name of the grouping and no file of it:
    however the run ends, what the directory has under that name, and
    all that is below it, is as it was.  So a folder that no file is
    grouped into is untouched, and a name the directory does not have is
    not made. *)
Theorem X9_other_entries_are_untouched (d : string) (p : path)
  (es : list (string * node)) (w w' : world) (res : result unit)
  (file_map : file_map_t) (folders : folders_t) (x : string) :
  target d p es w ->
  scan d (map fst es) w = (Ok (file_map, folders), w) ->
  ~ In x (keys file_map) ->
  (forall B files, In (B, files) file_map -> ~ In x files) ->
  create_and_move_files d w = (res, w') ->
  forall s, lookup (root w') (p ++ x :: s) = lookup (root w) (p ++ x :: s).
Proof.
  intros Ht Hscan Hkey Hfile Hrun s.
  apply scan_inv in Hscan. destruct Hscan as (-> & _ & _).
  set (file_map := fst (scan_result d w (map fst es))) in *.
  destruct (run_shape d p es w Ht)
    as (w2 & _ & Hsteps & Hat2 & _ & Hkeep & Hnew & _ & Hok).
  fold file_map in Hsteps, Hnew, Hok.
  rewrite Hsteps in Hrun.
  assert (Hmoves : forall B f, In (B, f) (moves file_map) -> x <> B /\ x <> f).
  { intros B f Hm. split; intros ->.
    - apply Hkey. now apply (run_move_key d es w) with (f := f).
    - apply in_moves in Hm. destruct Hm as (files & Hg & Hf).
      exact (Hfile B files Hg Hf). }
  destruct (move_phase_frame d p w2 (moves file_map) Hok x w2 Hmoves
              (moving_start d p w2 Hat2)) as (_ & Hframe & _).
  rewrite Hrun in Hframe. cbn [snd] in Hframe. rewrite Hframe.
  destruct (lookup (root w) (p ++ [x])) as [n|] eqn:Hlx.
  - apply Hkeep. congruence.
  - assert (E : lookup (root w2) (p ++ [x]) = None).
    { rewrite (Hnew x Hlx).
      destruct (existsb (String.eqb x) (keys file_map)) eqn:Hk; [|reflexivity].
      apply existsb_eqb_in in Hk. contradiction. }
    replace (p ++ x :: s) with ((p ++ [x]) ++ s) by (now rewrite <- app_assoc).
    now rewrite !(lookup_app _ (p ++ [x]) s), E, Hlx.
Qed.

Lemma X9_witness :
  lookup (root (snd (create_and_move_files "." beside_world)))
    (["home"] ++ "docs" :: ["x"]) =
  lookup (root beside_world) (["home"] ++ "docs" :: ["x"]).
Proof.
  refine (X9_other_entries_are_untouched "." ["home"]
           [("a.txt", File "1"); ("docs", Dir [("x", File "2")])]
           beside_world (snd (create_and_move_files "." beside_world))
           (fst (create_and_move_files "." beside_world))
           [("a", ["a.txt"])] ["docs"] "docs" _ _ _ _ _ ["x"]).
  - repeat split.
  - vm_compute. reflexivity.
  - intros H. cbn in H. destruct H as [E|[]]. discriminate.
  - intros B files Hg Hf. destruct Hg as [E|[]]. injection E as <- <-.
    destruct Hf as [E|[]]. discriminate.
  - now destruct (create_and_move_files "." beside_world).
Defined.

(** X10.  Inside the folders of the directory a run, however it ends,
    touches only the names of the files it moves there: in a folder [x],
    what is under a name [y] that is no file of the group of [x] is as it
    was, with all that is below it.  A folder that is reused keeps its
    other entries. *)
Theorem X10_folders_keep_their_other_entries (d : string) (p : path)
  (es : list (string * node)) (w w' : world) (res : result unit)
  (file_map : file_map_t) (folders : folders_t) (x y : string) :
  target d p es w ->
  scan d (map fst es) w = (Ok (file_map, folders), w) ->
  (forall files, In (x, files) file_map -> ~ In y files) ->
  create_and_move_files d w = (res, w') ->
  forall s, lookup (root w') (p ++ x :: y :: s) = lookup (root w) (p ++ x :: y :: s).
Proof.
  intros Ht Hscan Hy Hrun s.
  apply scan_inv in Hscan. destruct Hscan as (-> & _ & _).
  set (file_map := fst (scan_result d w (map fst es))) in *.
  destruct (run_shape d p es w Ht)
    as (w2 & _ & Hsteps & Hat2 & _ & Hkeep & Hnew & _ & Hok).
  fold file_map in Hsteps, Hnew, Hok.
  rewrite Hsteps in Hrun.
  pose proof (move_phase_keeps d p w2 (moves file_map) Hok (p ++ x :: y :: s) w2)
    as Hkeeps.
  rewrite Hrun in Hkeeps. cbn [snd] in Hkeeps.
  rewrite Hkeeps; [| |now apply moving_start].
  - destruct (lookup (root w) (p ++ [x])) as [n|] eqn:Hlx.
    + apply Hkeep. congruence.
    + replace (p ++ x :: y :: s) with ((p ++ [x]) ++ y :: s)
        by (now rewrite <- app_assoc).
      rewrite !(lookup_app _ (p ++ [x]) (y :: s)), Hlx, (Hnew x Hlx).
      now destruct (existsb (String.eqb x) (keys file_map)).
  - intros B f r r2 Hm Hr. apply (move_root_below _ _ _ _ _ _ _ _ Hr).
    intros -> ->. apply in_moves in Hm. destruct Hm as (files & Hg & Hf).
    exact (Hy files Hg Hf).
Qed.

Lemma X10_witness :
  lookup (root (snd (create_and_move_files "." overwrite_world)))
    (["home"] ++ "a" :: "b.txt" :: []) =
  lookup (root overwrite_world) (["home"] ++ "a" :: "b.txt" :: []).
Proof.
  refine (X10_folders_keep_their_other_entries "." ["home"] overwrite_entries
           overwrite_world (snd (create_and_move_files "." overwrite_world))
           (fst (create_and_move_files "." overwrite_world))
           [("a", ["a.txt"])] ["a"] "a" "b.txt" _ _ _ _ []).
  - repeat split.
  - vm_compute. reflexivity.
  - intros files Hg Hf. destruct Hg as [E|[]]. injection E as <-.
    destruct Hf as [E|[]]. discriminate.
  - now destruct (create_and_move_files "." overwrite_world).
Defined.

(** X11.  The directory after a run that returns: its entries are the
    base names of the grouping and the entries it had that were no files
    to move, the hidden ones and the folders; every base name is a
    folder; and every entry that is not hidden is a folder, so nothing is
    left to move. *)
Theorem X11_directory_after_a_run_that_returns (d : string) (p : path)
  (es : list (string * node)) (w w' : world)
  (file_map : file_map_t) (folders : folders_t) :
  target d p es w ->
  scan d (map fst es) w = (Ok (file_map, folders), w) ->
  create_and_move_files d w = (Ok tt, w') ->
  exists items',
    os_listdir d w' = (Ok items', w') /\
    (forall x, In x items' <->
       In x (keys file_map) \/
       (In x (map fst es) /\ is_file_item d w x = false)) /\
    (forall B, In B (keys file_map) ->
       os_path_isdir (os_path_join d B) w' = true) /\
    (forall x, In x items' -> is_file_item d w' x = false).
Proof.
  intros Ht Hscan Hrun.
  apply scan_inv in Hscan. destruct Hscan as (-> & _ & _).
  set (file_map := fst (scan_result d w (map fst es))) in *.
  destruct (run_shape d p es w Ht)
    as (w2 & _ & Hsteps & Hat2 & _ & Hkeep & Hnew & _ & Hok).
  fold file_map in Hsteps, Hnew, Hok.
  rewrite Hsteps in Hrun.
  destruct (move_phase_returns d p w2 (moves file_map) Hok w'
              (run_moves_nodup d p es w Ht) Hat2 Hrun)
    as ((Hat' & _ & Hfrozen) & Hmoved & Hpres).
  pose proof Ht as (Hr & Hl & Hwf).
  destruct Hat' as [Hr' Hp'].
  destruct (lookup (root w') p) as [[data|es']|] eqn:Hl'; try discriminate.
  assert (Hvalid : forall k, In k (keys file_map) -> valid_name k = true).
  { pose proof (run_keys_valid d p es w Ht) as Hall.
    rewrite Forall_forall in Hall. exact Hall. }
  assert (Hkeydir : forall B, In B (keys file_map) ->
            is_dir (lookup (root w') (p ++ [B])) = true).
  { intros B HB. destruct (run_key d es w B HB) as [f Hm].
    destruct (Hmoved B f Hm) as (data & _ & _ & [Hloc|Hloc]).
    - apply lookup_two with (f := f). congruence.
    - apply lookup_prefix_dir with (s := [f; f]); [|discriminate].
      rewrite <- app_assoc. cbn [app]. congruence. }
  assert (Hin_keys : forall x, In x (keys file_map) -> In x (map fst es')).
  { intros x Hx. apply (entry_listed (root w') p es' x Hl').
    intros E. pose proof (Hkeydir x Hx) as Hd. rewrite E in Hd. discriminate. }
  assert (Hstays : forall x, In x (map fst es) -> is_file_item d w x = false ->
            ~ In x (keys file_map) ->
            lookup (root w') (p ++ [x]) = lookup (root w) (p ++ [x])).
  { intros x Hx Hnf Hnk.
    assert (Hmoves : forall B f, In (B, f) (moves file_map) -> x <> B /\ x <> f).
    { intros B f Hm. split; intros ->.
      - apply Hnk. now apply (run_move_key d es w) with (f := f).
      - apply scan_move_iff in Hm. destruct Hm as (_ & Hsel & _). congruence. }
    destruct (move_phase_frame d p w2 (moves file_map) Hok x w2 Hmoves
                (moving_start d p w2 Hat2)) as (_ & Hframe & _).
    rewrite Hrun in Hframe. cbn [snd] in Hframe.
    rewrite (Hframe []). apply (Hkeep x []).
    now apply (entry_listed (root w) p es x Hl). }
  assert (Hcases : forall x, In x (map fst es') ->
            In x (keys file_map) \/
            (In x (map fst es) /\ is_file_item d w x = false)).
  { intros x Hx. apply (entry_listed (root w') p es' x Hl') in Hx.
    destruct (Hpres x Hx) as [Hx2 Hnot].
    destruct (lookup (root w) (p ++ [x])) as [n|] eqn:Hlx.
    - right.
      assert (Hin : In x (map fst es))
        by (apply (entry_listed (root w) p es x Hl); congruence).
      split; [assumption|].
      destruct (is_file_item d w x) eqn:Hsel; [|reflexivity].
      exfalso. apply Hnot. apply in_map_iff. exists (stem x, x).
      split; [reflexivity|]. apply scan_move_iff. now splits.
    - left. rewrite (Hnew x Hlx) in Hx2.
      destruct (existsb (String.eqb x) (keys file_map)) eqn:Hk; [|congruence].
      now apply existsb_eqb_in. }
  exists (map fst es'). splits.
  - now apply listdir_at with (p := p).
  - intros x. split; [apply Hcases|].
    intros [Hx|[Hx Hnf]]; [now apply Hin_keys|].
    destruct (existsb (String.eqb x) (keys file_map)) eqn:Hk.
    + apply Hin_keys. now apply existsb_eqb_in.
    + apply (entry_listed (root w') p es' x Hl').
      rewrite (Hstays x Hx Hnf).
      * now apply (entry_listed (root w) p es x Hl).
      * intros Hk'. apply existsb_eqb_in in Hk'. congruence.
  - intros B HB. rewrite (isdir_join w' d B p Hr' (Hvalid B HB)). now apply Hkeydir.
  - intros x Hx. unfold is_file_item.
    destruct (hidden x) eqn:Hh; [reflexivity|]. cbn [negb andb].
    apply negb_false_iff.
    destruct (Hcases x Hx) as [Hk|[Hin Hnf]].
    + rewrite (isdir_join w' d x p Hr' (Hvalid x Hk)). now apply Hkeydir.
    + pose proof (well_formed_valid es x Hwf Hin) as Hv.
      unfold is_file_item in Hnf. rewrite Hh in Hnf. cbn [negb andb] in Hnf.
      apply negb_false_iff in Hnf.
      rewrite (isdir_join w d x p Hr Hv) in Hnf.
      rewrite (isdir_join w' d x p Hr' Hv), Hfrozen, (Hkeep x []); [assumption|].
      intros E. rewrite E in Hnf. discriminate.
Qed.

Lemma X11_witness :
  exists items',
    os_listdir "." (snd (create_and_move_files "." mixed_world)) =
      (Ok items', snd (create_and_move_files "." mixed_world)) /\
    (forall x, In x items' <->
       In x ["a"; "archive.tar"] \/
       (In x (map fst mixed_entries) /\ is_file_item "." mixed_world x = false)).
Proof.
  destruct (X11_directory_after_a_run_that_returns "." ["home"] mixed_entries
              mixed_world (snd (create_and_move_files "." mixed_world))
              [("a", ["a.txt"; "a.csv"]); ("archive.tar", ["archive.tar.gz"])]
              ["a"])
    as (items' & Hlist & Hitems & _).
  - repeat split.
  - vm_compute. reflexivity.
  - vm_compute. reflexivity.
  - exists items'. split; [exact Hlist|exact Hitems].
Defined.

(** X12.  A run on a well-formed directory leaves the world as it is,
    the tree, the output and the calls made, exactly when the directory
    has no file to move: every entry is hidden or a folder.  The run
    returns then. *)
Theorem X12_nothing_happens_iff_nothing_to_move (d : string) (p : path)
  (es : list (string * node)) (w : world) :
  target d p es w ->
  (snd (create_and_move_files d w) = w <->
   forall x, In x (map fst es) -> is_file_item d w x = false) /\
  (snd (create_and_move_files d w) = w ->
   create_and_move_files d w = (Ok tt, w)).
Proof.
  intros Ht.
  set (file_map := fst (scan_result d w (map fst es))).
  assert (Hnone : (forall x, In x (map fst es) -> is_file_item d w x = false) ->
            create_and_move_files d w = (Ok tt, w)).
  { intros H. pose proof Ht as (Hr & Hl & _).
    rewrite create_and_move_files_steps, (listdir_at w d p es Hr Hl).
    cbv zeta. rewrite scan_nothing; [reflexivity|assumption]. }
  assert (Hsame : snd (create_and_move_files d w) = w ->
            forall x, In x (map fst es) -> is_file_item d w x = false).
  { intros Hw.
    destruct (run_shape d p es w Ht)
      as (w2 & _ & Hsteps & Hat2 & _ & _ & _ & (new1 & Hcalls1 & _) & Hok).
    fold file_map in Hsteps, Hok.
    assert (Hempty : moves file_map = []).
    { destruct (moves file_map) as [|[B f] ms] eqn:Hms; [reflexivity|exfalso].
      rewrite Hsteps in Hw. cbn [for_each] in Hw. unfold bind in Hw.
      destruct (Hok B f (or_introl eq_refl)) as (HB & Hf & Hnd).
      destruct (move_step w2 d B f p Hat2 HB Hf Hnd)
        as (res & w3 & Hrun & _ & Hcalls3 & Hcase).
      rewrite Hrun in Hw.
      assert (Hmov3 : moving d p w2 w3).
      { pose proof (moving_step d p w2 ((B, f) :: ms) Hok w2 B f) as Hst.
        rewrite Hrun in Hst. cbn [snd] in Hst.
        apply Hst; [now left|now apply moving_start]. }
      assert (Hgrow : exists new, calls w = calls w ++ new /\ new <> []).
      { destruct res as [[]|e].
        - assert (Hok' : forall B' f', In (B', f') ms ->
                    valid_name B' = true /\ valid_name f' = true /\
                    is_dir (lookup (root w2) (p ++ [f'])) = false)
            by (intros B' f' H'; apply Hok; now right).
          destruct (move_phase_calls d p w2 ms Hok' w3 Hmov3)
            as (_ & new3 & Hcalls & _).
          rewrite Hw in Hcalls.
          exists (new1 ++ [Move (os_path_join d f) (os_path_join (os_path_join d B) f)]
                       ++ new3).
          split.
          + rewrite Hcalls at 1. rewrite Hcalls3, Hcalls1.
            now rewrite <- !app_assoc.
          + intros E. apply app_eq_nil in E. destruct E as [_ E]. discriminate.
        - cbn [snd] in Hw. subst w3.
          exists (new1 ++ [Move (os_path_join d f) (os_path_join (os_path_join d B) f)]).
          split.
          + rewrite Hcalls3 at 1. rewrite Hcalls1. now rewrite <- app_assoc.
          + intros E. apply app_eq_nil in E. destruct E as [_ E]. discriminate. }
      destruct Hgrow as (new & E & Hne). apply Hne.
      apply (app_inv_head (calls w)). now rewrite app_nil_r. }
    intros x Hx. destruct (is_file_item d w x) eqn:Hsel; [|reflexivity].
    assert (Hm : In (stem x, x) (moves file_map))
      by (apply scan_move_iff; now splits).
    rewrite Hempty in Hm. destruct Hm. }
  split; [split|].
  - exact Hsame.
  - intros H. now rewrite (Hnone H).
  - intros Hw. apply Hnone. now apply Hsame.
Qed.

Lemma X12_witness :
  (snd (create_and_move_files "." settled_world) = settled_world <->
   forall x, In x (map fst settled_entries) ->
     is_file_item "." settled_world x = false) /\
  (snd (create_and_move_files "." settled_world) = settled_world ->
   create_and_move_files "." settled_world = (Ok tt, settled_world)).
Proof.
  apply (X12_nothing_happens_iff_nothing_to_move "." ["home"] settled_entries
           settled_world).
  repeat split.
Defined.

(** X13.  A file that is not hidden and whose stem is the name of a
    regular file of the directory, its own name when it has no extension:
    step 2 makes no folder for it, the run raises, and the file is where
    it was, however far the run came. *)
Theorem X13_stem_taken_by_a_file_aborts (d : string) (p : path)
  (es : list (string * node)) (w : world) (f data data' : string) :
  target d p es w ->
  hidden f = false ->
  lookup (root w) (p ++ [f]) = Some (File data) ->
  lookup (root w) (p ++ [stem f]) = Some (File data') ->
  exists e w',
    create_and_move_files d w = (Raise e, w') /\
    lookup (root w') (p ++ [f]) = Some (File data) /\
    is_dir (lookup (root w') (p ++ [stem f])) = false.
Proof.
  intros Ht Hh Hf HB.
  pose proof Ht as (Hr & Hl & Hwf).
  assert (Hin : In f (map fst es))
    by (apply (entry_listed (root w) p es f Hl); congruence).
  pose proof (well_formed_valid es f Hwf Hin) as Hv.
  set (file_map := fst (scan_result d w (map fst es))).
  assert (Hself : In (stem f, f) (moves file_map)).
  { apply scan_move_iff. splits; [assumption| |reflexivity].
    unfold is_file_item. now rewrite Hh, (isdir_join w d f p Hr Hv), Hf. }
  destruct (run_shape d p es w Ht)
    as (w2 & Hcreate & Hsteps & Hat2 & _ & Hkeep & _ & _ & Hok).
  fold file_map in Hcreate, Hsteps, Hok.
  assert (HB2 : is_dir (lookup (root w2) (p ++ [stem f])) = false).
  { rewrite (Hkeep (stem f) []); [now rewrite HB|congruence]. }
  assert (Hf2 : is_dir (lookup (root w2) (p ++ [f])) = false).
  { rewrite (Hkeep f []); [now rewrite Hf|congruence]. }
  assert (Hnever : forall w', (forall x, is_dir (lookup (root w') (p ++ [x])) =
                                          is_dir (lookup (root w2) (p ++ [x]))) ->
            forall B' f', moved p w2 w' B' f' -> is_dir (lookup (root w2) (p ++ [B'])) = true).
  { intros w' Hfrozen B' f' (dt & _ & _ & Hloc). rewrite <- Hfrozen.
    destruct Hloc as [Hloc|Hloc].
    - apply lookup_two with (f := f'). congruence.
    - apply lookup_prefix_dir with (s := [f'; f']); [|discriminate].
      rewrite <- app_assoc. cbn [app]. congruence. }
  rewrite Hsteps.
  destruct (for_each (move_one d) (moves file_map) w2) as [[[]|e] w'] eqn:Hrun.
  - exfalso.
    destruct (move_phase_returns d p w2 (moves file_map) Hok w'
                (run_moves_nodup d p es w Ht) Hat2 Hrun)
      as ((_ & _ & Hfrozen) & Hmoved & _).
    pose proof (Hnever w' Hfrozen _ _ (Hmoved _ _ Hself)) as Hd. congruence.
  - exists e, w'. split; [reflexivity|].
    destruct (run_raises d p es w Ht e w' Hsteps)
      as (w2' & done & m & rest & w3 & Hc' & E & _ & _ & _ & _ & _ & Hfrozen & Hmoved & Hframe).
    fold file_map in Hc', E. rewrite Hcreate in Hc'. injection Hc' as <-.
    split.
    + rewrite <- Hf, <- (Hkeep f []) by congruence. apply (Hframe f []).
      intros B' f' Hd.
      assert (Hms : In (B', f') (moves file_map)).
      { rewrite E. apply in_or_app. now left. }
      pose proof (Hnever w' Hfrozen _ _ (Hmoved B' f' Hd)) as Hdir.
      split; intros <-; [congruence|].
      destruct (run_move d p es w Ht B' f Hms) as (_ & -> & _). congruence.
    + now rewrite Hfrozen.
Qed.

Lemma X13_witness :
  exists e w',
    create_and_move_files "." clash_world = (Raise e, w') /\
    lookup (root w') (["home"] ++ ["a.txt"]) = Some (File "1") /\
    is_dir (lookup (root w') (["home"] ++ [stem "a.txt"])) = false.
Proof.
  apply (X13_stem_taken_by_a_file_aborts "." ["home"] clash_entries clash_world
           "a.txt" "1" "0").
  - repeat split.
  - reflexivity.
  - reflexivity.
  - vm_compute. reflexivity.
Defined.

(* ===================================================================== *)
(** ** The order of the groups *)
(* ===================================================================== *)

Section KeyOrder.

Lemma in_first_seen (x : string) (l : list string) :
  In x (first_seen l) <-> In x l.
Proof. unfold first_seen. now rewrite <- in_rev, nodup_In, <- in_rev. Qed.

Lemma first_seen_snoc (l : list string) (x : string) :
  first_seen (l ++ [x]) =
  first_seen l ++ (if existsb (String.eqb x) l then [] else [x]).
Proof.
  unfold first_seen. rewrite rev_app_distr. cbn [rev app nodup].
  destruct (in_dec string_dec x (rev l)) as [Hin|Hout].
  - apply in_rev in Hin. apply existsb_eqb_in in Hin.
    now rewrite Hin, app_nil_r.
  - destruct (existsb (String.eqb x) l) eqn:E; [|reflexivity].
    exfalso. apply Hout. apply in_rev. rewrite rev_involutive.
    now apply existsb_eqb_in.
Qed.

Lemma keys_order_append (fm : file_map_t) (seen : list string) (f : string) :
  keys fm = first_seen (map stem seen) ->
  keys (file_map_append (stem f) f fm) = first_seen (map stem (seen ++ [f])).
Proof.
  intros H. rewrite map_app. cbn [map]. rewrite first_seen_snoc, <- H.
  destruct (file_map_append_shape (stem f) f fm)
    as [(fm1 & old & fm2 & E & Hk & ->)|(Hk & ->)].
  - assert (Hin : In (stem f) (map stem seen)).
    { apply in_first_seen. rewrite <- H, E, keys_app. apply in_or_app.
      right. now left. }
    apply existsb_eqb_in in Hin. rewrite Hin, app_nil_r, E.
    now rewrite !keys_app.
  - rewrite keys_app. cbn [keys map fst].
    destruct (existsb (String.eqb (stem f)) (map stem seen)) eqn:Hin; [|reflexivity].
    exfalso. apply Hk. rewrite H. apply in_first_seen.
    now apply existsb_eqb_in.
Qed.

(** A grouping is given by its keys when every group is the group of its
    key. *)
Lemma file_map_of_keys (fm : file_map_t) (files : list string) :
  (forall B fs, In (B, fs) fm -> fs = group B files) ->
  fm = map (fun B => (B, group B files)) (keys fm).
Proof.
  induction fm as [|[B fs] fm IH]; intros H; [reflexivity|].
  cbn [keys map fst]. f_equal.
  - f_equal. apply H. now left.
  - apply IH. intros B' fs' Hin. apply H. now right.
Qed.

Context {W : Type} {os : OS W}.

Variables (directory : string) (w : W).

Lemma scan_keys_order (items : list string) :
  forall st seen,
    keys (fst st) = first_seen (map stem seen) ->
    keys (fst (fold_left (classify directory w) items st)) =
    first_seen (map stem (seen ++ filter (is_file_item directory w) items)).
Proof.
  induction items as [|item items IH]; intros st seen H; cbn [fold_left filter].
  - now rewrite app_nil_r.
  - destruct (is_file_item directory w item) eqn:Hsel.
    + assert (E : classify directory w st item =
                  (file_map_append (stem item) item (fst st), snd st)).
      { unfold classify, is_file_item in *.
        destruct (hidden item); [discriminate|].
        destruct (os_path_isdir (os_path_join directory item) w);
          [discriminate|reflexivity]. }
      rewrite E.
      replace (seen ++ item :: filter (is_file_item directory w) items)
        with ((seen ++ [item]) ++ filter (is_file_item directory w) items)
        by (now rewrite <- app_assoc).
      apply IH. cbn [fst]. now apply keys_order_append.
    + assert (E : fst (classify directory w st item) = fst st).
      { unfold classify, is_file_item in *.
        destruct (hidden item); [reflexivity|].
        destruct (os_path_isdir (os_path_join directory item) w);
          [reflexivity|discriminate]. }
      apply IH. now rewrite E.
Qed.

End KeyOrder.

(** X15.  The grouping of step 1, in every model of the library calls,
    in closed form: the keys are the stems of the files to move in the
    order of their first appearance in the listing, each once, and the
    group of a key holds the files of that stem in the order of the
    listing.  This is the order step 2 and step 3 go through. *)
Theorem X15_groups_in_order_of_first_appearance {W : Type} {os : OS W}
  (directory : string) (items : list string) (w w' : W)
  (file_map : file_map_t) (folders : folders_t) :
  scan directory items w = (Ok (file_map, folders), w') ->
  let files := filter (is_file_item directory w) items in
  keys file_map = first_seen (map stem files) /\
  file_map = map (fun B => (B, group B files)) (first_seen (map stem files)) /\
  moves file_map =
    flat_map (fun B => map (pair B) (group B files)) (first_seen (map stem files)).
Proof.
  intros Hscan files. apply scan_inv in Hscan. destruct Hscan as (-> & _ & _).
  assert (Hkeys : keys (fst (scan_result directory w items)) =
                  first_seen (map stem files)).
  { apply (scan_keys_order directory w items ([], []) []). reflexivity. }
  assert (Hmap : fst (scan_result directory w items) =
                 map (fun B => (B, group B files)) (first_seen (map stem files))).
  { rewrite <- Hkeys. apply file_map_of_keys.
    intros B fs Hin.
    destruct (scan_result_grouped directory w items) as (_ & Hgroups & _).
    now destruct (Hgroups B fs Hin). }
  splits; [assumption|assumption|].
  rewrite Hmap at 1. unfold moves. rewrite flat_map_concat_map, map_map.
  cbn [fst snd]. now rewrite <- flat_map_concat_map.
Qed.

Lemma X15_witness :
  keys [("a", ["a.txt"; "a.csv"]); ("archive.tar", ["archive.tar.gz"])] =
  first_seen (map stem (filter (is_file_item "." mixed_world)
                          (map fst mixed_entries))).
Proof.
  apply (X15_groups_in_order_of_first_appearance "." (map fst mixed_entries)
           mixed_world mixed_world
           [("a", ["a.txt"; "a.csv"]); ("archive.tar", ["archive.tar.gz"])] ["a"]).
  vm_compute. reflexivity.
Defined.
